(** * The message-processing pipeline of the shopping assistant

    A shallow embedding of [src/lib/edibleApi.js] (the catalog client) and
    [src/lib/aiPipeline.js] (the pipeline orchestrator), followed by the
    properties the specification states about them.

    Conventions of the embedding:
    - a JavaScript string is a [string]: a sequence of code units, of which
      the embedding covers those below 256;
    - a JavaScript number is a rational ([Q]); [null] and [undefined] are
      [None];
    - a [Map] or a [Set] is an insertion-ordered list, as the language
      iterates them;
    - an [async] function is a computation in the monad [M], which threads
      the process state (the search cache, the log of outside calls) and may
      throw. *)

From Stdlib Require Import String Ascii List Bool Arith NArith ZArith QArith Lia.
From Stdlib Require Import DecimalString Permutation Sorted Lqa.
Import ListNotations.
Close Scope Q_scope.
Open Scope string_scope.
Open Scope list_scope.
Open Scope nat_scope.

(** ** JavaScript strings *)

Module Js.

(** [WhiteSpace] and [LineTerminator] code units below 256: TAB, LF, VT,
    FF, CR, SP and NBSP. *)
Definition isWhiteSpace (c : ascii) : bool :=
  let n := nat_of_ascii c in
  ((9 <=? n) && (n <=? 13)) || (n =? 32) || (n =? 160).

Fixpoint trimStart (s : string) : string :=
  match s with
  | EmptyString => EmptyString
  | String c r => if isWhiteSpace c then trimStart r else s
  end.

(** [trimEnd]: a white-space character is dropped when everything after
    it has been dropped. *)
Fixpoint trimEnd (s : string) : string :=
  match s with
  | EmptyString => EmptyString
  | String c r =>
      match trimEnd r with
      | EmptyString => if isWhiteSpace c then EmptyString else String c EmptyString
      | r' => String c r'
      end
  end.

Definition trim (s : string) : string := trimEnd (trimStart s).

(** [String.prototype.toLowerCase] on code units below 256: A-Z and the
    Latin-1 capitals (C0-DE but D7) move up by 32. *)
Definition lowerChar (c : ascii) : ascii :=
  let n := nat_of_ascii c in
  if ((65 <=? n) && (n <=? 90))
     || ((192 <=? n) && (n <=? 222) && negb (n =? 215))
  then ascii_of_nat (n + 32) else c.

Fixpoint toLowerCase (s : string) : string :=
  match s with
  | EmptyString => EmptyString
  | String c r => String (lowerChar c) (toLowerCase r)
  end.

Definition startsWith (s pre : string) : bool := prefix pre s.

(** [s.includes(sub)] *)
Fixpoint includes (s sub : string) : bool :=
  match s with
  | EmptyString => prefix sub EmptyString
  | String _ r => prefix sub s || includes r sub
  end.

(** [s.split(sep)] for a one-character separator *)
Fixpoint split (sep : ascii) (s : string) : list string :=
  match s with
  | EmptyString => [EmptyString]
  | String c r =>
      if Ascii.eqb c sep then EmptyString :: split sep r
      else match split sep r with
           | w :: ws => String c w :: ws
           | [] => [String c EmptyString]
           end
  end.

Definition join (sep : string) (l : list string) : string := String.concat sep l.

(** [s.replace(c, rep)] with a one-character string pattern: the first
    occurrence only. *)
Fixpoint replaceFirst (c : ascii) (rep : string) (s : string) : string :=
  match s with
  | EmptyString => EmptyString
  | String d r => if Ascii.eqb d c then String.append rep r else String d (replaceFirst c rep r)
  end.

(** Truthiness of a string-or-null value: present and not empty. *)
Definition truthyStr (o : option string) : bool :=
  match o with
  | Some EmptyString | None => false
  | Some _ => true
  end.

(** [o || d] on a string-or-null value *)
Definition orStr (o : option string) (d : string) : string :=
  match o with
  | Some EmptyString | None => d
  | Some s => s
  end.

(** Truthiness of a number-or-null value: present and not zero. *)
Definition truthyNum (o : option Q) : bool :=
  match o with
  | Some q => negb (Qeq_bool q 0)
  | None => false
  end.

(** [arr.slice(-n)] *)
Definition lastn {A} (n : nat) (l : list A) : list A := skipn (length l - n) l.

(** [arr.includes(x)] *)
Definition arrIncludes (l : list string) (x : string) : bool :=
  existsb (String.eqb x) l.

End Js.

(** ** An insertion-ordered [Map] keyed by strings *)

Module JsMap.
Section WithValue.
Context {V : Type}.

Definition t := list (string * V).

Fixpoint get (k : string) (m : t) : option V :=
  match m with
  | [] => None
  | (k', v) :: m' => if String.eqb k k' then Some v else get k m'
  end.

(** [m.set(k, v)]: an existing key keeps its place and takes the new
    value, a new key goes last. *)
Fixpoint set (k : string) (v : V) (m : t) : t :=
  match m with
  | [] => [(k, v)]
  | (k', v') :: m' =>
      if String.eqb k k' then (k', v) :: m' else (k', v') :: set k v m'
  end.

Fixpoint delete (k : string) (m : t) : t :=
  match m with
  | [] => []
  | (k', v') :: m' =>
      if String.eqb k k' then m' else (k', v') :: delete k m'
  end.

Definition values (m : t) : list V := map snd m.
Definition keys (m : t) : list string := map fst m.

(** [new Map(entries)] *)
Definition ofEntries (es : list (string * V)) : t :=
  fold_left (fun m e => set (fst e) (snd e) m) es [].
End WithValue.
Arguments t : clear implicits.
End JsMap.

(** ** Catalog products *)

(** A product identifier as the catalog sends it: a number or a string.
    The numbers covered are the integers up to [MAX_SAFE_INTEGER], the ones
    a JavaScript number holds exactly (see [safeId]); a property that
    depends on how a number prints is stated for those only. *)
Inductive JsId : Type :=
| IdNum (n : N)
| IdStr (s : string).

Definition JsId_eqb (a b : JsId) : bool :=
  match a, b with
  | IdNum x, IdNum y => N.eqb x y
  | IdStr x, IdStr y => String.eqb x y
  | _, _ => false
  end.

(** [Number.MAX_SAFE_INTEGER], 2^53 - 1 *)
Definition MAX_SAFE_INTEGER : N := 9007199254740991.

(** An identifier within the numbers covered. *)
Definition safeId (i : JsId) : Prop :=
  match i with
  | IdNum n => (n <= MAX_SAFE_INTEGER)%N
  | IdStr _ => True
  end.

(** [String(id)]: a string is itself, a number prints in decimal.  The
    decimal digits are what JavaScript prints for a safe integer; past
    [MAX_SAFE_INTEGER] it rounds the digits, and from 1e21 on it prints an
    exponent, which this function does not follow. *)
Definition String_ (i : JsId) : string :=
  match i with
  | IdNum n => NilZero.string_of_uint (N.to_uint n)
  | IdStr s => s
  end.

Module Product.
(** The record the catalog endpoint returns, with the fields the pipeline
    reads. *)
Record t : Type := mk {
  id : JsId;
  name : string;
  description : option string;
  image : option string;
  thumbnail : option string;
  minPrice : option Q;
  maxPrice : option Q;
  url : string;
  occasion : option string;
  category : option string;
  ingrediantNames : option string;
  sizeCount : option N;
  isOneHourDelivery : bool;
  productImageTag : option string;
  nonPromo : option string;
  promo : option string;
  isMinSizeOnSale : bool;
  minsizeProductPrice : option Q;
  allergyinformation : option string;
  catalogCode : option string;
  search_score : option Q
}.
End Product.

Module Filters.
Record t : Type := mk {
  minBudget : option Q;
  maxBudget : option Q;
  occasion : option string;
  excludeIngredients : option (list string);
  urgentDelivery : bool
}.
(** [{}] *)
Definition empty : t := mk None None None None false.
End Filters.

(** ** [filterProducts] (edibleApi.js) *)

Definition minBudgetOk (b : Q) (p : Product.t) : bool :=
  match Product.minPrice p with
  | Some x => Qle_bool b x
  | None => false
  end.

Definition maxBudgetOk (b : Q) (p : Product.t) : bool :=
  match Product.minPrice p with
  | Some x => Qle_bool x b
  | None => false
  end.

Definition occasionOk (occ : string) (p : Product.t) : bool :=
  match Product.occasion p with
  | Some o => Js.truthyStr (Some o) && Js.includes (Js.toLowerCase o) occ
  | None => false
  end.

Definition ingredientsOk (excl : list string) (p : Product.t) : bool :=
  let ingredients := Js.toLowerCase (Js.orStr (Product.ingrediantNames p) EmptyString) in
  negb (existsb (fun exc => Js.includes ingredients (Js.toLowerCase exc)) excl).

Definition filterProducts (products : list Product.t) (filters : Filters.t)
  : list Product.t :=
  let filtered := products in
  (* Budget filter *)
  let filtered :=
    match Filters.minBudget filters with
    | Some b => filter (minBudgetOk b) filtered
    | None => filtered
    end in
  let filtered :=
    match Filters.maxBudget filters with
    | Some b => filter (maxBudgetOk b) filtered
    | None => filtered
    end in
  (* Save budget-filtered results before applying occasion filter *)
  let budgetFiltered := filtered in
  (* Occasion filter *)
  let filtered :=
    match Filters.occasion filters with
    | Some o =>
        if Js.truthyStr (Some o) then
          let occ := Js.toLowerCase o in
          let filtered := filter (occasionOk occ) filtered in
          (* If filtering removed everything, fall back to budget-filtered results *)
          if length filtered =? 0 then budgetFiltered else filtered
        else filtered
    | None => filtered
    end in
  (* Dietary / ingredient exclusion *)
  let filtered :=
    match Filters.excludeIngredients filters with
    | Some excl =>
        if 0 <? length excl then filter (ingredientsOk excl) filtered
        else filtered
    | None => filtered
    end in
  (* One-hour delivery filter *)
  let filtered :=
    if Filters.urgentDelivery filters
    then filter Product.isOneHourDelivery filtered
    else filtered in
  filtered.

(** ** The two projections of a product (edibleApi.js) *)

(** Removal of the matches of [/<[^>]*>/g]: a [<] opens a match when a [>] follows
    somewhere; the match runs to the first [>]. *)
Fixpoint hasChar (c : ascii) (s : string) : bool :=
  match s with
  | EmptyString => false
  | String d r => Ascii.eqb d c || hasChar c r
  end.

Fixpoint stripTagsFrom (inTag : bool) (s : string) : string :=
  match s with
  | EmptyString => EmptyString
  | String c r =>
      if inTag then stripTagsFrom (negb (Ascii.eqb c ">")) r
      else if Ascii.eqb c "<" && hasChar ">" r then stripTagsFrom true r
      else String c (stripTagsFrom false r)
  end.

Definition stripTags (s : string) : string := stripTagsFrom false s.

(** Every CR LF pair becomes one space, as [/\r\n/g] replaces them. *)
Fixpoint replaceCRLF (s : string) : string :=
  match s with
  | String "013" (String "010" r) => String " " (replaceCRLF r)
  | String c r => String c (replaceCRLF r)
  | EmptyString => EmptyString
  end.

Definition cleanDescription (d : option string) : string :=
  Js.trim (replaceCRLF (stripTags (Js.orStr d EmptyString))).

(** [n || 1] *)
Definition orOne (o : option N) : N :=
  match o with
  | Some 0%N | None => 1%N
  | Some n => n
  end.

Module LLMProduct.
Record t : Type := mk {
  id : JsId;
  name : string;
  description : string;
  minPrice : option Q;
  maxPrice : option Q;
  occasion : string;
  category : string;
  ingredients : string;
  sizeOptions : N;
  isOneHourDelivery : bool;
  productTag : string;
  promo : string;
  onSale : bool;
  originalPrice : option Q
}.
End LLMProduct.

Definition cleanProductForLLM (product : Product.t) : LLMProduct.t :=
  let cleanDesc := cleanDescription (Product.description product) in
  {| LLMProduct.id := Product.id product;
     LLMProduct.name := Product.name product;
     LLMProduct.description := cleanDesc;
     LLMProduct.minPrice := Product.minPrice product;
     LLMProduct.maxPrice := Product.maxPrice product;
     LLMProduct.occasion := Js.orStr (Product.occasion product) EmptyString;
     LLMProduct.category := Js.orStr (Product.category product) EmptyString;
     LLMProduct.ingredients := Js.orStr (Product.ingrediantNames product) EmptyString;
     LLMProduct.sizeOptions := orOne (Product.sizeCount product);
     LLMProduct.isOneHourDelivery := Product.isOneHourDelivery product;
     LLMProduct.productTag := Js.orStr (Product.productImageTag product) EmptyString;
     LLMProduct.promo :=
       Js.orStr (Product.nonPromo product) (Js.orStr (Product.promo product) EmptyString);
     LLMProduct.onSale := Product.isMinSizeOnSale product;
     LLMProduct.originalPrice := Product.minsizeProductPrice product |}.

Module Display.
Record t : Type := mk {
  id : JsId;
  name : string;
  description : string;
  image : option string;
  thumbnail : option string;
  minPrice : option Q;
  maxPrice : option Q;
  url : string;
  occasion : string;
  category : string;
  ingredients : string;
  sizeCount : N;
  isOneHourDelivery : bool;
  productTag : string;
  promo : string;
  onSale : bool;
  originalPrice : option Q;
  allergyInfo : string;
  catalogCode : string
}.
End Display.

Definition formatProductForDisplay (product : Product.t) : Display.t :=
  {| Display.id := Product.id product;
     Display.name := Product.name product;
     Display.description := cleanDescription (Product.description product);
     Display.image := Product.image product;
     Display.thumbnail := Product.thumbnail product;
     Display.minPrice := Product.minPrice product;
     Display.maxPrice := Product.maxPrice product;
     Display.url :=
       String.append "https://www.ediblearrangements.com/" (Product.url product);
     Display.occasion := Js.orStr (Product.occasion product) EmptyString;
     Display.category := Js.orStr (Product.category product) EmptyString;
     Display.ingredients := Js.orStr (Product.ingrediantNames product) EmptyString;
     Display.sizeCount := orOne (Product.sizeCount product);
     Display.isOneHourDelivery := Product.isOneHourDelivery product;
     Display.productTag := Js.orStr (Product.productImageTag product) EmptyString;
     Display.promo :=
       Js.orStr (Product.nonPromo product) (Js.orStr (Product.promo product) EmptyString);
     Display.onSale := Product.isMinSizeOnSale product;
     Display.originalPrice := Product.minsizeProductPrice product;
     Display.allergyInfo := Js.orStr (Product.allergyinformation product) EmptyString;
     Display.catalogCode := Js.orStr (Product.catalogCode product) EmptyString |}.

(** ** Merging search results (the loop of [multiSearch], edibleApi.js) *)

(** [seen] is the [Set] of identifiers, [merged] the output array; the two
    nested [for] loops run over the result sets in order. *)
Definition mergeStep (st : list JsId * list Product.t) (product : Product.t)
  : list JsId * list Product.t :=
  let (seen, merged) := st in
  if existsb (JsId_eqb (Product.id product)) seen then (seen, merged)
  else (seen ++ [Product.id product], merged ++ [product]).

Definition mergeResults (results : list (list Product.t)) : list Product.t :=
  snd (fold_left (fun st resultSet => fold_left mergeStep resultSet st)
                 results ([], [])).

(** ** The intent record *)

Module Intent.
(** The object the intent-extraction model is asked for, as the pipeline
    reads it. *)
Record t : Type := mk {
  search_keywords : option (list string);
  occasion : option string;
  budget_min : option Q;
  budget_max : option Q;
  recipient : option string;
  dietary_restrictions : option (list string);
  urgency : option string;
  product_type_preference : option string;
  intent_type : option string;
  needs_clarification : bool;
  clarification_topic : option string;
  sentiment : option string
}.
End Intent.

(** ** [filterAndRank] (aiPipeline.js) *)

Definition filtersOfIntent (intent : Intent.t) : Filters.t :=
  {| Filters.minBudget :=
       if Js.truthyNum (Intent.budget_min intent)
       then Intent.budget_min intent else None;
     Filters.maxBudget :=
       if Js.truthyNum (Intent.budget_max intent)
       then Intent.budget_max intent else None;
     Filters.occasion :=
       match Intent.occasion intent with
       | Some o =>
           if Js.truthyStr (Some o) && negb (String.eqb o "null")
           then Some (Js.replaceFirst "_" " " o) else None
       | None => None
       end;
     Filters.excludeIngredients :=
       match Intent.dietary_restrictions intent with
       | Some d => if 0 <? length d then Some d else None
       | None => None
       end;
     Filters.urgentDelivery :=
       match Intent.urgency intent with
       | Some u => String.eqb u "one_hour" || String.eqb u "same_day"
       | None => false
       end |}.

(** The comparator handed to [sort]. *)
Definition topSeller (p : Product.t) : Z :=
  if Js.includes (Js.orStr (Product.productImageTag p) EmptyString) "Top Seller"
  then (-10)%Z else 0%Z.

Definition scoreOrZero (p : Product.t) : Q :=
  match Product.search_score p with
  | Some q => q
  | None => 0%Q
  end.

Definition rankCompare (a b : Product.t) : Q :=
  let aTopSeller := topSeller a in
  let bTopSeller := topSeller b in
  if negb (Z.eqb aTopSeller bTopSeller) then inject_Z (aTopSeller - bTopSeller)
  else (scoreOrZero b - scoreOrZero a)%Q.

(** [Array.prototype.sort] is a stable sort; with a comparator that orders
    by a key, as [rankCompare] does, its result is the one of stable
    insertion: an element goes before the first one it does not compare
    greater than. *)
Fixpoint insertSorted {A} (cmp : A -> A -> Q) (x : A) (l : list A) : list A :=
  match l with
  | [] => [x]
  | y :: l' => if Qle_bool (cmp x y) 0 then x :: l else y :: insertSorted cmp x l'
  end.

Definition sort {A} (cmp : A -> A -> Q) (l : list A) : list A :=
  fold_right (insertSorted cmp) [] l.

Definition filterAndRank (products : list Product.t) (intent : Intent.t)
  : list Product.t :=
  let filters := filtersOfIntent intent in
  let filtered := filterProducts products filters in
  sort rankCompare filtered.

(** ** [reorderProductsByMention] (aiPipeline.js) *)

Definition isDigit (c : ascii) : bool :=
  let n := nat_of_ascii c in (48 <=? n) && (n <=? 57).

(** The longest run of digits at the start of a string, and what follows. *)
Fixpoint digitsPrefix (s : string) : string * string :=
  match s with
  | EmptyString => (EmptyString, EmptyString)
  | String c r =>
      if isDigit c
      then let (d, rest) := digitsPrefix r in (String c d, rest)
      else (EmptyString, s)
  end.

(** One attempt of [/\[ID:(\d+)\]/] at the start of [s]: the captured
    group.  The match is the group between [[ID:] and []], so it is 5
    characters longer than the group. *)
Definition matchIdTag (s : string) : option string :=
  match s with
  | String "[" (String "I" (String "D" (String ":" r))) =>
      match digitsPrefix r with
      | (String c d, String "]" _) => Some (String c d)
      | _ => None
      end
  | _ => None
  end.

(** The captured groups that the successive [idPattern.exec(aiResponse)]
    return, until [null].  The global pattern is tried at each position
    from [lastIndex] on; after a match [lastIndex] is the end of the match,
    which [skip] counts down to. *)
Fixpoint execAll (s : string) (skip : nat) : list string :=
  match s with
  | EmptyString => []
  | String _ r =>
      match skip with
      | S k => execAll r k
      | O =>
          match matchIdTag s with
          | Some id => id :: execAll r (4 + String.length id)
          | None => execAll r 0
          end
      end
  end.

(** The body of the [while] loop. *)
Definition collectMention (mentionedIds : list string) (id : string) : list string :=
  if Js.arrIncludes mentionedIds id then mentionedIds else mentionedIds ++ [id].

Definition extractMentionedIds (aiResponse : string) : list string :=
  fold_left collectMention (execAll aiResponse 0) [].

(** The body of [mentionedIds.forEach]: [reordered] and [displayMap] are
    the two objects it updates. *)
Definition placeMentioned (allProductsMap : JsMap.t Display.t)
    (st : list Display.t * JsMap.t Display.t) (id : string)
  : list Display.t * JsMap.t Display.t :=
  let (reordered, displayMap) := st in
  let idStr := id in
  let product :=
    match JsMap.get idStr displayMap with
    | Some p => Some p
    | None => JsMap.get idStr allProductsMap
    end in
  match product with
  | Some p => (reordered ++ [p], JsMap.delete idStr displayMap)
  | None => (reordered, displayMap)
  end.

Definition keyed (ps : list Display.t) : list (string * Display.t) :=
  map (fun p => (String_ (Display.id p), p)) ps.

Definition reorderProductsByMention (aiResponse : string)
    (displayProducts allAvailableProducts : list Display.t) : list Display.t :=
  let mentionedIds := extractMentionedIds aiResponse in
  (* If no products were mentioned, return original order *)
  if length mentionedIds =? 0 then displayProducts
  else
    let displayMap := JsMap.ofEntries (keyed displayProducts) in
    let allProductsMap := JsMap.ofEntries (keyed allAvailableProducts) in
    let (reordered, displayMap) :=
      fold_left (placeMentioned allProductsMap) mentionedIds ([], displayMap) in
    (* Add remaining display products (up to 8 total) *)
    let remaining := JsMap.values displayMap in
    let slotsLeft := (8 - Z.of_nat (length reordered))%Z in
    if (0 <? slotsLeft)%Z
    then reordered ++ firstn (Z.to_nat slotsLeft) remaining
    else reordered.

Definition displayIds (ps : list Display.t) : list string :=
  map (fun p => String_ (Display.id p)) ps.

(** ** Outside calls, process state and the monad of [async] functions *)

Record Message : Type := { role : string; content : string }.

(** The body of a POST to the inference endpoint. *)
Record ModelRequest : Type := {
  model : string;
  messages : list Message;
  temperature : Q;
  max_tokens : N;
  stream : bool
}.

(** What [await fetch(...)] gives: a rejection, or a response with its
    [ok] flag, its status and its payload. *)
Inductive FetchOutcome (B : Type) : Type :=
| NetworkError
| Response (ok : bool) (status : N) (body : B).
Arguments NetworkError {B}.
Arguments Response {B}.

Inductive Event : Type :=
| EvCatalogFetch (keyword : string)
| EvModelFetch (request : ModelRequest)
| EvDateNow.

(** A thrown value. *)
Inductive Error : Type :=
| Error_ (message : string)
| FetchRejected
| JsonRejected.

Inductive Result (A : Type) : Type :=
| Ok (a : A)
| Throw (e : Error).
Arguments Ok {A}.
Arguments Throw {A}.

Record CacheEntry : Type := { data : list Product.t; timestamp : Z }.

(** The state of the process: the module-level [searchCache] and the calls
    made to the outside so far, oldest first. *)
Record World : Type := {
  searchCache : JsMap.t CacheEntry;
  log : list Event
}.

(** What the process does not decide: the prompt texts of [prompts.js]
    (pure functions of their arguments), [JSON.parse] read at the intent
    type ([None] when it throws), the environment variable, the clock and
    the two endpoints.  An endpoint or the clock answers as a function of
    the number of outside calls made before, so that two calls can be
    answered differently.

    Two kinds of run are outside these types: an intent answer that parses
    to a value other than an object of the intent shape ([null], on which
    the orchestrator throws a [TypeError]), and a success answer of the
    catalog whose body is not an array of product records (on which the
    merge loop throws).  What is proved holds for the other runs. *)
Record Env : Type := {
  SYSTEM_PROMPT : string;
  INTENT_SYSTEM_PROMPT : string;
  buildIntentExtractionPrompt : string -> string -> string;
  buildClarificationPrompt : string -> Intent.t -> string -> string;
  buildResponsePrompt : string -> list LLMProduct.t -> Intent.t -> string -> string;
  buildComparisonPrompt : list LLMProduct.t -> string -> string;
  JSON_parse : string -> option Intent.t;
  NVIDIA_NIM_API_KEY : option string;
  Date_now : nat -> Z;
  catalogEndpoint : nat -> string -> FetchOutcome (option (list Product.t));
  nimEndpoint : nat -> ModelRequest -> FetchOutcome (option (option string));
  nimStreamEndpoint : nat -> ModelRequest -> FetchOutcome (list string)
}.

Definition M (A : Type) : Type := World -> Result A * World.

Definition ret {A} (a : A) : M A := fun w => (Ok a, w).

Definition throw {A} (e : Error) : M A := fun w => (Throw e, w).

Definition bind {A B} (c : M A) (k : A -> M B) : M B :=
  fun w =>
    match c w with
    | (Ok a, w') => k a w'
    | (Throw e, w') => (Throw e, w')
    end.

Declare Scope js_scope.
Delimit Scope js_scope with js.
Notation "x <- c ;; k" := (bind c (fun x => k))
  (at level 100, c at next level, right associativity) : js_scope.
Notation "' p <- c ;; k" := (bind c (fun x => match x with p => k end))
  (at level 100, p pattern, c at next level, right associativity) : js_scope.
Open Scope js_scope.

(** The elements of an array handled by an [async] function, in order. *)
Fixpoint mapM {A B} (f : A -> M B) (l : list A) : M (list B) :=
  match l with
  | [] => ret []
  | a :: l' => b <- f a ;; bs <- mapM f l' ;; ret (b :: bs)
  end.

Definition emit (e : Event) : M unit :=
  fun w => (Ok tt, {| searchCache := searchCache w; log := log w ++ [e] |}).

Definition calls : M nat := fun w => (Ok (length (log w)), w).

Definition getCache : M (JsMap.t CacheEntry) := fun w => (Ok (searchCache w), w).

Definition putCache (c : JsMap.t CacheEntry) : M unit :=
  fun w => (Ok tt, {| searchCache := c; log := log w |}).

Section Pipeline.
Variable env : Env.

(** [Date.now()] *)
Definition now : M Z :=
  n <- calls ;; _ <- emit EvDateNow ;; ret (Date_now env n).

(** ** The catalog client (edibleApi.js) *)

Definition CACHE_TTL : Z := 5 * 60 * 1000.

(** [searchProducts] up to its [await fetch(...)]: it has answered
    already, or it has sent its request and waits. *)
Inductive Pending : Type :=
| Settled (result : list Product.t)
| Awaiting (cacheKey : string)
           (response : FetchOutcome (option (list Product.t))).

Definition searchProducts_start (keyword : string) : M Pending :=
  if (String.length keyword =? 0) || (String.length (Js.trim keyword) =? 0)
  then ret (Settled [])
  else
    let cacheKey := Js.trim (Js.toLowerCase keyword) in
    (* Check cache *)
    cache <- getCache ;;
    hit <-
      match JsMap.get cacheKey cache with
      | Some cached =>
          t <- now ;;
          if (t - timestamp cached <? CACHE_TTL)%Z then ret (Some (data cached))
          else _ <- putCache (JsMap.delete cacheKey cache) ;; ret None
      | None => ret None
      end ;;
    match hit with
    | Some d => ret (Settled d)
    | None =>
        n <- calls ;;
        _ <- emit (EvCatalogFetch cacheKey) ;;
        ret (Awaiting cacheKey (catalogEndpoint env n cacheKey))
    end.

(** [searchProducts] from the answer of the endpoint on; the [catch]
    turns a rejection of [fetch] or of [response.json()] into []. *)
Definition searchProducts_finish (p : Pending) : M (list Product.t) :=
  match p with
  | Settled result => ret result
  | Awaiting cacheKey NetworkError => ret []
  | Awaiting cacheKey (Response ok _ body) =>
      if negb ok then ret []
      else
        match body with
        | None => ret []
        | Some d =>
            (* Cache the result *)
            t <- now ;;
            cache <- getCache ;;
            _ <- putCache (JsMap.set cacheKey {| data := d; timestamp := t |} cache) ;;
            ret d
        end
  end.

Definition searchProducts (keyword : string) : M (list Product.t) :=
  p <- searchProducts_start keyword ;; searchProducts_finish p.

(** [Promise.all(keywords.map((kw) => searchProducts(kw)))]: every search
    runs to its [await] when [map] calls it, in keyword order; the
    answers are then taken in keyword order, one of the orders the event
    loop allows, and the result array is in keyword order in all of
    them. *)
Definition searchAll (keywords : list string) : M (list (list Product.t)) :=
  pending <- mapM searchProducts_start keywords ;;
  mapM searchProducts_finish pending.

Definition multiSearch (keywords : option (list string)) : M (list Product.t) :=
  match keywords with
  | None => ret []
  | Some kws =>
      if length kws =? 0 then ret []
      else results <- searchAll kws ;; ret (mergeResults results)
  end.

(** ** The model gateway (aiPipeline.js) *)

Definition MODEL_ID : string := "meta/llama-3.1-8b-instruct".

Definition statusText (status : N) : string :=
  NilZero.string_of_uint (N.to_uint status).

Definition callLLM (msgs : list Message) (temp : Q) (maxTokens : N) : M string :=
  if negb (Js.truthyStr (NVIDIA_NIM_API_KEY env))
  then throw (Error_ "NVIDIA_NIM_API_KEY is not set in environment variables")
  else
    let request :=
      {| model := MODEL_ID; messages := msgs; temperature := temp;
         max_tokens := maxTokens; stream := false |} in
    n <- calls ;;
    _ <- emit (EvModelFetch request) ;;
    match nimEndpoint env n request with
    | NetworkError => throw FetchRejected
    | Response ok status body =>
        if negb ok
        then throw (Error_ (String.append "NVIDIA NIM API error: " (statusText status)))
        else
          match body with
          | None => throw JsonRejected
          | Some c => ret (Js.orStr c EmptyString)
          end
    end.

Definition callLLMStream (msgs : list Message) (temp : Q) (maxTokens : N)
  : M (list string) :=
  if negb (Js.truthyStr (NVIDIA_NIM_API_KEY env))
  then throw (Error_ "NVIDIA_NIM_API_KEY is not set in environment variables")
  else
    let request :=
      {| model := MODEL_ID; messages := msgs; temperature := temp;
         max_tokens := maxTokens; stream := true |} in
    n <- calls ;;
    _ <- emit (EvModelFetch request) ;;
    match nimStreamEndpoint env n request with
    | NetworkError => throw FetchRejected
    | Response ok status body =>
        if negb ok
        then throw (Error_ (String.append "NVIDIA NIM API error: " (statusText status)))
        else ret body
    end.

(** ** Step 1: intent extraction *)

Definition newline : string := String "010" EmptyString.

(** [conversationHistory.slice(-6).map(...).join("\n")] *)
Definition historyText (conversationHistory : list Message) : string :=
  Js.join newline
    (map (fun m =>
            String.append
              (if String.eqb (role m) "user" then "Customer" else "Concierge")
              (String.append ": " (content m)))
         (Js.lastn 6 conversationHistory)).

(** One attempt of [/```json?\n?/] at the start of [s]: the length of the
    match. *)
Definition matchFenceOpen (s : string) : option nat :=
  match s with
  | String "`" (String "`" (String "`" (String "j" (String "s" (String "o" r))))) =>
      let (n1, r1) :=
        match r with
        | String "n" r' => (1, r')
        | _ => (0, r)
        end in
      let n2 := match r1 with String "010" _ => 1 | _ => 0 end in
      Some (6 + n1 + n2)
  | _ => None
  end.

(** One attempt of [/```/] at the start of [s]. *)
Definition matchFence (s : string) : option nat :=
  match s with
  | String "`" (String "`" (String "`" _)) => Some 3
  | _ => None
  end.

(** Removal of all the matches of a global pattern, left to right,
    [skip] counting down to the end of the current match. *)
Fixpoint removeMatches (pat : string -> option nat) (s : string) (skip : nat)
  : string :=
  match s with
  | EmptyString => EmptyString
  | String c r =>
      match skip with
      | S k => removeMatches pat r k
      | O =>
          match pat s with
          | Some (S n) => removeMatches pat r n
          | _ => String c (removeMatches pat r 0)
          end
      end
  end.

(** The text handed to [JSON.parse]. *)
Definition stripFences (result : string) : string :=
  let jsonStr := Js.trim result in
  if Js.startsWith jsonStr "```"
  then Js.trim (removeMatches matchFence (removeMatches matchFenceOpen jsonStr 0) 0)
  else jsonStr.

Definition fallbackIntent (userMessage : string) : Intent.t :=
  {| Intent.search_keywords :=
       Some [Js.join " " (firstn 3 (Js.split " " userMessage))];
     Intent.occasion := None;
     Intent.budget_min := None;
     Intent.budget_max := None;
     Intent.recipient := None;
     Intent.dietary_restrictions := Some [];
     Intent.urgency := None;
     Intent.product_type_preference := Some "any";
     Intent.intent_type := Some "browse";
     Intent.needs_clarification := false;
     Intent.clarification_topic := None;
     Intent.sentiment := Some "neutral" |}.

(** The [try] ... [catch] of [extractIntent]. *)
Definition parseIntent (result userMessage : string) : Intent.t :=
  match JSON_parse env (stripFences result) with
  | Some parsed => parsed
  | None => fallbackIntent userMessage
  end.

(** The messages [extractIntent] sends. *)
Definition intentMessages (userMessage : string) (conversationHistory : list Message)
  : list Message :=
  let contextSummary := historyText conversationHistory in
  let prompt := buildIntentExtractionPrompt env userMessage contextSummary in
  [ {| role := "system"; content := INTENT_SYSTEM_PROMPT env |};
    {| role := "user"; content := prompt |} ].

Definition extractIntent (userMessage : string) (conversationHistory : list Message)
  : M Intent.t :=
  result <- callLLM (intentMessages userMessage conversationHistory) 0%Q 512%N ;;
  ret (parseIntent result userMessage).

(** ** Step 2: search *)

(** [keywords.push] writes into the array of the intent when [keywords]
    is that array, so the intent comes back with the products. *)
Definition searchFromIntent (intent : Intent.t) : M (list Product.t * Intent.t) :=
  let keywords :=
    match Intent.search_keywords intent with
    | Some ks => ks
    | None => []
    end in
  (* Add occasion as a keyword if not already present *)
  let pushed :=
    match Intent.occasion intent with
    | Some o =>
        if Js.truthyStr (Some o) && negb (String.eqb o "null")
           && negb (Js.arrIncludes keywords o)
        then [Js.replaceFirst "_" " " o] else []
    | None => []
    end in
  let keywords := keywords ++ pushed in
  let intent :=
    match Intent.search_keywords intent with
    | Some _ =>
        {| Intent.search_keywords := Some keywords;
           Intent.occasion := Intent.occasion intent;
           Intent.budget_min := Intent.budget_min intent;
           Intent.budget_max := Intent.budget_max intent;
           Intent.recipient := Intent.recipient intent;
           Intent.dietary_restrictions := Intent.dietary_restrictions intent;
           Intent.urgency := Intent.urgency intent;
           Intent.product_type_preference := Intent.product_type_preference intent;
           Intent.intent_type := Intent.intent_type intent;
           Intent.needs_clarification := Intent.needs_clarification intent;
           Intent.clarification_topic := Intent.clarification_topic intent;
           Intent.sentiment := Intent.sentiment intent |}
    | None => intent
    end in
  (* Fallback keywords *)
  let keywords :=
    if length keywords =? 0 then ["popular gifts"; "best sellers"] else keywords in
  (* Cap at 3 keywords *)
  let keywords := firstn 3 keywords in
  products <- multiSearch (Some keywords) ;;
  ret (products, intent).

(** ** The orchestrator *)

Record PipelineResult : Type := {
  message : string;
  products : list Display.t;
  intent : Intent.t
}.

Record StreamResult : Type := {
  s_stream : list string;
  s_products : list Display.t;
  s_allAvailableProducts : option (list Display.t);
  s_intent : Intent.t
}.

Definition processMessage (userMessage : string) (conversationHistory : list Message)
  : M PipelineResult :=
  (* Step 1: Extract intent *)
  intent <- extractIntent userMessage conversationHistory ;;
  (* Step 1.5: ask for clarification instead of searching *)
  if Intent.needs_clarification intent then
    let historyStr := historyText conversationHistory in
    let clarificationPrompt :=
      buildClarificationPrompt env userMessage intent historyStr in
    clarificationResponse <-
      callLLM [ {| role := "system"; content := SYSTEM_PROMPT env |};
                {| role := "user"; content := clarificationPrompt |} ]
              (7 # 10)%Q 256%N ;;
    ret {| message := clarificationResponse; products := []; intent := intent |}
  else
    (* Step 2: Search products *)
    '(allProducts, intent) <- searchFromIntent intent ;;
    (* Step 3: Filter and rank *)
    let rankedProducts := filterAndRank allProducts intent in
    let topProducts := firstn 10 rankedProducts in
    let productsForLLM := map cleanProductForLLM topProducts in
    let displayProducts := map formatProductForDisplay (firstn 8 rankedProducts) in
    let allAvailableProducts := map formatProductForDisplay topProducts in
    (* Step 4: response generation *)
    let historyStr := historyText conversationHistory in
    let responsePrompt :=
      buildResponsePrompt env userMessage productsForLLM intent historyStr in
    aiResponse <-
      callLLM [ {| role := "system"; content := SYSTEM_PROMPT env |};
                {| role := "user"; content := responsePrompt |} ]
              (7 # 10)%Q 1024%N ;;
    let reorderedProducts :=
      reorderProductsByMention aiResponse displayProducts allAvailableProducts in
    ret {| message := aiResponse; products := reorderedProducts; intent := intent |}.

Definition processMessageStream (userMessage : string)
    (conversationHistory : list Message) : M StreamResult :=
  intent <- extractIntent userMessage conversationHistory ;;
  if Intent.needs_clarification intent then
    let historyStr := historyText conversationHistory in
    let clarificationPrompt :=
      buildClarificationPrompt env userMessage intent historyStr in
    stream <-
      callLLMStream [ {| role := "system"; content := SYSTEM_PROMPT env |};
                      {| role := "user"; content := clarificationPrompt |} ]
                    (7 # 10)%Q 256%N ;;
    ret {| s_stream := stream; s_products := [];
           s_allAvailableProducts := None; s_intent := intent |}
  else
    '(allProducts, intent) <- searchFromIntent intent ;;
    let rankedProducts := filterAndRank allProducts intent in
    let topProducts := firstn 10 rankedProducts in
    let productsForLLM := map cleanProductForLLM topProducts in
    let displayProducts := map formatProductForDisplay (firstn 8 rankedProducts) in
    let allAvailableProducts := map formatProductForDisplay topProducts in
    let historyStr := historyText conversationHistory in
    let responsePrompt :=
      buildResponsePrompt env userMessage productsForLLM intent historyStr in
    stream <-
      callLLMStream [ {| role := "system"; content := SYSTEM_PROMPT env |};
                      {| role := "user"; content := responsePrompt |} ]
                    (7 # 10)%Q 1024%N ;;
    ret {| s_stream := stream; s_products := displayProducts;
           s_allAvailableProducts := Some allAvailableProducts;
           s_intent := intent |}.

(** [compareProducts]; its result has the one field [message]. *)
Definition compareProducts (productIds : list JsId) (allProducts : list Product.t)
    (userContext : string) : M string :=
  let productsToCompare :=
    map cleanProductForLLM
        (filter (fun p => existsb (JsId_eqb (Product.id p)) productIds) allProducts) in
  if length productsToCompare <? 2
  then ret "Please select at least 2 products to compare."
  else
    let prompt := buildComparisonPrompt env productsToCompare userContext in
    response <-
      callLLM [ {| role := "system"; content := SYSTEM_PROMPT env |};
                {| role := "user"; content := prompt |} ]
              (1 # 2)%Q 1024%N ;;
    ret response.

End Pipeline.

(** * Reference definitions

    The behaviour as the specification words it, to be compared with the
    code above. *)

Module FilterSpec.

(** (1) keep products whose minPrice is present and at least the bound *)
Definition minBudgetStep (f : Filters.t) (ps : list Product.t) : list Product.t :=
  match Filters.minBudget f with
  | Some bound =>
      filter (fun p => match Product.minPrice p with
                       | Some price => Qle_bool bound price
                       | None => false
                       end) ps
  | None => ps
  end.

(** (2) keep products whose minPrice is present and at most the bound *)
Definition maxBudgetStep (f : Filters.t) (ps : list Product.t) : list Product.t :=
  match Filters.maxBudget f with
  | Some bound =>
      filter (fun p => match Product.minPrice p with
                       | Some price => Qle_bool price bound
                       | None => false
                       end) ps
  | None => ps
  end.

(** The occasion asked for, when there is one. *)
Definition requestedOccasion (f : Filters.t) : option string :=
  match Filters.occasion f with
  | Some EmptyString | None => None
  | Some o => Some o
  end.

(** Case-insensitive substring match against the occasion field. *)
Definition occasionMatches (target : string) (p : Product.t) : bool :=
  match Product.occasion p with
  | Some o => Js.includes (Js.toLowerCase o) (Js.toLowerCase target)
  | None => false
  end.

(** (3) the occasion match, skipped when it would eliminate every
    remaining product *)
Definition occasionStep (f : Filters.t) (ps : list Product.t) : list Product.t :=
  match requestedOccasion f with
  | Some target =>
      match filter (occasionMatches target) ps with
      | [] => ps
      | kept => kept
      end
  | None => ps
  end.

(** (4) drop any product whose ingredient text case-insensitively
    contains an excluded term *)
Definition containsExcluded (terms : list string) (p : Product.t) : bool :=
  existsb (fun term =>
             Js.includes
               (Js.toLowerCase
                  (match Product.ingrediantNames p with
                   | Some text => text
                   | None => EmptyString
                   end))
               (Js.toLowerCase term)) terms.

Definition dietaryStep (f : Filters.t) (ps : list Product.t) : list Product.t :=
  match Filters.excludeIngredients f with
  | Some terms => filter (fun p => negb (containsExcluded terms p)) ps
  | None => ps
  end.

(** (5) when requested, keep only the products flagged one-hour-capable *)
Definition urgentStep (f : Filters.t) (ps : list Product.t) : list Product.t :=
  if Filters.urgentDelivery f then filter Product.isOneHourDelivery ps else ps.

End FilterSpec.

Module SearchSpec.

(** The products of a sequence whose identifier does not occur earlier:
    [earlier] holds what came before [ps]. *)
Fixpoint firstSeen (earlier ps : list Product.t) : list Product.t :=
  match ps with
  | [] => []
  | p :: rest =>
      if existsb (fun q => JsId_eqb (Product.id q) (Product.id p)) earlier
      then firstSeen (earlier ++ [p]) rest
      else p :: firstSeen (earlier ++ [p]) rest
  end.

(** A keyword of white space only (the empty keyword included). *)
Fixpoint whitespaceOnly (keyword : string) : bool :=
  match keyword with
  | EmptyString => true
  | String c rest => Js.isWhiteSpace c && whitespaceOnly rest
  end.

(** The answer of the endpoint is a failure: the transport failed, or the
    status is not a success. *)
Definition failed {B} (response : FetchOutcome B) : Prop :=
  match response with
  | NetworkError => True
  | Response ok _ _ => ok = false
  end.

End SearchSpec.

(** The catalog requests of a log. *)
Definition catalogFetches (l : list Event) : list Event :=
  filter (fun e => match e with EvCatalogFetch _ => true | _ => false end) l.

(** The model requests of a log. *)
Definition modelFetches (l : list Event) : list Event :=
  filter (fun e => match e with EvModelFetch _ => true | _ => false end) l.

Module MentionSpec.

(** The tags of a sequence that do not occur earlier in it: every
    identifier once, at its first mention. *)
Fixpoint firstMentions (earlier tags : list string) : list string :=
  match tags with
  | [] => []
  | t :: rest =>
      if existsb (String.eqb t) earlier
      then firstMentions (earlier ++ [t]) rest
      else t :: firstMentions (earlier ++ [t]) rest
  end.

(** The identifier keys a product of the list. *)
Definition listed (id : string) (ps : list Display.t) : Prop :=
  In id (displayIds ps).

(** Where a mentioned identifier is taken from: the nominal list if it is
    there, else the broader list, else nowhere. *)
Definition resolves (nominal broader : list Display.t) (id : string)
    (o : option Display.t) : Prop :=
  match o with
  | Some p =>
      String_ (Display.id p) = id
      /\ (In p nominal \/ (~ listed id nominal /\ In p broader))
  | None => ~ listed id nominal /\ ~ listed id broader
  end.

(** The products found, in order; what was found nowhere is dropped. *)
Fixpoint found (os : list (option Display.t)) : list Display.t :=
  match os with
  | [] => []
  | Some p :: rest => p :: found rest
  | None :: rest => found rest
  end.

(** The nominal products that are not mentioned, in their order. *)
Definition leftover (mentioned : list string) (nominal : list Display.t)
  : list Display.t :=
  filter (fun p => negb (existsb (String.eqb (String_ (Display.id p))) mentioned))
         nominal.

End MentionSpec.

(** Every identifier of the list is a string or a number that JavaScript
    prints exactly. *)
Definition safeIds (ps : list Display.t) : Prop :=
  Forall (fun p => safeId (Display.id p)) ps.

(** The lookup of [mentionedIds.forEach]: the display map, then the map of
    all the available products. *)
Definition lookupMentioned (displayMap allProductsMap : JsMap.t Display.t)
    (id : string) : option Display.t :=
  match JsMap.get id displayMap with
  | Some p => Some p
  | None => JsMap.get id allProductsMap
  end.

(** * Sample data *)

Module Sample.

Definition product (i : N) (label : string) : Product.t :=
  {| Product.id := IdNum i;
     Product.name := label;
     Product.description := Some "<p>Fresh fruit</p>";
     Product.image := None;
     Product.thumbnail := None;
     Product.minPrice := Some (inject_Z (Z.of_N i));
     Product.maxPrice := None;
     Product.url := "fruit";
     Product.occasion := Some "Birthday, Get Well";
     Product.category := None;
     Product.ingrediantNames := Some "Strawberry, Chocolate";
     Product.sizeCount := None;
     Product.isOneHourDelivery := false;
     Product.productImageTag := None;
     Product.nonPromo := None;
     Product.promo := None;
     Product.isMinSizeOnSale := false;
     Product.minsizeProductPrice := None;
     Product.allergyinformation := None;
     Product.catalogCode := None;
     Product.search_score := None |}.

Definition shown (i : N) (label : string) : Display.t :=
  formatProductForDisplay (product i label).

Definition nominal : list Display.t :=
  map (fun i => shown i "item") [10; 20; 30; 40; 50; 60; 70; 80]%N.

Definition broader : list Display.t :=
  nominal ++ [shown 55 "item"; shown 90 "item"].

Definition catalog : list Product.t :=
  map (fun i => product i "item") [1; 2; 3; 4; 5; 6; 7; 8; 9; 10]%N.

Definition intent : Intent.t :=
  {| Intent.search_keywords := Some ["birthday"];
     Intent.occasion := Some "birthday";
     Intent.budget_min := None;
     Intent.budget_max := None;
     Intent.recipient := Some "mom";
     Intent.dietary_restrictions := Some [];
     Intent.urgency := None;
     Intent.product_type_preference := Some "any";
     Intent.intent_type := Some "specific_search";
     Intent.needs_clarification := false;
     Intent.clarification_topic := None;
     Intent.sentiment := Some "neutral" |}.

Definition vague : Intent.t :=
  {| Intent.search_keywords := Some [];
     Intent.occasion := None;
     Intent.budget_min := None;
     Intent.budget_max := None;
     Intent.recipient := None;
     Intent.dietary_restrictions := Some [];
     Intent.urgency := None;
     Intent.product_type_preference := Some "any";
     Intent.intent_type := Some "greeting";
     Intent.needs_clarification := true;
     Intent.clarification_topic := Some "occasion";
     Intent.sentiment := Some "neutral" |}.

(** A model that answers the intent request with a fenced object for a
    message about a birthday, with a vague intent for "hi" and with prose
    otherwise; and that answers every other request with [reply]. *)
Definition modelAnswer (reply : string) (request : ModelRequest) : string :=
  match messages request with
  | sys :: user :: _ =>
      if String.eqb (content sys) "intent" then
        if Js.includes (content user) "birthday"
        then String.append "```json" (String.append newline "{birthday}```")
        else if String.eqb (content user) "hi" then "{vague}"
        else "Sure, I can help with that!"
      else reply
  | _ => EmptyString
  end.

(** An environment around that model; [answer] is what the catalog
    endpoint gives to every request. *)
Definition env (answer : FetchOutcome (option (list Product.t))) (reply : string)
  : Env :=
  {| SYSTEM_PROMPT := "system";
     INTENT_SYSTEM_PROMPT := "intent";
     buildIntentExtractionPrompt := fun userMessage _ => userMessage;
     buildClarificationPrompt := fun userMessage _ _ => userMessage;
     buildResponsePrompt := fun userMessage _ _ _ => userMessage;
     buildComparisonPrompt := fun _ userContext => userContext;
     JSON_parse := fun s =>
       if String.eqb s "{birthday}" then Some intent
       else if String.eqb s "{vague}" then Some vague
       else None;
     NVIDIA_NIM_API_KEY := Some "key";
     Date_now := fun n => (1000 * Z.of_nat n)%Z;
     catalogEndpoint := fun _ _ => answer;
     nimEndpoint := fun _ request =>
       Response true 200 (Some (Some (modelAnswer reply request)));
     nimStreamEndpoint := fun _ request =>
       Response true 200 [modelAnswer reply request] |}.

(** A reply that tags all ten products the model can be shown. *)
Definition tenTags : string :=
  "[ID:1] [ID:2] [ID:3] [ID:4] [ID:5] [ID:6] [ID:7] [ID:8] [ID:9] [ID:10]".

Definition online : Env := env (Response true 200 (Some catalog)) tenTags.
Definition offline : Env := env NetworkError tenTags.

(** A catalog that sends the identifier 1 once as a number and once as a
    string: two identifiers for [multiSearch], one key for the
    reconciliation. *)
Definition mixedCatalog : list Product.t :=
  [ product 1 "first";
    {| Product.id := IdStr "1";
       Product.name := "second";
       Product.description := None;
       Product.image := None;
       Product.thumbnail := None;
       Product.minPrice := Some 1%Q;
       Product.maxPrice := None;
       Product.url := "fruit";
       Product.occasion := Some "Birthday";
       Product.category := None;
       Product.ingrediantNames := None;
       Product.sizeCount := None;
       Product.isOneHourDelivery := false;
       Product.productImageTag := None;
       Product.nonPromo := None;
       Product.promo := None;
       Product.isMinSizeOnSale := false;
       Product.minsizeProductPrice := None;
       Product.allergyinformation := None;
       Product.catalogCode := None;
       Product.search_score := None |};
    product 2 "third" ].

Definition mixed : Env := env (Response true 200 (Some mixedCatalog)) "[ID:2]".

(** A process that has done nothing yet. *)
Definition start : World := {| searchCache := []; log := [] |}.

End Sample.

(** * Auxiliary definitions for the proofs *)

(** The shape of [filterProducts]: a filter, the occasion match with its
    fallback, a filter. *)
Definition withFallback {A} (occ : option (A -> bool)) (l : list A) : list A :=
  match occ with
  | Some o => match filter o l with [] => l | kept => kept end
  | None => l
  end.

Definition shaped {A} (before after : A -> bool) (occ : option (A -> bool))
    (l : list A) : list A :=
  filter after (withFallback occ (filter before l)).

Definition budgetTest (f : Filters.t) (p : Product.t) : bool :=
  match Filters.minBudget f with Some b => minBudgetOk b p | None => true end
  && match Filters.maxBudget f with Some b => maxBudgetOk b p | None => true end.

Definition occasionTest (f : Filters.t) : option (Product.t -> bool) :=
  match Filters.occasion f with
  | Some o => if Js.truthyStr (Some o) then Some (occasionOk (Js.toLowerCase o)) else None
  | None => None
  end.

Definition laterTest (f : Filters.t) (p : Product.t) : bool :=
  match Filters.excludeIngredients f with
  | Some excl => if 0 <? length excl then ingredientsOk excl p else true
  | None => true
  end
  && (if Filters.urgentDelivery f then Product.isOneHourDelivery p else true).

(** A computation that returns on every state. *)
Definition neverThrows {A} (c : M A) : Prop :=
  forall w, exists a w', c w = (Ok a, w').

(** One step of [new Map(entries)]. *)
Definition setEntry {V} (m : JsMap.t V) (e : string * V) : JsMap.t V :=
  JsMap.set (fst e) (snd e) m.

(** A string of decimal digits. *)
Fixpoint allDigits (s : string) : bool :=
  match s with
  | EmptyString => true
  | String c rest => isDigit c && allDigits rest
  end.

(** * Reference definitions for the further properties *)

Module RankSpec.

(** [a] may stand before [b]: it has the Top Seller tag and [b] has not,
    or they agree on the tag and the score of [a] is not below the one of
    [b]. *)
Definition ranksBefore (a b : Product.t) : Prop :=
  (topSeller a < topSeller b)%Z
  \/ (topSeller a = topSeller b /\ (scoreOrZero b <= scoreOrZero a)%Q).

(** The same tag status and the same score. *)
Definition sameRank (a b : Product.t) : bool :=
  Z.eqb (topSeller a) (topSeller b) && Qeq_bool (scoreOrZero a) (scoreOrZero b).

End RankSpec.

(** The tag that [buildResponsePrompt] and [buildComparisonPrompt]
    (prompts.js) write after the name of a product:
    the template text [[ID:${p.id}]]. *)
Definition idTag (i : JsId) : string :=
  String.append "[ID:" (String.append (String_ i) "]").

(** A computation that adds at most [c] catalog requests and at most [m]
    model requests to the log, whatever the state it starts in. *)
Definition spends {A} (comp : M A) (c m : nat) : Prop :=
  forall w,
    length (catalogFetches (log (snd (comp w))))
      <= length (catalogFetches (log w)) + c
    /\ length (modelFetches (log (snd (comp w))))
       <= length (modelFetches (log w)) + m.

(** The thrown value when the key of the inference service is not set. *)
Definition missingKey : Error :=
  Error_ "NVIDIA_NIM_API_KEY is not set in environment variables".

(** An inference service that answers every request with a success status
    and a body that parses. *)
Definition modelAnswers (env : Env) : Prop :=
  Js.truthyStr (NVIDIA_NIM_API_KEY env) = true
  /\ (forall n request,
        exists status body, nimEndpoint env n request = Response true status (Some body)).

(** A text in which [/<[^>]*>/] finds a match: a [<] with a [>] somewhere
    after it. *)
Fixpoint hasTag (s : string) : bool :=
  match s with
  | EmptyString => false
  | String c rest => (Ascii.eqb c "<" && hasChar ">" rest) || hasTag rest
  end.

(** An answer of the model wrapped in a code fence, with or without the
    language name after the opening fence. *)
Definition fenced (withName : bool) (body : string) : string :=
  String.append (if withName then "```json" else "```")
    (String.append newline (String.append body (String.append newline "```"))).

Module SampleRun.

(** The sample environment without the key of the inference service. *)
Definition keyless : Env :=
  {| SYSTEM_PROMPT := SYSTEM_PROMPT Sample.online;
     INTENT_SYSTEM_PROMPT := INTENT_SYSTEM_PROMPT Sample.online;
     buildIntentExtractionPrompt := buildIntentExtractionPrompt Sample.online;
     buildClarificationPrompt := buildClarificationPrompt Sample.online;
     buildResponsePrompt := buildResponsePrompt Sample.online;
     buildComparisonPrompt := buildComparisonPrompt Sample.online;
     JSON_parse := JSON_parse Sample.online;
     NVIDIA_NIM_API_KEY := None;
     Date_now := Date_now Sample.online;
     catalogEndpoint := catalogEndpoint Sample.online;
     nimEndpoint := nimEndpoint Sample.online;
     nimStreamEndpoint := nimStreamEndpoint Sample.online |}.

(** A process that stored the sample catalog under "birthday" at the time
    [t]. *)
Definition remembering (t : Z) : World :=
  {| searchCache := [("birthday", {| data := Sample.catalog; timestamp := t |})];
     log := [] |}.

Definition turn (who text : string) : Message := {| role := who; content := text |}.

Definition lastSix : list Message :=
  [ turn "user" "hello"; turn "assistant" "Hi! Who is the gift for?";
    turn "user" "my mom"; turn "assistant" "What is the occasion?";
    turn "user" "her birthday"; turn "assistant" "Any budget?" ].

Definition before : list Message :=
  [ turn "user" "is anyone there"; turn "assistant" "Yes!" ].

End SampleRun.

Module MessageSpec.

(** The message up to its [n+1]-th space, that space left out. *)
Fixpoint beforeSpace (n : nat) (s : string) : string :=
  match s with
  | EmptyString => EmptyString
  | String c rest =>
      if Ascii.eqb c " "
      then match n with
           | O => EmptyString
           | S k => String c (beforeSpace k rest)
           end
      else String c (beforeSpace n rest)
  end.

(** The words of a message: its longest stretches without a space. *)
Fixpoint words (s : string) : list string :=
  match s with
  | EmptyString => []
  | String c rest =>
      if Ascii.eqb c " " then words rest
      else
        match rest with
        | EmptyString => [String c EmptyString]
        | String d _ =>
            if Ascii.eqb d " " then String c EmptyString :: words rest
            else
              match words rest with
              | w :: ws => String c w :: ws
              | [] => [String c EmptyString]
              end
        end
  end.

(** A message typed with one space between its words: it is not empty,
    starts with no space, and every space in it is followed by a character
    that is no space. *)
Fixpoint spacedOnce (s : string) : bool :=
  match s with
  | EmptyString => false
  | String c rest =>
      negb (Ascii.eqb c " ")
      && match rest with
         | EmptyString => true
         | String d rest' => if Ascii.eqb d " " then spacedOnce rest' else spacedOnce rest
         end
  end.

End MessageSpec.

(** A catalog that cannot be used: every request fails in transport or
    gets a status that is no success. *)
Definition catalogDown (env : Env) : Prop :=
  forall n keyword, SearchSpec.failed (catalogEndpoint env n keyword).

(** A search that has answered with nothing, or waits for an answer that is
    a failure. *)
Definition downPending (p : Pending) : Prop :=
  match p with
  | Settled result => result = []
  | Awaiting _ response => SearchSpec.failed response
  end.

(** The request [extractIntent] sends for a message. *)
Definition intentRequest (env : Env) (userMessage : string)
    (conversationHistory : list Message) : ModelRequest :=
  {| model := MODEL_ID;
     messages := intentMessages env userMessage conversationHistory;
     temperature := 0%Q;
     max_tokens := 512%N;
     stream := false |}.

(** [JSON.parse] throws on what the inference service answers to the intent
    request of a message, fences stripped. *)
Definition intentAnswerIsProse (env : Env) (userMessage : string)
    (conversationHistory : list Message) : Prop :=
  forall n status body,
    nimEndpoint env n (intentRequest env userMessage conversationHistory)
      = Response true status (Some body) ->
    JSON_parse env (stripFences (Js.orStr body EmptyString)) = None.

(** * Properties *)

(** ** Lists and filters *)

Lemma filter_all {A} (f : A -> bool) (l : list A) :
  forallb f l = true -> filter f l = l.
Proof.
  induction l as [|a l IH]; simpl; intros H; [reflexivity|].
  apply andb_true_iff in H as [Ha Hl]. rewrite Ha, IH; auto.
Qed.

Lemma forallb_filter_self {A} (f : A -> bool) (l : list A) :
  forallb f (filter f l) = true.
Proof.
  induction l as [|a l IH]; simpl; [reflexivity|].
  destruct (f a) eqn:E; simpl; [rewrite E|]; auto.
Qed.

Lemma forallb_filter_keeps {A} (f g : A -> bool) (l : list A) :
  forallb f l = true -> forallb f (filter g l) = true.
Proof.
  induction l as [|a l IH]; simpl; intros H; [reflexivity|].
  apply andb_true_iff in H as [Ha Hl].
  destruct (g a); simpl; [rewrite Ha|]; auto.
Qed.

Lemma filter_swap {A} (f g : A -> bool) (l : list A) :
  filter f (filter g l) = filter g (filter f l).
Proof.
  induction l as [|a l IH]; simpl; [reflexivity|].
  destruct (g a) eqn:Eg, (f a) eqn:Ef; simpl; rewrite ?Eg, ?Ef, IH; reflexivity.
Qed.

Lemma filter_ext_eq {A} (f g : A -> bool) (l : list A) :
  (forall a, f a = g a) -> filter f l = filter g l.
Proof.
  intros H. induction l as [|a l IH]; simpl; [reflexivity|].
  rewrite H, IH. reflexivity.
Qed.

Lemma length_zero_nil {A} (l : list A) : (length l =? 0) = true <-> l = [].
Proof.
  destruct l; simpl; split; intros H; try reflexivity; discriminate.
Qed.

(** ** [filterProducts] against the five steps of the specification *)

Lemma includes_empty (t : string) : t <> EmptyString -> Js.includes EmptyString t = false.
Proof. destruct t; [congruence | reflexivity]. Qed.

Lemma toLowerCase_nonempty (s : string) :
  s <> EmptyString -> Js.toLowerCase s <> EmptyString.
Proof. destruct s; [congruence | discriminate]. Qed.

Lemma orStr_empty (o : option string) :
  Js.orStr o EmptyString = match o with Some s => s | None => EmptyString end.
Proof. destruct o as [[|c s]|]; reflexivity. Qed.

Lemma occasionOk_matches (target : string) (p : Product.t) :
  target <> EmptyString ->
  occasionOk (Js.toLowerCase target) p = FilterSpec.occasionMatches target p.
Proof.
  intros Ht. unfold occasionOk, FilterSpec.occasionMatches.
  destruct (Product.occasion p) as [[|c o]|]; try reflexivity.
  simpl Js.truthyStr. simpl andb.
  symmetry. apply includes_empty. now apply toLowerCase_nonempty.
Qed.

Lemma ingredientsOk_excluded (terms : list string) (p : Product.t) :
  ingredientsOk terms p = negb (FilterSpec.containsExcluded terms p).
Proof.
  unfold ingredientsOk, FilterSpec.containsExcluded. now rewrite orStr_empty.
Qed.

Lemma occasion_block_step (f : Filters.t) (ps : list Product.t) :
  match Filters.occasion f with
  | Some o =>
      if Js.truthyStr (Some o)
      then if length (filter (occasionOk (Js.toLowerCase o)) ps) =? 0
           then ps else filter (occasionOk (Js.toLowerCase o)) ps
      else ps
  | None => ps
  end = FilterSpec.occasionStep f ps.
Proof.
  unfold FilterSpec.occasionStep, FilterSpec.requestedOccasion.
  destruct (Filters.occasion f) as [[|c o]|]; try reflexivity.
  simpl Js.truthyStr. cbv iota.
  rewrite (filter_ext_eq _ (FilterSpec.occasionMatches (String c o)))
    by (intros a; apply occasionOk_matches; discriminate).
  destruct (filter _ ps); reflexivity.
Qed.

Lemma dietary_block_step (f : Filters.t) (ps : list Product.t) :
  match Filters.excludeIngredients f with
  | Some excl => if 0 <? length excl then filter (ingredientsOk excl) ps else ps
  | None => ps
  end = FilterSpec.dietaryStep f ps.
Proof.
  unfold FilterSpec.dietaryStep.
  destruct (Filters.excludeIngredients f) as [[|t terms]|]; try reflexivity.
  - simpl. symmetry. apply filter_all. now induction ps.
  - cbn [length Nat.ltb Nat.leb].
    apply filter_ext_eq. intros a. apply ingredientsOk_excluded.
Qed.

Lemma filterProducts_steps (ps : list Product.t) (f : Filters.t) :
  filterProducts ps f =
  FilterSpec.urgentStep f
    (FilterSpec.dietaryStep f
       (FilterSpec.occasionStep f
          (FilterSpec.maxBudgetStep f (FilterSpec.minBudgetStep f ps)))).
Proof.
  unfold filterProducts. cbv zeta.
  rewrite occasion_block_step, dietary_block_step.
  reflexivity.
Qed.

Lemma occasionStep_fallback (f : Filters.t) (target : string) (ps : list Product.t) :
  FilterSpec.requestedOccasion f = Some target ->
  filter (FilterSpec.occasionMatches target) ps = [] ->
  FilterSpec.occasionStep f ps = ps.
Proof.
  intros Hreq Hnone. unfold FilterSpec.occasionStep. now rewrite Hreq, Hnone.
Qed.

Lemma occasionStep_nonempty (f : Filters.t) (ps : list Product.t) :
  ps <> [] -> FilterSpec.occasionStep f ps <> [].
Proof.
  intros Hps. unfold FilterSpec.occasionStep.
  destruct (FilterSpec.requestedOccasion f); [|assumption].
  destruct (filter _ ps) eqn:E; [assumption | discriminate].
Qed.

(** C4. [filterProducts] runs the five filters in the order minBudget,
    maxBudget, occasion, dietary exclusion, urgent delivery, each on the
    output of the one before; an occasion match that would leave nothing of
    the budget-filtered set is skipped and that set is kept; so the
    occasion step never empties a non-empty budget-filtered set, and with
    no later filter asked for the result itself is not empty. *)
Theorem filterProducts_order_and_occasion_fallback :
  forall (ps : list Product.t) (f : Filters.t),
    let budgetFiltered :=
      FilterSpec.maxBudgetStep f (FilterSpec.minBudgetStep f ps) in
    filterProducts ps f =
      FilterSpec.urgentStep f
        (FilterSpec.dietaryStep f (FilterSpec.occasionStep f budgetFiltered))
    /\ (forall target,
          FilterSpec.requestedOccasion f = Some target ->
          filter (FilterSpec.occasionMatches target) budgetFiltered = [] ->
          FilterSpec.occasionStep f budgetFiltered = budgetFiltered)
    /\ (budgetFiltered <> [] -> FilterSpec.occasionStep f budgetFiltered <> [])
    /\ (budgetFiltered <> [] ->
        Filters.excludeIngredients f = None ->
        Filters.urgentDelivery f = false ->
        filterProducts ps f <> []).
Proof.
  intros ps f budgetFiltered. repeat split.
  - apply filterProducts_steps.
  - intros target. apply occasionStep_fallback.
  - apply occasionStep_nonempty.
  - intros Hne Hd Hu. rewrite filterProducts_steps.
    unfold FilterSpec.urgentStep, FilterSpec.dietaryStep. rewrite Hd, Hu.
    now apply occasionStep_nonempty.
Qed.

(** ** Idempotence of [filterProducts] *)

Section FilterShape.
Variable A : Type.
Variables before after : A -> bool.

Lemma shaped_before occ l : forallb before (shaped before after occ l) = true.
Proof.
  unfold shaped, withFallback. apply forallb_filter_keeps.
  destruct occ as [o|]; [|apply forallb_filter_self].
  destruct (filter o (filter before l)) eqn:E.
  - apply forallb_filter_self.
  - rewrite <- E. apply forallb_filter_keeps, forallb_filter_self.
Qed.

Lemma withFallback_shaped occ l : withFallback occ (shaped before after occ l) = shaped before after occ l.
Proof.
  unfold shaped, withFallback.
  destruct occ as [o|]; [|reflexivity].
  destruct (filter o (filter before l)) eqn:E.
  - (* the fallback was taken: no product of the result matches *)
    rewrite filter_swap, E. reflexivity.
  - (* the match was kept: every product of the result matches *)
    rewrite <- E.
    rewrite (filter_all o (filter after (filter o (filter before l)))).
    + now destruct (filter after _).
    + apply forallb_filter_keeps, forallb_filter_self.
Qed.

Lemma shaped_idempotent occ l : shaped before after occ (shaped before after occ l) = shaped before after occ l.
Proof.
  unfold shaped at 1.
  rewrite (filter_all before) by apply shaped_before.
  rewrite withFallback_shaped.
  apply filter_all. unfold shaped. apply forallb_filter_self.
Qed.
End FilterShape.

Lemma filter_true {A} (l : list A) : filter (fun _ => true) l = l.
Proof. apply filter_all. now induction l. Qed.

Lemma filter_both {A} (f g : A -> bool) (l : list A) :
  filter g (filter f l) = filter (fun a => f a && g a) l.
Proof.
  induction l as [|a l IH]; simpl; [reflexivity|].
  destruct (f a); simpl; [destruct (g a)|]; now rewrite IH.
Qed.

Lemma filterProducts_shaped (ps : list Product.t) (f : Filters.t) :
  filterProducts ps f = shaped (budgetTest f) (laterTest f) (occasionTest f) ps.
Proof.
  unfold filterProducts, shaped, withFallback, budgetTest, laterTest, occasionTest.
  cbv zeta.
  assert (Hb : match Filters.maxBudget f with
               | Some b => filter (maxBudgetOk b)
                             match Filters.minBudget f with
                             | Some b0 => filter (minBudgetOk b0) ps
                             | None => ps
                             end
               | None => match Filters.minBudget f with
                         | Some b0 => filter (minBudgetOk b0) ps
                         | None => ps
                         end
               end
               = filter (fun p =>
                   match Filters.minBudget f with Some b => minBudgetOk b p | None => true end
                   && match Filters.maxBudget f with Some b => maxBudgetOk b p | None => true end) ps).
  { destruct (Filters.minBudget f), (Filters.maxBudget f); simpl.
    - apply filter_both.
    - apply filter_ext_eq. intros a. now rewrite andb_true_r.
    - reflexivity.
    - symmetry. apply filter_true. }
  rewrite Hb. clear Hb.
  set (B := filter _ ps).
  set (O := match Filters.occasion f with
            | Some o =>
                if Js.truthyStr (Some o)
                then if length (filter (occasionOk (Js.toLowerCase o)) B) =? 0
                     then B else filter (occasionOk (Js.toLowerCase o)) B
                else B
            | None => B
            end).
  assert (HO : O = match
                     match Filters.occasion f with
                     | Some o => if Js.truthyStr (Some o)
                                 then Some (occasionOk (Js.toLowerCase o)) else None
                     | None => None
                     end
                   with
                   | Some o => match filter o B with [] => B | kept => kept end
                   | None => B
                   end).
  { unfold O. destruct (Filters.occasion f) as [o|]; [|reflexivity].
    destruct (Js.truthyStr (Some o)); [|reflexivity].
    now destruct (filter _ B). }
  rewrite <- HO. clearbody O. clear HO.
  destruct (Filters.excludeIngredients f) as [excl|], (Filters.urgentDelivery f); simpl.
  - destruct (0 <? length excl).
    + apply filter_both.
    + reflexivity.
  - destruct (0 <? length excl).
    + apply filter_ext_eq. intros a. now rewrite andb_true_r.
    + symmetry. apply filter_true.
  - reflexivity.
  - symmetry. apply filter_true.
Qed.

(** C8. [filterProducts] is idempotent: filtering its own output with the
    same filter set changes nothing, the occasion fallback included. *)
Theorem filterProducts_idempotent :
  forall (ps : list Product.t) (f : Filters.t),
    filterProducts (filterProducts ps f) f = filterProducts ps f.
Proof.
  intros ps f. rewrite !filterProducts_shaped. apply shaped_idempotent.
Qed.

(** ** [multiSearch]: merging without duplicates, in first-seen order *)

Lemma JsId_eqb_eq (a b : JsId) : JsId_eqb a b = true <-> a = b.
Proof.
  destruct a, b; simpl; split; intros H; try discriminate.
  - apply N.eqb_eq in H. now subst.
  - injection H as ->. apply N.eqb_refl.
  - apply String.eqb_eq in H. now subst.
  - injection H as ->. apply String.eqb_refl.
Qed.

Lemma seen_iff_In (i : JsId) (seen : list JsId) :
  existsb (JsId_eqb i) seen = true <-> In i seen.
Proof.
  rewrite existsb_exists. split.
  - intros [x [Hx E]]. apply JsId_eqb_eq in E. now subst.
  - intros H. exists i. split; [assumption | now apply JsId_eqb_eq].
Qed.

Lemma earlier_iff_In (i : JsId) (earlier : list Product.t) :
  existsb (fun q => JsId_eqb (Product.id q) i) earlier = true
  <-> In i (map Product.id earlier).
Proof.
  rewrite existsb_exists, in_map_iff. split.
  - intros [q [Hq E]]. apply JsId_eqb_eq in E. eauto.
  - intros [q [E Hq]]. exists q. split; [assumption | now apply JsId_eqb_eq].
Qed.

Lemma merge_loop_firstSeen (ps earlier merged : list Product.t) :
  (forall i, In i (map Product.id merged) <-> In i (map Product.id earlier)) ->
  fold_left mergeStep ps (map Product.id merged, merged) =
  (map Product.id (merged ++ SearchSpec.firstSeen earlier ps),
   merged ++ SearchSpec.firstSeen earlier ps).
Proof.
  revert earlier merged.
  induction ps as [|p ps IH]; intros earlier merged Hsame; simpl.
  - now rewrite app_nil_r.
  - destruct (existsb (JsId_eqb (Product.id p)) (map Product.id merged)) eqn:Eseen;
      destruct (existsb (fun q => JsId_eqb (Product.id q) (Product.id p)) earlier) eqn:Eearlier.
    + apply IH. intros i. rewrite Hsame, !map_app, in_app_iff. simpl.
      apply earlier_iff_In in Eearlier. intuition (subst; auto).
    + apply seen_iff_In, Hsame, earlier_iff_In in Eseen. congruence.
    + apply earlier_iff_In, Hsame, seen_iff_In in Eearlier. congruence.
    + replace (map Product.id merged ++ [Product.id p])
        with (map Product.id (merged ++ [p])) by (now rewrite map_app).
      rewrite (IH (earlier ++ [p]) (merged ++ [p])).
      * now rewrite <- !app_assoc.
      * intros i. rewrite !map_app, !in_app_iff, Hsame. reflexivity.
Qed.

Lemma merge_loops_concat (results : list (list Product.t)) st :
  fold_left (fun st resultSet => fold_left mergeStep resultSet st) results st =
  fold_left mergeStep (concat results) st.
Proof.
  revert st. induction results as [|r rs IH]; intros st; simpl; [reflexivity|].
  now rewrite IH, fold_left_app.
Qed.

Lemma mergeResults_firstSeen (results : list (list Product.t)) :
  mergeResults results = SearchSpec.firstSeen [] (concat results).
Proof.
  unfold mergeResults. rewrite merge_loops_concat.
  change (@nil JsId, @nil Product.t) with (map Product.id (@nil Product.t), @nil Product.t).
  rewrite (merge_loop_firstSeen (concat results) [] []); [reflexivity|].
  intros i. reflexivity.
Qed.

Lemma firstSeen_fresh (ps earlier : list Product.t) :
  NoDup (map Product.id (SearchSpec.firstSeen earlier ps))
  /\ (forall p, In p (SearchSpec.firstSeen earlier ps) ->
                ~ In (Product.id p) (map Product.id earlier)).
Proof.
  revert earlier. induction ps as [|p ps IH]; intros earlier; simpl.
  - split; [constructor | intros p []].
  - destruct (IH (earlier ++ [p])) as [Hnd Hfresh].
    assert (Hweak : forall q, In q (SearchSpec.firstSeen (earlier ++ [p]) ps) ->
                              ~ In (Product.id q) (map Product.id earlier)
                              /\ Product.id q <> Product.id p).
    { intros q Hq. specialize (Hfresh q Hq).
      rewrite map_app, in_app_iff in Hfresh. simpl in Hfresh. intuition congruence. }
    destruct (existsb _ earlier) eqn:E.
    + split; [assumption|]. intros q Hq. now apply Hweak.
    + split.
      * simpl. constructor; [|assumption].
        rewrite in_map_iff. intros [q [Eq Hq]].
        apply Hweak in Hq. intuition congruence.
      * intros q [<-|Hq].
        -- intros Hin. apply earlier_iff_In in Hin. congruence.
        -- now apply Hweak.
Qed.

(** ** Computations that do not throw *)

Lemma ret_neverThrows {A} (a : A) : neverThrows (ret a).
Proof. intros w. now exists a, w. Qed.

Lemma bind_neverThrows {A B} (c : M A) (k : A -> M B) :
  neverThrows c -> (forall a, neverThrows (k a)) -> neverThrows (bind c k).
Proof.
  intros Hc Hk w. unfold bind.
  destruct (Hc w) as [a [w' ->]]. apply Hk.
Qed.

Lemma mapM_neverThrows {A B} (f : A -> M B) (l : list A) :
  (forall a, neverThrows (f a)) -> neverThrows (mapM f l).
Proof.
  intros Hf. induction l as [|a l IH]; simpl.
  - apply ret_neverThrows.
  - apply bind_neverThrows; [apply Hf|]. intros b.
    apply bind_neverThrows; [apply IH|]. intros bs. apply ret_neverThrows.
Qed.

Lemma mapM_each {A B} (f : A -> M B) (l : list A) w bs w' :
  mapM f l w = (Ok bs, w') ->
  Forall2 (fun a b => exists w1 w2, f a w1 = (Ok b, w2)) l bs.
Proof.
  revert w bs w'. induction l as [|a l IH]; simpl; intros w bs w' H.
  - injection H as <- _. constructor.
  - unfold bind in H at 1. destruct (f a w) as [[b|e] w1] eqn:Ea; [|discriminate].
    unfold bind in H at 1. destruct (mapM f l w1) as [[bs'|e] w2] eqn:E; [|discriminate].
    injection H as <- _. constructor; [eauto | eapply IH, E].
Qed.

Lemma Forall2_chain {A B C} (P : A -> B -> Prop) (Q : B -> C -> Prop)
    (la : list A) (lb : list B) (lc : list C) :
  Forall2 P la lb -> Forall2 Q lb lc ->
  Forall2 (fun a c => exists b, P a b /\ Q b c) la lc.
Proof.
  intros HP. revert lc. induction HP; intros lc HQ; inversion HQ; subst;
    constructor; eauto.
Qed.

Ltac never_throws :=
  repeat first
    [ apply ret_neverThrows
    | apply bind_neverThrows; [|intro]
    | match goal with
      | |- neverThrows (match ?x with _ => _ end) => destruct x
      | |- neverThrows (if ?x then _ else _) => destruct x
      | |- neverThrows _ => intros ?w; eexists; eexists; reflexivity
      end ].

Lemma searchProducts_start_neverThrows env keyword :
  neverThrows (searchProducts_start env keyword).
Proof. unfold searchProducts_start, now. never_throws. Qed.

Lemma searchProducts_finish_neverThrows env p :
  neverThrows (searchProducts_finish env p).
Proof. unfold searchProducts_finish, now. never_throws. Qed.

Lemma searchProducts_neverThrows env keyword :
  neverThrows (searchProducts env keyword).
Proof.
  apply bind_neverThrows.
  - apply searchProducts_start_neverThrows.
  - apply searchProducts_finish_neverThrows.
Qed.

Lemma searchAll_neverThrows env keywords : neverThrows (searchAll env keywords).
Proof.
  apply bind_neverThrows.
  - apply mapM_neverThrows, searchProducts_start_neverThrows.
  - intros. apply mapM_neverThrows, searchProducts_finish_neverThrows.
Qed.

(** C5. For every keyword list [multiSearch] answers, without throwing,
    with the merge of the per-keyword result sets (one set per keyword, in
    keyword order, each what [searchProducts] gave for its keyword): no
    identifier occurs twice in it, and it holds the products of the
    concatenation of the sets whose identifier was not seen earlier, in the
    order of the concatenation.  For an empty or absent list the answer is
    empty and nothing happens: no request, no change of the cache. *)
Theorem multiSearch_dedup_first_seen :
  forall (env : Env) (keywords : list string) (w : World),
    (exists results w',
        searchAll env keywords w = (Ok results, w')
        /\ Forall2 (fun keyword result =>
                      exists p w1 w2 w3 w4,
                        searchProducts_start env keyword w1 = (Ok p, w2)
                        /\ searchProducts_finish env p w3 = (Ok result, w4))
                   keywords results
        /\ multiSearch env (Some keywords) w =
             (Ok (SearchSpec.firstSeen [] (concat results)), w')
        /\ NoDup (map Product.id (SearchSpec.firstSeen [] (concat results))))
    /\ multiSearch env (Some []) w = (Ok [], w)
    /\ multiSearch env None w = (Ok [], w).
Proof.
  intros env keywords w. split; [|split; reflexivity].
  destruct (searchAll_neverThrows env keywords w) as [results [w' Hall]].
  exists results, w'. split; [assumption|]. split; [|split].
  - unfold searchAll, bind in Hall.
    destruct (mapM (searchProducts_start env) keywords w) as [[pending|e] w1] eqn:E1;
      [|discriminate].
    apply mapM_each in E1. apply mapM_each in Hall.
    pose proof (Forall2_chain _ _ _ _ _ E1 Hall) as Hboth.
    eapply Forall2_impl; [|exact Hboth].
    intros keyword result [p [[w1' [w2 Hs]] [w3 [w4 Hf]]]].
    exists p, w1', w2, w3, w4. auto.
  - destruct keywords as [|k ks].
    + injection Hall as <- <-. reflexivity.
    + unfold multiSearch. cbn [length Nat.eqb]. unfold bind, ret.
      rewrite Hall, mergeResults_firstSeen. reflexivity.
  - apply firstSeen_fresh.
Qed.

(** ** [searchProducts]: blank keywords and failing requests *)

Lemma trimStart_whitespaceOnly (s : string) :
  SearchSpec.whitespaceOnly s = true -> Js.trimStart s = EmptyString.
Proof.
  induction s as [|c s IH]; simpl; intros H; [reflexivity|].
  apply andb_true_iff in H as [-> Hs]. auto.
Qed.

Lemma blank_keyword_test (keyword : string) :
  SearchSpec.whitespaceOnly keyword = true ->
  (String.length keyword =? 0) || (String.length (Js.trim keyword) =? 0) = true.
Proof.
  intros H. unfold Js.trim. rewrite trimStart_whitespaceOnly by assumption.
  apply orb_true_r.
Qed.

(** C6. [searchProducts] never throws.  For an empty or white-space-only
    keyword it returns the empty sequence and does nothing (no request, no
    clock reading, the cache untouched).  Whenever its request goes out and
    the endpoint answers with a non-success status, or the transport fails,
    it returns the empty sequence, and leaves the cache as it was when the
    request went out. *)
Theorem searchProducts_blank_or_failed_is_empty :
  forall (env : Env) (keyword : string) (w : World),
    (exists ps w', searchProducts env keyword w = (Ok ps, w'))
    /\ (SearchSpec.whitespaceOnly keyword = true ->
        searchProducts env keyword w = (Ok [], w))
    /\ (forall cacheKey response w1,
          searchProducts_start env keyword w = (Ok (Awaiting cacheKey response), w1) ->
          SearchSpec.failed response ->
          searchProducts env keyword w = (Ok [], w1)).
Proof.
  intros env keyword w. repeat split.
  - apply searchProducts_neverThrows.
  - intros Hblank. unfold searchProducts, searchProducts_start, bind.
    rewrite blank_keyword_test by assumption. reflexivity.
  - intros cacheKey response w1 Hstart Hfailed.
    unfold searchProducts, bind. rewrite Hstart.
    destruct response as [|ok status body]; simpl in *; [reflexivity|].
    subst ok. reflexivity.
Qed.

(** ** The insertion-ordered map *)

Section JsMapFacts.
Context {V : Type}.
Implicit Types (m : JsMap.t V) (k : string) (v : V).

Lemma get_none_iff k m : JsMap.get k m = None <-> ~ In k (JsMap.keys m).
Proof.
  induction m as [|[k' v'] m IH]; simpl.
  - tauto.
  - destruct (String.eqb_spec k k') as [->|Hne].
    + split; [discriminate | intros H; exfalso; auto].
    + rewrite IH. split; [intros H [E|Hin]; [congruence | auto] | tauto].
Qed.

Lemma get_some_in k v m : JsMap.get k m = Some v -> In (k, v) m.
Proof.
  induction m as [|[k' v'] m IH]; simpl; [discriminate|].
  destruct (String.eqb_spec k k') as [->|Hne].
  - intros [= ->]. now left.
  - intros H. right. auto.
Qed.

Lemma set_fresh k v m : ~ In k (JsMap.keys m) -> JsMap.set k v m = m ++ [(k, v)].
Proof.
  induction m as [|[k' v'] m IH]; simpl; intros H; [reflexivity|].
  destruct (String.eqb_spec k k') as [->|Hne]; [exfalso; auto|].
  rewrite IH; tauto.
Qed.

Lemma get_set k k' v m :
  JsMap.get k' (JsMap.set k v m) = if String.eqb k' k then Some v else JsMap.get k' m.
Proof.
  induction m as [|[k0 v0] m IH]; simpl.
  - destruct (String.eqb k' k); reflexivity.
  - destruct (String.eqb_spec k k0) as [->|Hne]; simpl.
    + destruct (String.eqb k' k0); reflexivity.
    + rewrite IH. destruct (String.eqb_spec k' k0) as [->|Hne'].
      * destruct (String.eqb_spec k0 k); [congruence | reflexivity].
      * reflexivity.
Qed.

Lemma delete_absent k m : JsMap.get k m = None -> JsMap.delete k m = m.
Proof.
  induction m as [|[k' v'] m IH]; simpl; [reflexivity|].
  destruct (String.eqb k k'); [discriminate|]. intros H. now rewrite IH.
Qed.

Lemma get_delete_other k k' m :
  k <> k' -> JsMap.get k' (JsMap.delete k m) = JsMap.get k' m.
Proof.
  intros Hne. induction m as [|[k0 v0] m IH]; simpl; [reflexivity|].
  destruct (String.eqb_spec k k0) as [->|Hne0]; simpl.
  - destruct (String.eqb_spec k' k0); [congruence | reflexivity].
  - now rewrite IH.
Qed.

Lemma delete_is_filter k m :
  NoDup (JsMap.keys m) ->
  JsMap.delete k m = filter (fun e => negb (String.eqb (fst e) k)) m.
Proof.
  induction m as [|[k' v'] m IH]; simpl; intros Hnd; [reflexivity|].
  inversion Hnd as [|? ? Hnotin Hnd']; subst.
  rewrite (String.eqb_sym k' k).
  destruct (String.eqb_spec k k') as [->|Hne]; simpl.
  - symmetry. apply filter_all. apply forallb_forall. intros [k0 v0] Hin. simpl.
    destruct (String.eqb_spec k0 k') as [->|]; [|reflexivity].
    exfalso. apply Hnotin. change k' with (fst (k', v0)). now apply in_map.
  - now rewrite IH.
Qed.

Lemma keys_filter_NoDup (f : string * V -> bool) m :
  NoDup (JsMap.keys m) -> NoDup (JsMap.keys (filter f m)).
Proof.
  induction m as [|e m IH]; simpl; intros Hnd; [constructor|].
  inversion Hnd as [|? ? Hnotin Hnd']; subst.
  destruct (f e); simpl; [|auto].
  constructor; [|auto].
  intros Hin. apply Hnotin. unfold JsMap.keys in *.
  apply in_map_iff in Hin as [x [Ex Hx]]. apply filter_In in Hx as [Hx _].
  rewrite <- Ex. now apply in_map.
Qed.

Lemma delete_all_is_filter (ids : list string) m :
  NoDup (JsMap.keys m) ->
  fold_left (fun m id => JsMap.delete id m) ids m =
  filter (fun e => negb (existsb (String.eqb (fst e)) ids)) m.
Proof.
  revert m. induction ids as [|id ids IH]; intros m Hnd; simpl.
  - symmetry. apply filter_true.
  - rewrite delete_is_filter by assumption.
    rewrite IH by now apply keys_filter_NoDup.
    rewrite filter_both. apply filter_ext_eq. intros e.
    now rewrite negb_orb.
Qed.

Lemma entries_fresh (es : list (string * V)) m :
  NoDup (JsMap.keys m ++ map fst es) ->
  fold_left setEntry es m = m ++ es.
Proof.
  revert m. induction es as [|[k v] es IH]; intros m Hnd; simpl.
  - now rewrite app_nil_r.
  - unfold setEntry at 2. simpl.
    simpl in Hnd. pose proof (NoDup_remove_2 _ _ _ Hnd) as Hk.
    rewrite set_fresh by (intros Hin; apply Hk, in_or_app; now left).
    rewrite IH.
    + now rewrite <- app_assoc.
    + unfold JsMap.keys. rewrite map_app, <- app_assoc. exact Hnd.
Qed.

Lemma ofEntries_NoDup (es : list (string * V)) :
  NoDup (map fst es) -> JsMap.ofEntries es = es.
Proof. intros Hnd. apply (entries_fresh es []). exact Hnd. Qed.

Lemma entries_get (es : list (string * V)) m k :
  match JsMap.get k (fold_left setEntry es m) with
  | Some v => In (k, v) es \/ JsMap.get k m = Some v
  | None => ~ In k (map fst es) /\ JsMap.get k m = None
  end.
Proof.
  revert m. induction es as [|[k0 v0] es IH]; intros m; simpl.
  - destruct (JsMap.get k m); auto.
  - specialize (IH (setEntry m (k0, v0))).
    destruct (JsMap.get k (fold_left setEntry es (setEntry m (k0, v0)))) as [v|].
    + destruct IH as [Hin|Hget]; [auto|].
      unfold setEntry in Hget. simpl in Hget. rewrite get_set in Hget.
      destruct (String.eqb_spec k k0) as [->|Hne]; [|auto].
      injection Hget as ->. auto.
    + destruct IH as [Hnotin Hget].
      unfold setEntry in Hget. simpl in Hget. rewrite get_set in Hget.
      destruct (String.eqb_spec k k0) as [->|Hne]; [discriminate|].
      split; [|assumption]. intros [E|Hin]; [congruence | auto].
Qed.

Lemma ofEntries_get (es : list (string * V)) k :
  match JsMap.get k (JsMap.ofEntries es) with
  | Some v => In (k, v) es
  | None => ~ In k (map fst es)
  end.
Proof.
  pose proof (entries_get es [] k) as H. unfold JsMap.ofEntries.
  change (fun m e => JsMap.set (fst e) (snd e) m) with (@setEntry V).
  destruct (JsMap.get k (fold_left (@setEntry V) es [])).
  - destruct H as [H|H]; [assumption | discriminate].
  - tauto.
Qed.
End JsMapFacts.

(** ** The tag pattern *)

Lemma digitsPrefix_split (s d rest : string) :
  digitsPrefix s = (d, rest) -> s = String.append d rest /\ allDigits d = true.
Proof.
  revert d rest. induction s as [|c s IH]; simpl; intros d rest H.
  - injection H as <- <-. auto.
  - destruct (isDigit c) eqn:Ec.
    + destruct (digitsPrefix s) as [d' rest'].
      injection H as <- <-. destruct (IH d' rest' eq_refl) as [-> Hd].
      simpl. now rewrite Ec.
    + injection H as <- <-. auto.
Qed.

Lemma digitsPrefix_stops (d rest : string) :
  allDigits d = true ->
  digitsPrefix (String.append d (String "]" rest)) = (d, String "]" rest).
Proof.
  induction d as [|c d IH]; simpl; intros H; [reflexivity|].
  apply andb_true_iff in H as [-> Hd]. now rewrite IH.
Qed.

Ltac head_char H c :=
  destruct c as [[] [] [] [] [] [] [] []]; try discriminate H.

(** [matchIdTag] succeeds exactly on [[ID:], one digit or more, []]: the
    captured group is the digits. *)
Lemma matchIdTag_spec (s id : string) :
  matchIdTag s = Some id <->
  exists rest,
    s = String.append "[ID:" (String.append id (String "]" rest))
    /\ id <> EmptyString /\ allDigits id = true.
Proof.
  split.
  - intros H.
    destruct s as [|c0 s]; [discriminate|]. head_char H c0.
    destruct s as [|c1 s]; [discriminate|]. head_char H c1.
    destruct s as [|c2 s]; [discriminate|]. head_char H c2.
    destruct s as [|c3 s]; [discriminate|]. head_char H c3.
    cbn [matchIdTag] in H.
    destruct (digitsPrefix s) as [d rest] eqn:Ed.
    destruct d as [|c d]; [discriminate|].
    destruct rest as [|c4 rest]; [discriminate|]. head_char H c4.
    injection H as <-.
    apply digitsPrefix_split in Ed as [-> Hd].
    exists rest. repeat split; [discriminate | assumption].
  - intros [rest [-> [Hne Hd]]].
    cbn [String.append matchIdTag].
    rewrite digitsPrefix_stops by assumption.
    destruct id; [congruence | reflexivity].
Qed.

(** ** Mentions: first appearance, no repetition *)

Lemma mentioned_iff_In (t : string) (l : list string) :
  existsb (String.eqb t) l = true <-> In t l.
Proof.
  rewrite existsb_exists. split.
  - intros [x [Hx E]]. apply String.eqb_eq in E. now subst.
  - intros H. exists t. split; [assumption | apply String.eqb_refl].
Qed.

Lemma collect_loop_firstMentions (tags earlier acc : list string) :
  (forall t, In t acc <-> In t earlier) ->
  fold_left collectMention tags acc = acc ++ MentionSpec.firstMentions earlier tags.
Proof.
  revert earlier acc.
  induction tags as [|t tags IH]; intros earlier acc Hsame; simpl.
  - now rewrite app_nil_r.
  - unfold collectMention at 2. unfold Js.arrIncludes.
    destruct (existsb (String.eqb t) acc) eqn:Eacc;
      destruct (existsb (String.eqb t) earlier) eqn:Eearlier.
    + apply IH. intros x. rewrite Hsame, in_app_iff. simpl.
      apply mentioned_iff_In in Eearlier. intuition (subst; auto).
    + apply mentioned_iff_In, Hsame, mentioned_iff_In in Eacc. congruence.
    + apply mentioned_iff_In, Hsame, mentioned_iff_In in Eearlier. congruence.
    + rewrite (IH (earlier ++ [t]) (acc ++ [t])).
      * now rewrite <- app_assoc.
      * intros x. rewrite !in_app_iff, Hsame. reflexivity.
Qed.

Lemma extractMentionedIds_firstMentions (aiResponse : string) :
  extractMentionedIds aiResponse =
  MentionSpec.firstMentions [] (execAll aiResponse 0).
Proof.
  unfold extractMentionedIds.
  now rewrite (collect_loop_firstMentions _ [] []).
Qed.

Lemma firstMentions_fresh (tags earlier : list string) :
  NoDup (MentionSpec.firstMentions earlier tags)
  /\ (forall t, In t (MentionSpec.firstMentions earlier tags) ->
                In t tags /\ ~ In t earlier).
Proof.
  revert earlier. induction tags as [|t tags IH]; intros earlier; simpl.
  - split; [constructor | intros t []].
  - destruct (IH (earlier ++ [t])) as [Hnd Hfresh].
    assert (Hweak : forall x, In x (MentionSpec.firstMentions (earlier ++ [t]) tags) ->
                              In x tags /\ ~ In x earlier /\ x <> t).
    { intros x Hx. destruct (Hfresh x Hx) as [Hin Hnot].
      rewrite in_app_iff in Hnot. simpl in Hnot. intuition congruence. }
    destruct (existsb (String.eqb t) earlier) eqn:E.
    + split; [assumption|]. intros x Hx. apply Hweak in Hx. tauto.
    + split.
      * constructor; [|assumption]. intros Hin. apply Hweak in Hin. tauto.
      * intros x [<-|Hx].
        -- split; [now left|]. intros Hin. apply mentioned_iff_In in Hin. congruence.
        -- apply Hweak in Hx. tauto.
Qed.

Lemma extractMentionedIds_NoDup (aiResponse : string) :
  NoDup (extractMentionedIds aiResponse).
Proof. rewrite extractMentionedIds_firstMentions. apply firstMentions_fresh. Qed.

(** ** The [forEach] of [reorderProductsByMention] *)

Lemma placeMentioned_step allMap reordered displayMap id :
  placeMentioned allMap (reordered, displayMap) id =
  (reordered ++ MentionSpec.found [lookupMentioned displayMap allMap id],
   JsMap.delete id displayMap).
Proof.
  unfold placeMentioned, lookupMentioned.
  destruct (JsMap.get id displayMap) as [p|] eqn:Ed; [reflexivity|].
  rewrite (delete_absent _ _ Ed).
  destruct (JsMap.get id allMap); simpl; [reflexivity | now rewrite app_nil_r].
Qed.

Lemma found_app (xs ys : list (option Display.t)) :
  MentionSpec.found (xs ++ ys) = MentionSpec.found xs ++ MentionSpec.found ys.
Proof.
  induction xs as [|[p|] xs IH]; simpl; [reflexivity| |]; now rewrite IH.
Qed.

Lemma place_loop allMap (ids : list string) reordered displayMap :
  NoDup ids ->
  fold_left (placeMentioned allMap) ids (reordered, displayMap) =
  (reordered ++ MentionSpec.found (map (lookupMentioned displayMap allMap) ids),
   fold_left (fun m id => JsMap.delete id m) ids displayMap).
Proof.
  revert reordered displayMap.
  induction ids as [|id ids IH]; intros reordered displayMap Hnd;
    cbn [fold_left map].
  - simpl. now rewrite app_nil_r.
  - inversion Hnd as [|? ? Hnotin Hnd']; subst.
    rewrite placeMentioned_step, IH by assumption.
    f_equal. rewrite <- app_assoc. f_equal.
    change (lookupMentioned displayMap allMap id
              :: map (lookupMentioned displayMap allMap) ids)
      with ([lookupMentioned displayMap allMap id]
              ++ map (lookupMentioned displayMap allMap) ids).
    rewrite found_app. f_equal. f_equal.
    apply map_ext_in. intros id' Hin. unfold lookupMentioned.
    rewrite get_delete_other; [reflexivity|].
    intros ->. contradiction.
Qed.

Lemma keys_keyed (ps : list Display.t) : JsMap.keys (keyed ps) = displayIds ps.
Proof. unfold JsMap.keys, keyed, displayIds. rewrite map_map. reflexivity. Qed.

Lemma values_filter_keyed (f : string -> bool) (ps : list Display.t) :
  JsMap.values (filter (fun e => f (fst e)) (keyed ps)) =
  filter (fun p => f (String_ (Display.id p))) ps.
Proof.
  unfold JsMap.values, keyed.
  induction ps as [|p ps IH]; simpl; [reflexivity|].
  destruct (f (String_ (Display.id p))); simpl; now rewrite IH.
Qed.

(** With distinct identifiers in the nominal list: what
    [reorderProductsByMention] returns once something is mentioned. *)
Lemma reorder_mentioned (aiResponse : string) (d a : list Display.t) :
  NoDup (displayIds d) ->
  extractMentionedIds aiResponse <> [] ->
  let mentioned := extractMentionedIds aiResponse in
  let picked :=
    MentionSpec.found
      (map (lookupMentioned (keyed d) (JsMap.ofEntries (keyed a))) mentioned) in
  reorderProductsByMention aiResponse d a =
  picked ++ firstn (8 - length picked) (MentionSpec.leftover mentioned d).
Proof.
  intros Hnd Hne mentioned picked.
  unfold reorderProductsByMention. fold mentioned.
  destruct (length mentioned =? 0) eqn:E0.
  { apply length_zero_nil in E0. contradiction. }
  rewrite (ofEntries_NoDup (keyed d))
    by (change (map fst (keyed d)) with (JsMap.keys (keyed d));
        now rewrite keys_keyed).
  rewrite place_loop by apply extractMentionedIds_NoDup.
  rewrite app_nil_l. fold picked.
  rewrite delete_all_is_filter by now rewrite keys_keyed.
  rewrite (values_filter_keyed (fun k => negb (existsb (String.eqb k) mentioned))).
  fold (MentionSpec.leftover mentioned d).
  destruct (Z.ltb_spec 0 (8 - Z.of_nat (length picked))) as [Hlt|Hge].
  - replace (Z.to_nat (8 - Z.of_nat (length picked))) with (8 - length picked) by lia.
    reflexivity.
  - replace (8 - length picked) with 0 by lia. simpl. now rewrite app_nil_r.
Qed.

Lemma in_displayIds (p : Display.t) (ps : list Display.t) :
  In p ps -> In (String_ (Display.id p)) (displayIds ps).
Proof. intros H. unfold displayIds. now apply in_map with (f := fun p => String_ (Display.id p)). Qed.

Lemma in_keyed (id : string) (p : Display.t) (ps : list Display.t) :
  In (id, p) (keyed ps) -> String_ (Display.id p) = id /\ In p ps.
Proof.
  unfold keyed. rewrite in_map_iff. intros [q [E Hq]]. injection E as <- <-. auto.
Qed.

(** The lookup takes a mentioned product from the nominal list if it is
    there, else from the broader list, else drops it. *)
Lemma lookupMentioned_resolves (d a : list Display.t) (id : string) :
  MentionSpec.resolves d a id
    (lookupMentioned (keyed d) (JsMap.ofEntries (keyed a)) id).
Proof.
  unfold lookupMentioned, MentionSpec.resolves, MentionSpec.listed.
  destruct (JsMap.get id (keyed d)) as [p|] eqn:Ed.
  - apply get_some_in, in_keyed in Ed. tauto.
  - apply get_none_iff in Ed. rewrite keys_keyed in Ed.
    pose proof (ofEntries_get (keyed a) id) as Ha.
    destruct (JsMap.get id (JsMap.ofEntries (keyed a))) as [p|].
    + apply in_keyed in Ha. tauto.
    + change (map fst (keyed a)) with (JsMap.keys (keyed a)) in Ha.
      rewrite keys_keyed in Ha. tauto.
Qed.

Lemma lookups_resolve (d a : list Display.t) (ids : list string) :
  Forall2 (MentionSpec.resolves d a) ids
    (map (lookupMentioned (keyed d) (JsMap.ofEntries (keyed a))) ids).
Proof.
  induction ids as [|id ids IH]; simpl; constructor;
    [apply lookupMentioned_resolves | assumption].
Qed.

(** The identifiers of what was found: the mentioned identifiers that one
    of the two lists knows, in mention order. *)
Lemma found_ids (d a : list Display.t) (ids : list string) (os : list (option Display.t)) :
  Forall2 (MentionSpec.resolves d a) ids os ->
  displayIds (MentionSpec.found os) =
  filter (fun id => existsb (String.eqb id) (displayIds d)
                    || existsb (String.eqb id) (displayIds a)) ids.
Proof.
  induction 1 as [|id o ids os Hres _ IH]; simpl; [reflexivity|].
  destruct o as [p|]; simpl in Hres.
  - destruct Hres as [Ekey Hfrom].
    assert (Hknown : existsb (String.eqb id) (displayIds d)
                     || existsb (String.eqb id) (displayIds a) = true).
    { apply orb_true_iff. rewrite !mentioned_iff_In. subst id.
      destruct Hfrom as [Hd|[_ Ha]]; [left | right]; now apply in_displayIds. }
    rewrite Hknown. simpl. now rewrite Ekey, IH.
  - destruct Hres as [Hd Ha]. unfold MentionSpec.listed in *.
    rewrite <- mentioned_iff_In in Hd, Ha.
    apply not_true_is_false in Hd, Ha. now rewrite Hd, Ha.
Qed.

Lemma leftover_ids (mentioned : list string) (d : list Display.t) :
  displayIds (MentionSpec.leftover mentioned d) =
  filter (fun k => negb (existsb (String.eqb k) mentioned)) (displayIds d).
Proof.
  unfold MentionSpec.leftover, displayIds.
  induction d as [|p d IH]; simpl; [reflexivity|].
  destruct (negb _); simpl; now rewrite IH.
Qed.

Lemma reorder_none (aiResponse : string) (d a : list Display.t) :
  extractMentionedIds aiResponse = [] ->
  reorderProductsByMention aiResponse d a = d.
Proof. intros E. unfold reorderProductsByMention. now rewrite E. Qed.

(** The identifiers of the reconciled list, for a nominal list with
    distinct identifiers. *)
Lemma reorder_ids (aiResponse : string) (d a : list Display.t) :
  NoDup (displayIds d) ->
  extractMentionedIds aiResponse <> [] ->
  let mentioned := extractMentionedIds aiResponse in
  let known :=
    filter (fun id => existsb (String.eqb id) (displayIds d)
                      || existsb (String.eqb id) (displayIds a)) mentioned in
  displayIds (reorderProductsByMention aiResponse d a) =
  known ++ firstn (8 - length known)
             (filter (fun k => negb (existsb (String.eqb k) mentioned)) (displayIds d)).
Proof.
  intros Hnd Hne mentioned known.
  rewrite reorder_mentioned by assumption. fold mentioned.
  set (picked := MentionSpec.found _).
  assert (Hids : displayIds picked = known)
    by (apply (found_ids d a mentioned), lookups_resolve).
  assert (Hlen : length picked = length known)
    by (rewrite <- Hids; unfold displayIds; now rewrite length_map).
  rewrite Hlen, <- Hids, <- leftover_ids.
  unfold displayIds. now rewrite map_app, firstn_map.
Qed.

Lemma in_firstn {A} (n : nat) (l : list A) (x : A) : In x (firstn n l) -> In x l.
Proof.
  revert n. induction l as [|y l IH]; intros [|n]; simpl; try tauto.
  intros [E|Hin]; [now left | right; eauto].
Qed.

Lemma NoDup_firstn {A} (n : nat) (l : list A) : NoDup l -> NoDup (firstn n l).
Proof.
  revert n. induction l as [|x l IH]; intros [|n] Hnd; simpl; try constructor.
  - inversion Hnd; subst. intros Hin. apply in_firstn in Hin. contradiction.
  - inversion Hnd; subst. auto.
Qed.

Lemma NoDup_append {A} (l1 l2 : list A) :
  NoDup l1 -> NoDup l2 -> (forall x, In x l1 -> ~ In x l2) -> NoDup (l1 ++ l2).
Proof.
  induction l1 as [|x l1 IH]; simpl; intros H1 H2 Hdisj; [assumption|].
  inversion H1; subst. constructor.
  - rewrite in_app_iff. intros [Hin|Hin]; [contradiction|]. eapply Hdisj; eauto.
  - apply IH; auto.
Qed.

(** C10. When each of the two lists keys its products by distinct
    identifiers, no identifier occurs twice in the reconciled list. *)
Theorem reorderProductsByMention_no_duplicate_ids :
  forall (aiResponse : string) (displayProducts allAvailableProducts : list Display.t),
    NoDup (displayIds displayProducts) ->
    NoDup (displayIds allAvailableProducts) ->
    NoDup (displayIds
             (reorderProductsByMention aiResponse displayProducts allAvailableProducts)).
Proof.
  intros r d a Hd _.
  destruct (extractMentionedIds r) as [|id0 ids0] eqn:Em.
  - now rewrite reorder_none.
  - assert (Hne : extractMentionedIds r <> []) by (rewrite Em; discriminate).
    rewrite reorder_ids by assumption.
    apply NoDup_append.
    + apply NoDup_filter, extractMentionedIds_NoDup.
    + apply NoDup_firstn, NoDup_filter, Hd.
    + intros x Hx Hx'. apply filter_In in Hx as [Hx _].
      apply in_firstn, filter_In in Hx' as [_ Hx'].
      apply mentioned_iff_In in Hx. rewrite Hx in Hx'. discriminate.
Qed.

Lemma sample_ids_NoDup :
  NoDup ["10"; "20"; "30"; "40"; "50"; "60"; "70"; "80"].
Proof.
  repeat (constructor; [simpl; intuition discriminate|]). constructor.
Qed.

(** X25. Where the reconciliation does what is asked of it.  The
    mentioned identifiers are the [ID:n] tags of the text in order of first
    appearance, each once.  With no tag the nominal list comes back
    unchanged.  Otherwise, for lists whose identifiers are strings or whole
    numbers up to 2^53 - 1 and a nominal list whose keys [String(p.id)] are
    pairwise distinct, the result is the mentioned products in mention
    order, each from the nominal list if its key is there, else from the
    broader list, dropped if it is in neither, and then the nominal
    products whose key was not mentioned, in their order, as far as 8
    slots allow.  For the tags [ID:20][ID:55][ID:20] over a nominal list
    with the keys 10, 20, ..., 80 and a broader list that has the key 55,
    the keys of the result are 20, 55, 10, 30, 40, 50, 60, 70. *)
Theorem reorderProductsByMention_reconciles :
  (forall (aiResponse : string) (nominal broader : list Display.t),
      let mentioned := extractMentionedIds aiResponse in
      mentioned = MentionSpec.firstMentions [] (execAll aiResponse 0)
      /\ NoDup mentioned
      /\ (mentioned = [] ->
          reorderProductsByMention aiResponse nominal broader = nominal)
      /\ (mentioned <> [] ->
          safeIds nominal ->
          safeIds broader ->
          NoDup (displayIds nominal) ->
          exists os,
            Forall2 (MentionSpec.resolves nominal broader) mentioned os
            /\ reorderProductsByMention aiResponse nominal broader =
               MentionSpec.found os
                 ++ firstn (8 - length (MentionSpec.found os))
                      (MentionSpec.leftover mentioned nominal)))
  /\ (forall (nominal broader : list Display.t),
        displayIds nominal = ["10"; "20"; "30"; "40"; "50"; "60"; "70"; "80"] ->
        MentionSpec.listed "55" broader ->
        displayIds (reorderProductsByMention "[ID:20][ID:55][ID:20]" nominal broader)
        = ["20"; "55"; "10"; "30"; "40"; "50"; "60"; "70"]).
Proof.
  split.
  - intros r d a mentioned. repeat split.
    + apply extractMentionedIds_firstMentions.
    + apply extractMentionedIds_NoDup.
    + intros E. now apply reorder_none.
    + intros Hne _ _ Hnd.
      exists (map (lookupMentioned (keyed d) (JsMap.ofEntries (keyed a))) mentioned).
      split; [apply lookups_resolve|]. now apply reorder_mentioned.
  - intros d a Hd Ha.
    assert (Hm : extractMentionedIds "[ID:20][ID:55][ID:20]" = ["20"; "55"])
      by reflexivity.
    rewrite reorder_ids;
      [| rewrite Hd; apply sample_ids_NoDup | rewrite Hm; discriminate].
    rewrite Hm, Hd.
    apply mentioned_iff_In in Ha.
    cbn [filter]. rewrite Ha.
    reflexivity.
Qed.

(** The reconciliation of the sample lists, with 55 taken from the broader
    list. *)
Lemma reorderProductsByMention_reconciles_witness :
  (exists os,
      Forall2 (MentionSpec.resolves Sample.nominal Sample.broader)
              (extractMentionedIds "see [ID:20], [ID:55] or [ID:20]") os
      /\ reorderProductsByMention "see [ID:20], [ID:55] or [ID:20]"
           Sample.nominal Sample.broader =
         MentionSpec.found os
           ++ firstn (8 - length (MentionSpec.found os))
                (MentionSpec.leftover
                   (extractMentionedIds "see [ID:20], [ID:55] or [ID:20]")
                   Sample.nominal))
  /\ displayIds (reorderProductsByMention "[ID:20][ID:55][ID:20]"
                   Sample.nominal Sample.broader)
     = ["20"; "55"; "10"; "30"; "40"; "50"; "60"; "70"].
Proof.
  split.
  - apply (proj1 reorderProductsByMention_reconciles
             "see [ID:20], [ID:55] or [ID:20]" Sample.nominal Sample.broader).
    + vm_compute. discriminate.
    + repeat (constructor; [vm_compute; discriminate|]). constructor.
    + repeat (constructor; [vm_compute; discriminate|]). constructor.
    + vm_compute. exact sample_ids_NoDup.
  - apply (proj2 reorderProductsByMention_reconciles Sample.nominal Sample.broader).
    + reflexivity.
    + vm_compute. repeat (first [left; reflexivity | right]).
Defined.

(** C1 fails on the code when two products of the nominal list print to
    one key.  The catalog sends "first" under the number 1, "second" under
    the string 1 and "third" under 2: three identifiers for [multiSearch],
    so all three are ranked and shown to the model.  The model tags 2.  The
    map of the reconciliation holds one entry for the key 1, so "first" is
    neither placed nor left over: the result is "third", "second", where
    the products not mentioned, "first" and "second", should follow
    "third". *)
Lemma processMessage_loses_a_product_under_one_key :
  exists r w,
    processMessage Sample.mixed "birthday gift" [] Sample.start = (Ok r, w)
    /\ NoDup (map Product.id Sample.mixedCatalog)
    /\ mergeResults [Sample.mixedCatalog] = Sample.mixedCatalog
    /\ filterAndRank Sample.mixedCatalog (intent r) = Sample.mixedCatalog
    /\ message r = "[ID:2]"
    /\ products r =
       reorderProductsByMention "[ID:2]"
         (map formatProductForDisplay Sample.mixedCatalog)
         (map formatProductForDisplay Sample.mixedCatalog)
    /\ map Display.name (map formatProductForDisplay Sample.mixedCatalog)
       = ["first"; "second"; "third"]
    /\ extractMentionedIds "[ID:2]" = ["2"]
    /\ map Display.name
         (MentionSpec.leftover ["2"] (map formatProductForDisplay Sample.mixedCatalog))
       = ["first"; "second"]
    /\ map Display.name (products r) = ["third"; "second"].
Proof.
  eexists. eexists. split; [vm_compute; reflexivity|].
  split; [repeat (constructor; [simpl; intuition discriminate|]); constructor|].
  repeat split; vm_compute; reflexivity.
Qed.

(** ** The fallback intent *)

Lemma prefix_empty (b : string) : prefix EmptyString b = true.
Proof. now destruct b. Qed.

Lemma prefix_append (a b c : string) :
  prefix b c = true -> prefix (String.append a b) (String.append a c) = true.
Proof.
  intros H. induction a as [|x a IH]; simpl; [assumption|].
  destruct (ascii_dec x x); [assumption | congruence].
Qed.

Lemma prefix_refl_append (a b : string) : prefix a (String.append a b) = true.
Proof.
  induction a as [|c a IH]; simpl; [apply prefix_empty|].
  destruct (ascii_dec c c); [assumption | congruence].
Qed.

Lemma prefix_same (a : string) : prefix a a = true.
Proof.
  induction a as [|c a IH]; simpl; [reflexivity|].
  destruct (ascii_dec c c); [assumption | congruence].
Qed.

Lemma split_nonempty (sep : ascii) (s : string) : Js.split sep s <> [].
Proof.
  destruct s as [|c s]; simpl; [discriminate|].
  destruct (Ascii.eqb c sep); [discriminate|].
  destruct (Js.split sep s); discriminate.
Qed.

(** Joining what [split] gave, with the separator, gives the string back. *)
Lemma join_split (sep : ascii) (s : string) :
  Js.join (String sep EmptyString) (Js.split sep s) = s.
Proof.
  unfold Js.join. induction s as [|c s IH]; [reflexivity|].
  pose proof (split_nonempty sep s) as Hne.
  cbn [Js.split].
  destruct (Ascii.eqb_spec c sep) as [->|Hc];
    destruct (Js.split sep s) as [|w ws]; try congruence.
  - change (String.concat (String sep EmptyString) (EmptyString :: w :: ws))
      with (String sep (String.concat (String sep EmptyString) (w :: ws))).
    now rewrite IH.
  - destruct ws as [|w' ws].
    + simpl in *. now rewrite IH.
    + change (String.concat (String sep EmptyString) (String c w :: w' :: ws))
        with (String c (String.concat (String sep EmptyString) (w :: w' :: ws))).
      now rewrite IH.
Qed.

Lemma prefix_join_firstn (sep : string) (n : nat) (l : list string) :
  prefix (Js.join sep (firstn n l)) (Js.join sep l) = true.
Proof.
  unfold Js.join. revert n.
  induction l as [|x l IH]; intros [|n]; try apply prefix_empty.
  destruct l as [|y l].
  - destruct n; simpl; apply prefix_same.
  - destruct n as [|n].
    + cbn [firstn String.concat]. apply prefix_refl_append.
    + specialize (IH (S n)).
      change (firstn (S (S n)) (x :: y :: l)) with (x :: firstn (S n) (y :: l)).
      change (firstn (S n) (y :: l)) with (y :: firstn n l) in *.
      cbn [String.concat] in *.
      apply prefix_append, prefix_append. exact IH.
Qed.

Lemma fallback_keyword_is_prefix (userMessage : string) :
  prefix (Js.join " " (firstn 3 (Js.split " " userMessage))) userMessage = true.
Proof.
  rewrite <- (join_split " " userMessage) at 2. apply prefix_join_firstn.
Qed.

Lemma join_cons (sep x y : string) (l : list string) :
  Js.join sep (x :: y :: l) = String.append x (String.append sep (Js.join sep (y :: l))).
Proof. reflexivity. Qed.

(** The first [n+1] pieces, joined again, are the message cut before its
    [n+1]-th space. *)
Lemma join_firstn_split (n : nat) (s : string) :
  Js.join " " (firstn (S n) (Js.split " " s)) = MessageSpec.beforeSpace n s.
Proof.
  revert n. induction s as [|c s IH]; intros n; [destruct n; reflexivity|].
  cbn [Js.split MessageSpec.beforeSpace].
  pose proof (split_nonempty " " s) as Hne.
  destruct (Ascii.eqb c " ") eqn:Hc.
  - apply Ascii.eqb_eq in Hc. subst c.
    destruct n as [|k]; [reflexivity|].
    specialize (IH k).
    destruct (Js.split " " s) as [|w ws]; [congruence|].
    change (firstn (S (S k)) (EmptyString :: w :: ws))
      with (EmptyString :: firstn (S k) (w :: ws)).
    cbn [firstn] in IH |- *. rewrite join_cons. rewrite IH. reflexivity.
  - specialize (IH n).
    destruct (Js.split " " s) as [|w ws]; [congruence|].
    cbn [firstn] in *. rewrite <- IH.
    destruct (firstn n ws) as [|w' ws']; [reflexivity|].
    now rewrite !join_cons.
Qed.

Lemma split_cons (sep c : ascii) (r : string) :
  Js.split sep (String c r)
  = if Ascii.eqb c sep then EmptyString :: Js.split sep r
    else match Js.split sep r with
         | w :: ws => String c w :: ws
         | [] => [String c EmptyString]
         end.
Proof. reflexivity. Qed.

Lemma words_space (c : ascii) (r : string) :
  Ascii.eqb c " " = true -> MessageSpec.words (String c r) = MessageSpec.words r.
Proof. intros H. destruct r; simpl; now rewrite H. Qed.

Lemma words_cons2 (c d : ascii) (r : string) :
  Ascii.eqb c " " = false ->
  MessageSpec.words (String c (String d r))
  = if Ascii.eqb d " " then String c EmptyString :: MessageSpec.words (String d r)
    else match MessageSpec.words (String d r) with
         | w :: ws => String c w :: ws
         | [] => [String c EmptyString]
         end.
Proof.
  intros H.
  change (MessageSpec.words (String c (String d r)))
    with (if Ascii.eqb c " " then MessageSpec.words (String d r)
          else if Ascii.eqb d " "
               then String c EmptyString :: MessageSpec.words (String d r)
               else match MessageSpec.words (String d r) with
                    | w :: ws => String c w :: ws
                    | [] => [String c EmptyString]
                    end).
  now rewrite H.
Qed.

Lemma spacedOnce_cons2 (c d : ascii) (r : string) :
  MessageSpec.spacedOnce (String c (String d r))
  = negb (Ascii.eqb c " ")
    && (if Ascii.eqb d " " then MessageSpec.spacedOnce r
        else MessageSpec.spacedOnce (String d r)).
Proof. reflexivity. Qed.

(** In a message typed with one space between its words the pieces are the
    words. *)
Lemma split_words (s : string) :
  MessageSpec.spacedOnce s = true -> Js.split " " s = MessageSpec.words s.
Proof.
  assert (Hboth : forall s,
            (MessageSpec.spacedOnce s = true -> Js.split " " s = MessageSpec.words s)
            /\ forall c, MessageSpec.spacedOnce (String c s) = true ->
                         Js.split " " (String c s) = MessageSpec.words (String c s)).
  { clear s. induction s as [|d s [IH1 IH2]].
    - split; [discriminate|]. intros c H. cbn in H |- *.
      destruct (Ascii.eqb c " "); [discriminate | reflexivity].
    - split; [apply IH2|]. intros c H.
      rewrite spacedOnce_cons2 in H. apply andb_true_iff in H as [Hc H].
      apply negb_true_iff in Hc.
      rewrite (split_cons " " c (String d s)), Hc, (words_cons2 c d s Hc).
      destruct (Ascii.eqb d " ") eqn:Hd.
      + rewrite (split_cons " " d s), Hd, (words_space d s Hd), (IH1 H).
        reflexivity.
      + rewrite (IH2 d H). reflexivity. }
  apply Hboth.
Qed.

(** C7 (amended). Whatever string the model gives back: when [JSON.parse]
    throws on it (fences stripped), [extractIntent] does not throw and
    returns the fallback intent, which asks for no clarification, has the
    type "browse", and has one keyword: the message as it was typed, cut
    before its third space.  That is the first three words, one space
    between them, when the message is typed with one space between its
    words. *)
Theorem extractIntent_falls_back_on_malformed_output :
  forall (env : Env) (userMessage : string) (conversationHistory : list Message)
         (w w' : World) (result : string),
    callLLM env (intentMessages env userMessage conversationHistory) 0%Q 512%N w
      = (Ok result, w') ->
    JSON_parse env (stripFences result) = None ->
    exists fallback,
      extractIntent env userMessage conversationHistory w = (Ok fallback, w')
      /\ Intent.needs_clarification fallback = false
      /\ Intent.intent_type fallback = Some "browse"
      /\ Intent.search_keywords fallback
         = Some [MessageSpec.beforeSpace 2 userMessage]
      /\ (MessageSpec.spacedOnce userMessage = true ->
          Intent.search_keywords fallback
          = Some [String.concat " " (firstn 3 (MessageSpec.words userMessage))]).
Proof.
  intros env userMessage conversationHistory w w' result Hcall Hparse.
  exists (fallbackIntent userMessage).
  assert (Hkeyword : Intent.search_keywords (fallbackIntent userMessage)
                     = Some [MessageSpec.beforeSpace 2 userMessage])
    by (cbn [fallbackIntent Intent.search_keywords]; now rewrite join_firstn_split).
  repeat split.
  - unfold extractIntent, bind. rewrite Hcall.
    unfold parseIntent. now rewrite Hparse.
  - exact Hkeyword.
  - intros Hspaced. cbn [fallbackIntent Intent.search_keywords].
    now rewrite split_words.
Qed.

(** A model that answers the intent request with prose; the keyword is
    "what is this". *)
Lemma extractIntent_falls_back_witness :
  MessageSpec.spacedOnce "what is this thing" = true
  /\ exists fallback,
    extractIntent Sample.online "what is this thing" [] Sample.start
      = (Ok fallback,
         snd (callLLM Sample.online
                (intentMessages Sample.online "what is this thing" [])
                0%Q 512%N Sample.start))
    /\ Intent.needs_clarification fallback = false
    /\ Intent.intent_type fallback = Some "browse"
    /\ Intent.search_keywords fallback = Some ["what is this"]
    /\ (MessageSpec.spacedOnce "what is this thing" = true ->
        Intent.search_keywords fallback = Some ["what is this"]).
Proof.
  split; [reflexivity|].
  apply (extractIntent_falls_back_on_malformed_output
           Sample.online "what is this thing" [] Sample.start _
           "Sure, I can help with that!").
  - reflexivity.
  - reflexivity.
Defined.

(** C7 as stated fails on a message with two spaces in a row: the pieces
    between spaces are then not the words.  For "a  b c d" the keyword is
    "a  b", two words with two spaces, and not "a b c". *)
Lemma extractIntent_fallback_keyword_with_two_spaces :
  MessageSpec.words "a  b c d" = ["a"; "b"; "c"; "d"]
  /\ exists fallback w,
       extractIntent Sample.online "a  b c d" [] Sample.start = (Ok fallback, w)
       /\ Intent.intent_type fallback = Some "browse"
       /\ Intent.search_keywords fallback = Some ["a  b"]
       /\ Intent.search_keywords fallback
          <> Some [String.concat " " (firstn 3 (MessageSpec.words "a  b c d"))].
Proof.
  split; [reflexivity|].
  eexists. eexists. split; [vm_compute; reflexivity|].
  repeat split. discriminate.
Qed.

(** ** The clarification branch *)

Lemma catalogFetches_model (l : list Event) (request : ModelRequest) :
  catalogFetches (l ++ [EvModelFetch request]) = catalogFetches l.
Proof. unfold catalogFetches. rewrite filter_app. simpl. apply app_nil_r. Qed.

(** A call of the model leaves the catalog alone: no request to it, no
    change of the cache. *)
Lemma callLLM_keeps_catalog env msgs temp maxTokens w :
  searchCache (snd (callLLM env msgs temp maxTokens w)) = searchCache w
  /\ catalogFetches (log (snd (callLLM env msgs temp maxTokens w)))
     = catalogFetches (log w).
Proof.
  unfold callLLM.
  destruct (negb (Js.truthyStr (NVIDIA_NIM_API_KEY env))); [split; reflexivity|].
  unfold bind, calls, emit. cbn [fst snd].
  destruct (nimEndpoint env _ _) as [|ok status [c|]]; try destruct ok;
    cbn; rewrite ?catalogFetches_model; split; reflexivity.
Qed.

Lemma callLLMStream_keeps_catalog env msgs temp maxTokens w :
  searchCache (snd (callLLMStream env msgs temp maxTokens w)) = searchCache w
  /\ catalogFetches (log (snd (callLLMStream env msgs temp maxTokens w)))
     = catalogFetches (log w).
Proof.
  unfold callLLMStream.
  destruct (negb (Js.truthyStr (NVIDIA_NIM_API_KEY env))); [split; reflexivity|].
  unfold bind, calls, emit. cbn [fst snd].
  destruct (nimStreamEndpoint env _ _) as [|ok status body]; try destruct ok;
    cbn; rewrite ?catalogFetches_model; split; reflexivity.
Qed.

Lemma extractIntent_keeps_catalog env userMessage history w :
  searchCache (snd (extractIntent env userMessage history w)) = searchCache w
  /\ catalogFetches (log (snd (extractIntent env userMessage history w)))
     = catalogFetches (log w).
Proof.
  unfold extractIntent, bind.
  pose proof (callLLM_keeps_catalog env
                (intentMessages env userMessage history) 0%Q 512%N w) as H.
  destruct (callLLM env _ _ _ w) as [[result|e] w1]; exact H.
Qed.

(** C3. On a turn whose extracted intent asks for clarification,
    [processMessage] and [processMessageStream] go from the extraction
    straight to the clarification call of the model and return what it
    gives with an empty product list (or throw what it throws); no request
    reaches the catalog and the search cache stays as it was. *)
Theorem clarification_turn_never_searches :
  forall (env : Env) (userMessage : string) (conversationHistory : list Message)
         (w w1 : World) (intent : Intent.t),
    extractIntent env userMessage conversationHistory w = (Ok intent, w1) ->
    Intent.needs_clarification intent = true ->
    let clarification :=
      [ {| role := "system"; content := SYSTEM_PROMPT env |};
        {| role := "user";
           content := buildClarificationPrompt env userMessage intent
                        (historyText conversationHistory) |} ] in
    (processMessage env userMessage conversationHistory w =
       bind (callLLM env clarification (7 # 10)%Q 256%N)
            (fun text => ret {| message := text; products := []; intent := intent |})
            w1
     /\ (forall r w2,
           processMessage env userMessage conversationHistory w = (Ok r, w2) ->
           products r = [])
     /\ catalogFetches (log (snd (processMessage env userMessage conversationHistory w)))
        = catalogFetches (log w)
     /\ searchCache (snd (processMessage env userMessage conversationHistory w))
        = searchCache w)
    /\ (processMessageStream env userMessage conversationHistory w =
          bind (callLLMStream env clarification (7 # 10)%Q 256%N)
               (fun stream =>
                  ret {| s_stream := stream; s_products := [];
                         s_allAvailableProducts := None; s_intent := intent |})
               w1
        /\ (forall r w2,
              processMessageStream env userMessage conversationHistory w = (Ok r, w2) ->
              s_products r = [])
        /\ catalogFetches
             (log (snd (processMessageStream env userMessage conversationHistory w)))
           = catalogFetches (log w)
        /\ searchCache (snd (processMessageStream env userMessage conversationHistory w))
           = searchCache w).
Proof.
  intros env userMessage history w w1 intent Hintent Hclar clarification.
  pose proof (extractIntent_keeps_catalog env userMessage history w) as [Hc1 Hf1].
  rewrite Hintent in Hc1, Hf1. cbn [snd] in Hc1, Hf1.
  assert (Hsync : processMessage env userMessage history w =
                  bind (callLLM env clarification (7 # 10)%Q 256%N)
                       (fun text => ret {| message := text; products := [];
                                           intent := intent |}) w1).
  { unfold processMessage. unfold bind at 1. rewrite Hintent, Hclar. reflexivity. }
  assert (Hstream : processMessageStream env userMessage history w =
                    bind (callLLMStream env clarification (7 # 10)%Q 256%N)
                         (fun stream =>
                            ret {| s_stream := stream; s_products := [];
                                   s_allAvailableProducts := None;
                                   s_intent := intent |}) w1).
  { unfold processMessageStream. unfold bind at 1. rewrite Hintent, Hclar. reflexivity. }
  pose proof (callLLM_keeps_catalog env clarification (7 # 10)%Q 256%N w1) as [Hc2 Hf2].
  pose proof (callLLMStream_keeps_catalog env clarification (7 # 10)%Q 256%N w1)
    as [Hc3 Hf3].
  split; (split; [assumption|]).
  - rewrite Hsync. unfold bind, ret.
    destruct (callLLM env clarification (7 # 10)%Q 256%N w1) as [[text|e] w2];
      cbn [snd] in *.
    + repeat split; try congruence;
        try (intros r w3 H; inversion H; subst; reflexivity).
    + repeat split; try congruence; try (intros r w3 H; discriminate H).
  - rewrite Hstream. unfold bind, ret.
    destruct (callLLMStream env clarification (7 # 10)%Q 256%N w1) as [[text|e] w2];
      cbn [snd] in *.
    + repeat split; try congruence;
        try (intros r w3 H; inversion H; subst; reflexivity).
    + repeat split; try congruence; try (intros r w3 H; discriminate H).
Qed.

(** The greeting "hi", for which the sample model asks for clarification. *)
Lemma clarification_turn_witness :
  processMessage Sample.offline "hi" [] Sample.start =
    bind (callLLM Sample.offline
            [ {| role := "system"; content := "system" |};
              {| role := "user"; content := "hi" |} ] (7 # 10)%Q 256%N)
         (fun text => ret {| message := text; products := []; intent := Sample.vague |})
         (snd (extractIntent Sample.offline "hi" [] Sample.start))
  /\ catalogFetches (log (snd (processMessageStream Sample.offline "hi" [] Sample.start)))
     = catalogFetches (log Sample.start).
Proof.
  destruct (clarification_turn_never_searches Sample.offline "hi" [] Sample.start
              (snd (extractIntent Sample.offline "hi" [] Sample.start))
              Sample.vague eq_refl eq_refl) as [[Hsync _] [_ [_ [Hfetch _]]]].
  split; [exact Hsync | exact Hfetch].
Defined.

(** ** [compareProducts] *)

Lemma at_most_one_with_id (i : JsId) (ps : list Product.t) :
  NoDup (map Product.id ps) ->
  length (filter (fun p => JsId_eqb (Product.id p) i) ps) <= 1.
Proof.
  induction ps as [|p ps IH]; simpl; intros Hnd; [lia|].
  inversion Hnd as [|? ? Hnotin Hnd']; subst.
  destruct (JsId_eqb (Product.id p) i) eqn:E; [|auto].
  apply JsId_eqb_eq in E. subst i.
  destruct (filter _ ps) as [|q qs] eqn:Ef; [simpl; lia|].
  exfalso. apply Hnotin.
  assert (Hq : In q (filter (fun p0 => JsId_eqb (Product.id p0) (Product.id p)) ps))
    by (rewrite Ef; now left).
  apply filter_In in Hq as [Hq Eq]. apply JsId_eqb_eq in Eq. rewrite <- Eq.
  now apply in_map.
Qed.

(** C9 (amended). When fewer than 2 of the products handed over carry one
    of the requested identifiers, [compareProducts] answers with the
    validation message and does nothing else: no call of the model, the
    process state unchanged.  This is so in particular for fewer than 2
    identifiers over products with distinct identifiers. *)
Theorem compareProducts_needs_two_matching_products :
  forall (env : Env) (productIds : list JsId) (allProducts : list Product.t)
         (userContext : string) (w : World),
    (length (filter (fun p => existsb (JsId_eqb (Product.id p)) productIds)
                    allProducts) < 2 ->
     compareProducts env productIds allProducts userContext w =
       (Ok "Please select at least 2 products to compare.", w))
    /\ (length productIds < 2 ->
        NoDup (map Product.id allProducts) ->
        compareProducts env productIds allProducts userContext w =
          (Ok "Please select at least 2 products to compare.", w)).
Proof.
  intros env productIds allProducts userContext w.
  assert (Hfew : length (filter (fun p => existsb (JsId_eqb (Product.id p)) productIds)
                                allProducts) < 2 ->
                 compareProducts env productIds allProducts userContext w =
                   (Ok "Please select at least 2 products to compare.", w)).
  { intros Hlt. unfold compareProducts. rewrite length_map.
    apply Nat.ltb_lt in Hlt. now rewrite Hlt. }
  split; [exact Hfew|].
  intros Hids Hnd. apply Hfew.
  destruct productIds as [|i [|j ids]]; simpl in Hids; try lia.
  - assert (Hnone : forall l : list Product.t,
               filter (fun p => existsb (JsId_eqb (Product.id p)) []) l = [])
      by (induction l; simpl; auto).
    rewrite Hnone. simpl. lia.
  - rewrite (filter_ext_eq _ (fun p => JsId_eqb (Product.id p) i))
      by (intros p; simpl; apply orb_false_r).
    pose proof (at_most_one_with_id i allProducts Hnd). lia.
Qed.

(** One identifier over the sample catalog, and two identifiers of which
    the catalog knows one. *)
Lemma compareProducts_needs_two_witness :
  compareProducts Sample.online [IdNum 3] Sample.catalog "which one?" Sample.start =
    (Ok "Please select at least 2 products to compare.", Sample.start)
  /\ compareProducts Sample.online [IdNum 3; IdNum 77] Sample.catalog "which one?"
       Sample.start =
     (Ok "Please select at least 2 products to compare.", Sample.start).
Proof.
  split.
  - apply (proj2 (compareProducts_needs_two_matching_products
                    Sample.online [IdNum 3] Sample.catalog "which one?" Sample.start)).
    + simpl. lia.
    + vm_compute.
      repeat (constructor; [simpl; intuition discriminate|]). constructor.
  - apply (proj1 (compareProducts_needs_two_matching_products
                    Sample.online [IdNum 3; IdNum 77] Sample.catalog "which one?"
                    Sample.start)).
    vm_compute. lia.
Defined.

(** C9 as stated fails when two of the products carry the one requested
    identifier: both pass the filter, and the model is called. *)
Lemma compareProducts_one_id_reaches_the_model :
  length [IdNum 1] < 2
  /\ fst (compareProducts Sample.online [IdNum 1]
            [Sample.product 1 "first"; Sample.product 1 "second"]
            "which one?" Sample.start)
     <> Ok "Please select at least 2 products to compare."
  /\ length (modelFetches
               (log (snd (compareProducts Sample.online [IdNum 1]
                            [Sample.product 1 "first"; Sample.product 1 "second"]
                            "which one?" Sample.start)))) = 1.
Proof.
  split; [simpl; lia|]. split; [vm_compute; discriminate | reflexivity].
Qed.

(** ** The size of the product list of [processMessage] *)

(** C2 fails on the code: when the catalog gives ten products and the
    answer of the model tags all ten, the nominal eight and the two taken
    from the broader list are all placed, and nothing cuts the list to 8. *)
Lemma processMessage_returns_ten_products :
  exists r w,
    processMessage Sample.online "birthday gift for mom" [] Sample.start = (Ok r, w)
    /\ displayIds (products r)
       = ["1"; "2"; "3"; "4"; "5"; "6"; "7"; "8"; "9"; "10"]
    /\ length (products r) = 10.
Proof.
  eexists. eexists. split; [vm_compute; reflexivity|].
  split; reflexivity.
Qed.

(** ** The theorems at sample inputs *)

(** No sample product is for an anniversary: the products priced 3 to 8
    are kept. *)
Lemma filterProducts_occasion_fallback_witness :
  FilterSpec.occasionStep
    (Filters.mk (Some 3%Q) (Some 8%Q) (Some "Anniversary") None false)
    (map (fun i => Sample.product i "item") [3; 4; 5; 6; 7; 8]%N)
  = map (fun i => Sample.product i "item") [3; 4; 5; 6; 7; 8]%N
  /\ filterProducts Sample.catalog
       (Filters.mk (Some 3%Q) (Some 8%Q) (Some "Anniversary") None false) <> [].
Proof.
  destruct (filterProducts_order_and_occasion_fallback Sample.catalog
              (Filters.mk (Some 3%Q) (Some 8%Q) (Some "Anniversary") None false))
    as [_ [Hskip [_ Hkept]]].
  split.
  - apply (Hskip "Anniversary"); reflexivity.
  - apply Hkept; [discriminate | reflexivity | reflexivity].
Defined.

(** A blank keyword, and a search while the catalog cannot be reached. *)
Lemma searchProducts_blank_or_failed_witness :
  searchProducts Sample.online "   " Sample.start = (Ok [], Sample.start)
  /\ searchProducts Sample.offline " Birthday " Sample.start =
     (Ok [], {| searchCache := []; log := [EvCatalogFetch "birthday"] |}).
Proof.
  split.
  - apply (searchProducts_blank_or_failed_is_empty Sample.online "   " Sample.start).
    reflexivity.
  - apply (proj2 (proj2 (searchProducts_blank_or_failed_is_empty
                           Sample.offline " Birthday " Sample.start))
             "birthday" NetworkError).
    + reflexivity.
    + exact I.
Defined.

(** The sample lists carry distinct identifiers. *)
Lemma reorderProductsByMention_no_duplicate_ids_witness :
  NoDup (displayIds
           (reorderProductsByMention "take [ID:55], or [ID:20]"
              Sample.nominal Sample.broader)).
Proof.
  apply reorderProductsByMention_no_duplicate_ids.
  - vm_compute. exact sample_ids_NoDup.
  - vm_compute.
    repeat (constructor; [simpl; intuition discriminate|]). constructor.
Defined.

(** * Further properties of the catalog client and of the orchestrator *)

(** ** What [filterProducts] keeps *)

Lemma withFallback_is_filter {A} (occ : option (A -> bool)) (l : list A) :
  exists keep, withFallback occ l = filter keep l.
Proof.
  destruct occ as [o|]; simpl.
  - destruct (filter o l) eqn:E.
    + exists (fun _ => true). now rewrite filter_true.
    + exists o. now rewrite E.
  - exists (fun _ => true). now rewrite filter_true.
Qed.

(** X1. [filterProducts] only removes: its result is the input list with
    some products left out, the others in their order. *)
Theorem filterProducts_only_removes :
  forall (ps : list Product.t) (f : Filters.t),
    exists keep : Product.t -> bool, filterProducts ps f = filter keep ps.
Proof.
  intros ps f. rewrite filterProducts_shaped. unfold shaped.
  destruct (withFallback_is_filter (occasionTest f) (filter (budgetTest f) ps))
    as [keep ->].
  exists (fun p => budgetTest f p && (keep p && laterTest f p)).
  now rewrite !filter_both.
Qed.

Lemma in_minBudgetStep f ps p :
  In p (FilterSpec.minBudgetStep f ps) ->
  In p ps
  /\ forall bound, Filters.minBudget f = Some bound ->
       exists price, Product.minPrice p = Some price /\ (bound <= price)%Q.
Proof.
  unfold FilterSpec.minBudgetStep. destruct (Filters.minBudget f) as [b|].
  - intros H. apply filter_In in H as [Hin Hok]. split; [assumption|].
    intros bound [= <-]. destruct (Product.minPrice p) as [x|]; [|discriminate].
    exists x. split; [reflexivity | now apply Qle_bool_iff].
  - intros H. split; [assumption | discriminate].
Qed.

Lemma in_maxBudgetStep f ps p :
  In p (FilterSpec.maxBudgetStep f ps) ->
  In p ps
  /\ forall bound, Filters.maxBudget f = Some bound ->
       exists price, Product.minPrice p = Some price /\ (price <= bound)%Q.
Proof.
  unfold FilterSpec.maxBudgetStep. destruct (Filters.maxBudget f) as [b|].
  - intros H. apply filter_In in H as [Hin Hok]. split; [assumption|].
    intros bound [= <-]. destruct (Product.minPrice p) as [x|]; [|discriminate].
    exists x. split; [reflexivity | now apply Qle_bool_iff].
  - intros H. split; [assumption | discriminate].
Qed.

Lemma in_occasionStep f ps p :
  In p (FilterSpec.occasionStep f ps) ->
  In p ps
  /\ forall target, FilterSpec.requestedOccasion f = Some target ->
       FilterSpec.occasionMatches target p = true
       \/ filter (FilterSpec.occasionMatches target) ps = [].
Proof.
  unfold FilterSpec.occasionStep.
  destruct (FilterSpec.requestedOccasion f) as [t|].
  - destruct (filter (FilterSpec.occasionMatches t) ps) eqn:E.
    + intros H. split; [assumption|]. intros target [= <-]. now right.
    + rewrite <- E. intros H. apply filter_In in H as [Hin Hok].
      split; [assumption|]. intros target [= <-]. now left.
  - intros H. split; [assumption | discriminate].
Qed.

Lemma in_dietaryStep f ps p :
  In p (FilterSpec.dietaryStep f ps) ->
  In p ps
  /\ forall terms, Filters.excludeIngredients f = Some terms ->
       FilterSpec.containsExcluded terms p = false.
Proof.
  unfold FilterSpec.dietaryStep. destruct (Filters.excludeIngredients f) as [ts|].
  - intros H. apply filter_In in H as [Hin Hok]. split; [assumption|].
    intros terms [= <-]. now apply negb_true_iff.
  - intros H. split; [assumption | discriminate].
Qed.

Lemma in_urgentStep f ps p :
  In p (FilterSpec.urgentStep f ps) ->
  In p ps
  /\ (Filters.urgentDelivery f = true -> Product.isOneHourDelivery p = true).
Proof.
  unfold FilterSpec.urgentStep. destruct (Filters.urgentDelivery f).
  - intros H. apply filter_In in H as [Hin Hok]. auto.
  - intros H. split; [assumption | discriminate].
Qed.

Lemma in_filterProducts_steps f ps p :
  In p (filterProducts ps f) ->
  In p (FilterSpec.maxBudgetStep f (FilterSpec.minBudgetStep f ps))
  /\ In p (FilterSpec.occasionStep f
             (FilterSpec.maxBudgetStep f (FilterSpec.minBudgetStep f ps)))
  /\ In p (FilterSpec.dietaryStep f
             (FilterSpec.occasionStep f
                (FilterSpec.maxBudgetStep f (FilterSpec.minBudgetStep f ps))))
  /\ In p (FilterSpec.urgentStep f
             (FilterSpec.dietaryStep f
                (FilterSpec.occasionStep f
                   (FilterSpec.maxBudgetStep f (FilterSpec.minBudgetStep f ps))))).
Proof.
  rewrite filterProducts_steps. intros H4.
  pose proof (proj1 (in_urgentStep _ _ _ H4)) as H3.
  pose proof (proj1 (in_dietaryStep _ _ _ H3)) as H2.
  pose proof (proj1 (in_occasionStep _ _ _ H2)) as H1.
  auto.
Qed.

(** X2. Every product [filterProducts] returns has a price, and the price
    is within the bounds asked for: at least [minBudget], at most
    [maxBudget].  A product without [minPrice] passes no budget filter. *)
Theorem filterProducts_within_budget :
  forall (ps : list Product.t) (f : Filters.t) (p : Product.t),
    In p (filterProducts ps f) ->
    (forall bound, Filters.minBudget f = Some bound ->
       exists price, Product.minPrice p = Some price /\ (bound <= price)%Q)
    /\ (forall bound, Filters.maxBudget f = Some bound ->
          exists price, Product.minPrice p = Some price /\ (price <= bound)%Q).
Proof.
  intros ps f p H. apply in_filterProducts_steps in H as [H _].
  apply in_maxBudgetStep in H as [H Hmax].
  apply in_minBudgetStep in H as [_ Hmin]. auto.
Qed.

(** X3. With a lower bound above the upper bound no product passes:
    [filterProducts] returns the empty list. *)
Theorem filterProducts_crossed_budget_is_empty :
  forall (ps : list Product.t) (f : Filters.t) (lo hi : Q),
    Filters.minBudget f = Some lo ->
    Filters.maxBudget f = Some hi ->
    (hi < lo)%Q ->
    filterProducts ps f = [].
Proof.
  intros ps f lo hi Hlo Hhi Hcross.
  destruct (filterProducts ps f) as [|p rest] eqn:E; [reflexivity|].
  exfalso.
  assert (Hin : In p (filterProducts ps f)) by (rewrite E; now left).
  apply filterProducts_within_budget in Hin as [Hmin Hmax].
  destruct (Hmin lo Hlo) as [x [Ex Hx]].
  destruct (Hmax hi Hhi) as [y [Ey Hy]].
  rewrite Ex in Ey. injection Ey as <-.
  apply (Qlt_irrefl lo).
  apply Qle_lt_trans with (y := x); [assumption|].
  now apply Qle_lt_trans with (y := hi).
Qed.

(** A budget from 8 down to 3 over the sample catalog. *)
Lemma filterProducts_crossed_budget_witness :
  filterProducts Sample.catalog (Filters.mk (Some 8%Q) (Some 3%Q) None None false) = [].
Proof.
  apply (filterProducts_crossed_budget_is_empty Sample.catalog _ 8%Q 3%Q);
    reflexivity.
Defined.

(** X4. No product [filterProducts] returns has an excluded term in its
    ingredient text (compared without case), and with urgent delivery asked
    for every one of them is flagged for one-hour delivery. *)
Theorem filterProducts_dietary_and_urgent :
  forall (ps : list Product.t) (f : Filters.t) (p : Product.t),
    In p (filterProducts ps f) ->
    (forall terms, Filters.excludeIngredients f = Some terms ->
       FilterSpec.containsExcluded terms p = false)
    /\ (Filters.urgentDelivery f = true -> Product.isOneHourDelivery p = true).
Proof.
  intros ps f p H. apply in_filterProducts_steps in H as [_ [_ [H3 H4]]].
  split.
  - now apply in_dietaryStep in H3 as [_ H3].
  - now apply in_urgentStep in H4 as [_ H4].
Qed.

(** X5. With an occasion asked for, either every product [filterProducts]
    returns matches it, or no product within budget does. *)
Theorem filterProducts_occasion_all_or_none :
  forall (ps : list Product.t) (f : Filters.t) (target : string),
    FilterSpec.requestedOccasion f = Some target ->
    Forall (fun p => FilterSpec.occasionMatches target p = true) (filterProducts ps f)
    \/ filter (FilterSpec.occasionMatches target)
         (FilterSpec.maxBudgetStep f (FilterSpec.minBudgetStep f ps)) = [].
Proof.
  intros ps f target Hreq.
  destruct (filter (FilterSpec.occasionMatches target)
              (FilterSpec.maxBudgetStep f (FilterSpec.minBudgetStep f ps))) eqn:E;
    [now right | left].
  apply Forall_forall. intros p H.
  apply in_filterProducts_steps in H as [_ [H _]].
  apply in_occasionStep in H as [_ H].
  destruct (H target Hreq) as [Hm|Hnone]; [assumption|].
  rewrite E in Hnone. discriminate.
Qed.

(** The sample products are for birthdays. *)
Lemma filterProducts_occasion_witness :
  Forall (fun p => FilterSpec.occasionMatches "Birthday" p = true)
         (filterProducts Sample.catalog (Filters.mk None None (Some "Birthday") None false))
  \/ filter (FilterSpec.occasionMatches "Birthday") Sample.catalog = [].
Proof.
  apply (filterProducts_occasion_all_or_none Sample.catalog
           (Filters.mk None None (Some "Birthday") None false) "Birthday").
  reflexivity.
Defined.

(** ** The ranking of [filterAndRank] *)

Lemma rankCompare_ranksBefore (a b : Product.t) :
  Qle_bool (rankCompare a b) 0 = true <-> RankSpec.ranksBefore a b.
Proof.
  rewrite Qle_bool_iff. unfold rankCompare, RankSpec.ranksBefore.
  destruct (Z.eqb_spec (topSeller a) (topSeller b)) as [E|Hne]; simpl.
  - rewrite E. split.
    + intros H. right. split; [reflexivity | lra].
    + intros [H|[_ H]]; [lia | lra].
  - change 0%Q with (inject_Z 0). rewrite <- Zle_Qle. split.
    + intros H. left. lia.
    + intros [H|[H _]]; [lia | contradiction].
Qed.

Lemma ranksBefore_total (a b : Product.t) :
  RankSpec.ranksBefore a b \/ RankSpec.ranksBefore b a.
Proof.
  unfold RankSpec.ranksBefore.
  destruct (Z.lt_trichotomy (topSeller a) (topSeller b)) as [H|[H|H]]; auto.
  destruct (Qlt_le_dec (scoreOrZero a) (scoreOrZero b)) as [Hlt|Hle].
  - right. right. split; [auto | now apply Qlt_le_weak].
  - left. right. auto.
Qed.

Lemma ranksBefore_trans (a b c : Product.t) :
  RankSpec.ranksBefore a b -> RankSpec.ranksBefore b c -> RankSpec.ranksBefore a c.
Proof.
  unfold RankSpec.ranksBefore.
  intros [H1|[E1 H1]] [H2|[E2 H2]].
  - left. lia.
  - left. lia.
  - left. lia.
  - right. split; [congruence | lra].
Qed.

Lemma insertSorted_permutes {A} (cmp : A -> A -> Q) (x : A) (l : list A) :
  Permutation (insertSorted cmp x l) (x :: l).
Proof.
  induction l as [|y l IH]; simpl; [reflexivity|].
  destruct (Qle_bool (cmp x y) 0); [reflexivity|].
  rewrite IH. apply perm_swap.
Qed.

Lemma sort_permutes {A} (cmp : A -> A -> Q) (l : list A) :
  Permutation (sort cmp l) l.
Proof.
  induction l as [|x l IH]; simpl; [reflexivity|].
  fold (sort cmp l). rewrite insertSorted_permutes. now constructor.
Qed.

Lemma insertSorted_ranked (x : Product.t) (l : list Product.t) :
  StronglySorted RankSpec.ranksBefore l ->
  StronglySorted RankSpec.ranksBefore (insertSorted rankCompare x l).
Proof.
  induction 1 as [|y l Hsorted IH Hall]; simpl.
  - repeat constructor.
  - destruct (Qle_bool (rankCompare x y) 0) eqn:E.
    + apply rankCompare_ranksBefore in E.
      constructor; [now constructor|].
      constructor; [assumption|].
      eapply Forall_impl; [|exact Hall].
      intros z Hz. now apply ranksBefore_trans with (b := y).
    + constructor; [assumption|].
      eapply Permutation_Forall.
      * symmetry. apply insertSorted_permutes.
      * constructor; [|assumption].
        destruct (ranksBefore_total x y) as [Hxy|Hyx]; [|assumption].
        apply rankCompare_ranksBefore in Hxy. congruence.
Qed.

Lemma sort_ranked (l : list Product.t) :
  StronglySorted RankSpec.ranksBefore (sort rankCompare l).
Proof.
  induction l as [|x l IH]; simpl; [constructor|].
  fold (sort rankCompare l). now apply insertSorted_ranked.
Qed.

Lemma sameRank_ranksBefore (k x y : Product.t) :
  RankSpec.sameRank k x = true -> RankSpec.sameRank k y = true ->
  Qle_bool (rankCompare x y) 0 = true.
Proof.
  unfold RankSpec.sameRank. intros Hx Hy.
  apply andb_true_iff in Hx as [Hx1 Hx2]. apply andb_true_iff in Hy as [Hy1 Hy2].
  apply Z.eqb_eq in Hx1, Hy1. apply Qeq_bool_iff in Hx2, Hy2.
  apply rankCompare_ranksBefore. right. split; [congruence|].
  rewrite <- Hx2, <- Hy2. apply Qle_refl.
Qed.

Lemma insertSorted_stable (k x : Product.t) (l : list Product.t) :
  filter (RankSpec.sameRank k) (insertSorted rankCompare x l) =
  filter (RankSpec.sameRank k) (x :: l).
Proof.
  induction l as [|y l IH]; [reflexivity|].
  cbn [insertSorted].
  destruct (Qle_bool (rankCompare x y) 0) eqn:E; [reflexivity|].
  cbn [filter] in *. rewrite IH.
  destruct (RankSpec.sameRank k x) eqn:Ex, (RankSpec.sameRank k y) eqn:Ey;
    try reflexivity.
  rewrite (sameRank_ranksBefore k x y Ex Ey) in E. discriminate.
Qed.

Lemma sort_stable (k : Product.t) (l : list Product.t) :
  filter (RankSpec.sameRank k) (sort rankCompare l) = filter (RankSpec.sameRank k) l.
Proof.
  induction l as [|x l IH]; [reflexivity|].
  cbn [sort fold_right]. fold (sort rankCompare l).
  rewrite insertSorted_stable. cbn [filter]. now rewrite IH.
Qed.

(** X6. The ranking only reorders: [filterAndRank] returns the products
    [filterProducts] keeps, each as often as there. *)
Theorem filterAndRank_permutes :
  forall (ps : list Product.t) (i : Intent.t),
    Permutation (filterAndRank ps i) (filterProducts ps (filtersOfIntent i)).
Proof. intros ps i. apply sort_permutes. Qed.

(** X7. In the result of [filterAndRank] every product stands before the
    ones after it by rank: no product without the Top Seller tag before one
    with it, and under the same tag status no lower score before a higher
    one. *)
Theorem filterAndRank_ranked :
  forall (ps : list Product.t) (i : Intent.t),
    StronglySorted RankSpec.ranksBefore (filterAndRank ps i).
Proof. intros ps i. apply sort_ranked. Qed.

(** X8. The ranking is stable: products with the same tag status and the
    same score keep the order [filterProducts] left them in. *)
Theorem filterAndRank_stable :
  forall (ps : list Product.t) (i : Intent.t) (k : Product.t),
    filter (RankSpec.sameRank k) (filterAndRank ps i) =
    filter (RankSpec.sameRank k) (filterProducts ps (filtersOfIntent i)).
Proof. intros ps i k. apply sort_stable. Qed.

(** ** Where the reconciled products come from *)

Lemma in_found (p : Display.t) (os : list (option Display.t)) :
  In p (MentionSpec.found os) <-> In (Some p) os.
Proof.
  induction os as [|[q|] os IH]; simpl.
  - tauto.
  - rewrite IH. split; intros [H|H]; auto; left; congruence.
  - rewrite IH. split; [auto | intros [H|H]; [discriminate | assumption]].
Qed.

Lemma in_set {V} (k k' : string) (v v' : V) (m : JsMap.t V) :
  In (k', v') (JsMap.set k v m) -> (k', v') = (k, v) \/ In (k', v') m.
Proof.
  induction m as [|[k0 v0] m IH]; simpl.
  - intros [H|[]]. left. congruence.
  - destruct (String.eqb_spec k k0) as [->|Hne]; simpl.
    + intros [H|H]; [left; congruence | auto].
    + intros [H|H]; [auto | destruct (IH H); auto].
Qed.

Lemma in_entries {V} (es : list (string * V)) (m : JsMap.t V) (e : string * V) :
  In e (fold_left setEntry es m) -> In e es \/ In e m.
Proof.
  revert m. induction es as [|[k v] es IH]; intros m; simpl; [auto|].
  intros H. apply IH in H as [H|H]; [auto|].
  destruct e as [k' v']. unfold setEntry in H. simpl in H.
  apply in_set in H as [H|H]; auto.
Qed.

Lemma in_ofEntries {V} (es : list (string * V)) (e : string * V) :
  In e (JsMap.ofEntries es) -> In e es.
Proof.
  unfold JsMap.ofEntries.
  change (fun m e => JsMap.set (fst e) (snd e) m) with (@setEntry V).
  intros H. apply in_entries in H as [H|[]]. assumption.
Qed.

Lemma in_delete {V} (k : string) (m : JsMap.t V) (e : string * V) :
  In e (JsMap.delete k m) -> In e m.
Proof.
  induction m as [|[k0 v0] m IH]; simpl; [auto|].
  destruct (String.eqb k k0); simpl; [auto|]. intros [H|H]; auto.
Qed.

Lemma in_delete_all {V} (ids : list string) (m : JsMap.t V) (e : string * V) :
  In e (fold_left (fun m id => JsMap.delete id m) ids m) -> In e m.
Proof.
  revert m. induction ids as [|id ids IH]; intros m; simpl; [auto|].
  intros H. apply IH in H. eapply in_delete, H.
Qed.

(** The lookup against the two maps, whatever the lists they were built
    from. *)
Lemma lookupMentioned_maps_resolve (d a : list Display.t) (id : string) :
  MentionSpec.resolves d a id
    (lookupMentioned (JsMap.ofEntries (keyed d)) (JsMap.ofEntries (keyed a)) id).
Proof.
  unfold lookupMentioned, MentionSpec.resolves, MentionSpec.listed.
  pose proof (ofEntries_get (keyed d) id) as Hd.
  pose proof (ofEntries_get (keyed a) id) as Ha.
  change (map fst (keyed d)) with (JsMap.keys (keyed d)) in Hd.
  change (map fst (keyed a)) with (JsMap.keys (keyed a)) in Ha.
  rewrite keys_keyed in Hd, Ha.
  destruct (JsMap.get id (JsMap.ofEntries (keyed d))) as [p|].
  - apply in_keyed in Hd. tauto.
  - destruct (JsMap.get id (JsMap.ofEntries (keyed a))) as [p|].
    + apply in_keyed in Ha. tauto.
    + tauto.
Qed.

Lemma lookups_maps_resolve (d a : list Display.t) (ids : list string) :
  Forall2 (MentionSpec.resolves d a) ids
    (map (lookupMentioned (JsMap.ofEntries (keyed d)) (JsMap.ofEntries (keyed a))) ids).
Proof.
  induction ids as [|id ids IH]; simpl; constructor;
    [apply lookupMentioned_maps_resolve | assumption].
Qed.

(** What [reorderProductsByMention] returns once something is mentioned,
    whatever the lists. *)
Lemma reorder_shape (aiResponse : string) (d a : list Display.t) :
  extractMentionedIds aiResponse <> [] ->
  let mentioned := extractMentionedIds aiResponse in
  let displayMap := JsMap.ofEntries (keyed d) in
  let picked :=
    MentionSpec.found
      (map (lookupMentioned displayMap (JsMap.ofEntries (keyed a))) mentioned) in
  reorderProductsByMention aiResponse d a =
  picked ++ firstn (8 - length picked)
              (JsMap.values
                 (fold_left (fun m id => JsMap.delete id m) mentioned displayMap)).
Proof.
  intros Hne mentioned displayMap picked.
  unfold reorderProductsByMention. fold mentioned.
  destruct (length mentioned =? 0) eqn:E0.
  { apply length_zero_nil in E0. contradiction. }
  fold displayMap.
  rewrite place_loop by apply extractMentionedIds_NoDup.
  rewrite app_nil_l. fold picked.
  destruct (Z.ltb_spec 0 (8 - Z.of_nat (length picked))) as [Hlt|Hge].
  - replace (Z.to_nat (8 - Z.of_nat (length picked))) with (8 - length picked) by lia.
    reflexivity.
  - replace (8 - length picked) with 0 by lia. simpl. now rewrite app_nil_r.
Qed.

(** X9. [reorderProductsByMention] invents nothing: every product of its
    result is a product of the nominal list or of the broader list. *)
Theorem reorderProductsByMention_from_the_lists :
  forall (aiResponse : string) (displayProducts allAvailableProducts : list Display.t)
         (p : Display.t),
    In p (reorderProductsByMention aiResponse displayProducts allAvailableProducts) ->
    In p displayProducts \/ In p allAvailableProducts.
Proof.
  intros r d a p H.
  destruct (extractMentionedIds r) as [|id0 ids0] eqn:Em.
  - rewrite reorder_none in H by assumption. now left.
  - assert (Hne : extractMentionedIds r <> []) by (rewrite Em; discriminate).
    rewrite reorder_shape in H by assumption.
    apply in_app_or in H as [H|H].
    + apply in_found, in_map_iff in H as [id [Hid _]].
      pose proof (lookupMentioned_maps_resolve d a id) as Hres.
      rewrite Hid in Hres. simpl in Hres. tauto.
    + apply in_firstn in H. unfold JsMap.values in H.
      apply in_map_iff in H as [[k q] [Eq H]]. simpl in Eq. subst q.
      apply in_delete_all, in_ofEntries, in_keyed in H. tauto.
Qed.

(** A product of the sample result. *)
Lemma reorderProductsByMention_from_the_lists_witness :
  In (Sample.shown 55 "item") Sample.nominal
  \/ In (Sample.shown 55 "item") Sample.broader.
Proof.
  apply (reorderProductsByMention_from_the_lists "[ID:20][ID:55][ID:20]").
  vm_compute. auto.
Defined.

(** ** The size of the reconciled list *)

Lemma picked_count (d a : list Display.t) (ids : list string)
    (os : list (option Display.t)) :
  NoDup ids ->
  Forall2 (MentionSpec.resolves d a) ids os ->
  incl (displayIds d) (displayIds a) ->
  length (MentionSpec.found os) <= length a.
Proof.
  intros Hnd Hres Hincl.
  replace (length (MentionSpec.found os))
    with (length (displayIds (MentionSpec.found os)))
    by (unfold displayIds; apply length_map).
  replace (length a) with (length (displayIds a))
    by (unfold displayIds; apply length_map).
  rewrite (found_ids d a ids os Hres).
  apply NoDup_incl_length.
  - now apply NoDup_filter.
  - intros id Hid. apply filter_In in Hid as [_ Hknown].
    apply orb_true_iff in Hknown as [H|H]; apply mentioned_iff_In in H; auto.
Qed.

Lemma reorder_length (aiResponse : string) (d a : list Display.t) :
  length d <= 8 ->
  incl (displayIds d) (displayIds a) ->
  length (reorderProductsByMention aiResponse d a) <= Nat.max 8 (length a).
Proof.
  intros Hd Hincl.
  destruct (extractMentionedIds aiResponse) as [|id0 ids0] eqn:Em.
  - rewrite reorder_none by assumption. lia.
  - assert (Hne : extractMentionedIds aiResponse <> []) by (rewrite Em; discriminate).
    rewrite reorder_shape by assumption. rewrite Em.
    pose proof (picked_count d a (id0 :: ids0) _
                  (eq_ind _ (@NoDup string) (extractMentionedIds_NoDup aiResponse) _ Em)
                  (lookups_maps_resolve d a (id0 :: ids0)) Hincl) as Hp.
    rewrite length_app.
    pose proof (firstn_le_length
                  (8 - length (MentionSpec.found
                     (map (lookupMentioned (JsMap.ofEntries (keyed d))
                             (JsMap.ofEntries (keyed a))) (id0 :: ids0))))
                  (JsMap.values
                     (fold_left (fun m id => JsMap.delete id m) (id0 :: ids0)
                        (JsMap.ofEntries (keyed d))))) as Hf.
    lia.
Qed.

Lemma firstn_8_of_10 {A} (l : list A) : firstn 8 l = firstn 8 (firstn 10 l).
Proof. rewrite firstn_firstn. reflexivity. Qed.

(** What [processMessage] can return as products: nothing, on the
    clarification branch, or the reconciliation of the first 8 and the
    first 10 of a ranked list. *)
Lemma processMessage_products env userMessage history w r w' :
  processMessage env userMessage history w = (Ok r, w') ->
  products r = []
  \/ exists ranked aiResponse,
       products r =
       reorderProductsByMention aiResponse
         (map formatProductForDisplay (firstn 8 ranked))
         (map formatProductForDisplay (firstn 10 ranked)).
Proof.
  unfold processMessage. unfold bind at 1.
  destruct (extractIntent env userMessage history w) as [[i|e] w1]; [|discriminate].
  destruct (Intent.needs_clarification i).
  - unfold bind, ret. destruct (callLLM env _ _ _ w1) as [[text|e] w2]; [|discriminate].
    intros [= <- _]. now left.
  - unfold bind at 1.
    destruct (searchFromIntent env i w1) as [[[allProducts i']|e] w2]; [|discriminate].
    unfold bind, ret. destruct (callLLM env _ _ _ w2) as [[text|e] w3]; [|discriminate].
    intros [= <- _]. right.
    exists (filterAndRank allProducts i'), text. reflexivity.
Qed.

(** X10. [processMessage] never returns more than 10 products: the
    reconciled list holds at most the 10 products the model was shown. *)
Theorem processMessage_at_most_ten_products :
  forall (env : Env) (userMessage : string) (conversationHistory : list Message)
         (w w' : World) (r : PipelineResult),
    processMessage env userMessage conversationHistory w = (Ok r, w') ->
    length (products r) <= 10.
Proof.
  intros env userMessage history w w' r H.
  apply processMessage_products in H as [->|[ranked [text ->]]]; [simpl; lia|].
  pose proof (reorder_length text
                (map formatProductForDisplay (firstn 8 ranked))
                (map formatProductForDisplay (firstn 10 ranked))) as Hlen.
  pose proof (firstn_le_length 8 ranked).
  pose proof (firstn_le_length 10 ranked).
  rewrite !length_map in Hlen.
  assert (Hincl : incl (displayIds (map formatProductForDisplay (firstn 8 ranked)))
                       (displayIds (map formatProductForDisplay (firstn 10 ranked)))).
  { rewrite (firstn_8_of_10 ranked). unfold displayIds.
    intros id Hid. rewrite in_map_iff in *. destruct Hid as [p [Ep Hp]].
    exists p. split; [assumption|]. rewrite in_map_iff in *.
    destruct Hp as [q [Eq Hq]]. exists q. split; [assumption|].
    eapply in_firstn, Hq. }
  specialize (Hlen ltac:(lia) Hincl). lia.
Qed.

(** The turn in which the sample model tags ten products. *)
Lemma processMessage_at_most_ten_witness :
  length (products
            {| message := Sample.tenTags;
               products := map formatProductForDisplay Sample.catalog;
               intent := Sample.intent |}) <= 10.
Proof.
  apply (processMessage_at_most_ten_products Sample.online "birthday gift for mom" []
           Sample.start
           (snd (processMessage Sample.online "birthday gift for mom" [] Sample.start))).
  vm_compute. reflexivity.
Defined.



(** ** Tags written and tags read *)

Lemma execAll_digits (s : string) (skip : nat) (id : string) :
  In id (execAll s skip) -> allDigits id = true /\ id <> EmptyString.
Proof.
  revert skip. induction s as [|c s IH]; intros skip; [intros []|].
  cbn [execAll]. destruct skip as [|k]; [|apply IH].
  destruct (matchIdTag (String c s)) as [found|] eqn:Em; [|apply IH].
  intros [<-|Hin]; [|eapply IH, Hin].
  apply matchIdTag_spec in Em as [rest [_ [Hne Hd]]]. auto.
Qed.

(** X12. Every identifier [reorderProductsByMention] reads from the text is
    a non-empty string of decimal digits: a product whose identifier prints
    otherwise is never taken as mentioned. *)
Theorem mentioned_ids_are_digit_strings :
  forall (aiResponse : string),
    Forall (fun id => allDigits id = true /\ id <> EmptyString)
           (extractMentionedIds aiResponse).
Proof.
  intros r. apply Forall_forall. intros id Hid.
  rewrite extractMentionedIds_firstMentions in Hid.
  apply firstMentions_fresh in Hid as [Hid _].
  eapply execAll_digits, Hid.
Qed.

Lemma append_assoc (a b c : string) :
  String.append (String.append a b) c = String.append a (String.append b c).
Proof. induction a as [|x a IH]; simpl; [reflexivity | now rewrite IH]. Qed.

Lemma append_length (a b : string) :
  String.length (String.append a b) = String.length a + String.length b.
Proof. induction a as [|x a IH]; simpl; [reflexivity | now rewrite IH]. Qed.

Lemma matchIdTag_not_bracket (c : ascii) (s : string) :
  Ascii.eqb c "[" = false -> matchIdTag (String c s) = None.
Proof.
  intros H. destruct c as [[] [] [] [] [] [] [] []];
    try reflexivity; discriminate H.
Qed.

Lemma execAll_no_bracket (pre s : string) :
  hasChar "[" pre = false -> execAll (String.append pre s) 0 = execAll s 0.
Proof.
  induction pre as [|c pre IH]; [reflexivity|].
  cbn [hasChar String.append execAll]. intros H.
  apply orb_false_iff in H as [Hc Hpre].
  rewrite (matchIdTag_not_bracket c _ Hc). auto.
Qed.

Lemma execAll_skip (a b : string) :
  execAll (String.append a b) (String.length a) = execAll b 0.
Proof. induction a as [|c a IH]; [reflexivity | exact IH]. Qed.

Lemma execAll_tag (id post : string) :
  allDigits id = true -> id <> EmptyString ->
  execAll (String.append "[ID:" (String.append id (String "]" post))) 0 =
  id :: execAll post 0.
Proof.
  intros Hd Hne.
  assert (Hm : matchIdTag (String.append "[ID:" (String.append id (String "]" post)))
               = Some id)
    by (apply matchIdTag_spec; exists post; auto).
  change (String.append "[ID:" (String.append id (String "]" post)))
    with (String "[" (String.append "ID:" (String.append id (String "]" post)))) in *.
  cbn [execAll]. rewrite Hm. f_equal.
  replace (String.append "ID:" (String.append id (String "]" post)))
    with (String.append (String.append "ID:" (String.append id "]")) post)
    by (rewrite !append_assoc; reflexivity).
  replace (4 + String.length id)
    with (String.length (String.append "ID:" (String.append id "]")))
    by (rewrite !append_length; simpl; lia).
  apply execAll_skip.
Qed.

Lemma uint_digits (u : Decimal.uint) :
  allDigits (NilEmpty.string_of_uint u) = true.
Proof. induction u; simpl; auto. Qed.

(** A whole number that a JavaScript number holds exactly prints as a
    non-empty string of digits. *)
Lemma safe_number_digits (n : N) :
  (n <= MAX_SAFE_INTEGER)%N ->
  allDigits (String_ (IdNum n)) = true /\ String_ (IdNum n) <> EmptyString.
Proof.
  intros _. unfold String_, NilZero.string_of_uint.
  destruct (N.to_uint n) eqn:E; simpl; split;
    try reflexivity; try discriminate; apply uint_digits.
Qed.

(** The first tag of a text is the first identifier read from it. *)
Lemma tag_read_first (key pre post : string) :
  allDigits key = true ->
  key <> EmptyString ->
  hasChar "[" pre = false ->
  exists others,
    extractMentionedIds
      (String.append pre
         (String.append (String.append "[ID:" (String.append key "]")) post))
    = key :: others.
Proof.
  intros Hd Hne Hpre.
  rewrite extractMentionedIds_firstMentions, execAll_no_bracket by assumption.
  rewrite !append_assoc.
  change (String.append "]" post) with (String "]" post).
  rewrite execAll_tag by assumption.
  cbn [MentionSpec.firstMentions existsb]. eauto.
Qed.

(** X13. The tag the prompts write for a product is the tag the
    reconciliation reads.  For an identifier that is a string, or a whole
    number up to 2^53 - 1 (the numbers JavaScript holds and prints
    exactly), and that prints as a non-empty string of digits: in a text
    that has its tag after a stretch without [[], that identifier is the
    first one mentioned.  Every whole number up to 2^53 - 1 prints as a
    non-empty string of digits. *)
Theorem written_tag_is_read_first :
  (forall (i : JsId) (pre post : string),
      safeId i ->
      allDigits (String_ i) = true ->
      String_ i <> EmptyString ->
      hasChar "[" pre = false ->
      exists others,
        extractMentionedIds (String.append pre (String.append (idTag i) post))
        = String_ i :: others)
  /\ (forall n : N,
        safeId (IdNum n) ->
        allDigits (String_ (IdNum n)) = true /\ String_ (IdNum n) <> EmptyString).
Proof.
  split; [|intros n Hn; now apply safe_number_digits].
  intros i pre post _ Hd Hne Hpre. now apply tag_read_first.
Qed.

(** The answer "Try Berry Box [ID:20] today". *)
Lemma written_tag_is_read_first_witness :
  (exists others,
      extractMentionedIds
        (String.append "Try Berry Box " (String.append (idTag (IdNum 20)) " today"))
      = "20" :: others)
  /\ allDigits (String_ (IdNum 20)) = true
  /\ String_ (IdNum 20) <> EmptyString.
Proof.
  split.
  - apply (proj1 written_tag_is_read_first (IdNum 20) "Try Berry Box " " today").
    + vm_compute. discriminate.
    + reflexivity.
    + discriminate.
    + reflexivity.
  - apply (proj2 written_tag_is_read_first 20%N). vm_compute. discriminate.
Defined.

Lemma get_keyed_in (p : Display.t) (d : list Display.t) :
  NoDup (displayIds d) -> In p d ->
  JsMap.get (String_ (Display.id p)) (keyed d) = Some p.
Proof.
  induction d as [|q d IH]; simpl; intros Hnd Hin; [contradiction|].
  inversion Hnd as [|? ? Hnotin Hnd']; subst.
  destruct Hin as [->|Hin].
  - now rewrite String.eqb_refl.
  - destruct (String.eqb_spec (String_ (Display.id p)) (String_ (Display.id q)))
      as [E|Hne]; [|auto].
    exfalso. apply Hnotin. rewrite <- E. now apply in_displayIds.
Qed.

(** X14. The product tagged first is displayed first.  Take a product of
    the nominal list whose identifier is a string, or a whole number up to
    2^53 - 1, and prints as a non-empty string of digits, and let the keys
    [String(p.id)] of the nominal list be pairwise distinct.  When the text
    has the tag of that product after a stretch without [[], the
    reconciled list starts with that product. *)
Theorem first_tagged_product_is_displayed_first :
  forall (p : Display.t) (pre post : string)
         (displayProducts allAvailableProducts : list Display.t),
    safeId (Display.id p) ->
    allDigits (String_ (Display.id p)) = true ->
    String_ (Display.id p) <> EmptyString ->
    hasChar "[" pre = false ->
    NoDup (displayIds displayProducts) ->
    In p displayProducts ->
    exists others,
      reorderProductsByMention
        (String.append pre (String.append (idTag (Display.id p)) post))
        displayProducts allAvailableProducts
      = p :: others.
Proof.
  intros p pre post d a _ Hd Hne Hpre Hnd Hin.
  destruct (tag_read_first (String_ (Display.id p)) pre post Hd Hne Hpre)
    as [others Hm].
  fold (idTag (Display.id p)) in Hm.
  rewrite reorder_mentioned; [|assumption | rewrite Hm; discriminate].
  rewrite Hm. cbn [map]. unfold lookupMentioned at 1.
  rewrite (get_keyed_in p d Hnd Hin). cbn [MentionSpec.found app]. eauto.
Qed.

(** The sample product 30, tagged in "We suggest [ID:30] and [ID:10]". *)
Lemma first_tagged_product_witness :
  exists others,
    reorderProductsByMention
      (String.append "We suggest "
         (String.append (idTag (Display.id (Sample.shown 30 "item"))) " and [ID:10]"))
      Sample.nominal Sample.broader
    = Sample.shown 30 "item" :: others.
Proof.
  apply (first_tagged_product_is_displayed_first (Sample.shown 30 "item")).
  - vm_compute. discriminate.
  - reflexivity.
  - discriminate.
  - reflexivity.
  - vm_compute. exact sample_ids_NoDup.
  - vm_compute. auto.
Defined.

(** ** The search cache *)

Lemma nonblank_keyword_test (keyword : string) :
  Js.trim keyword <> EmptyString ->
  (String.length keyword =? 0) || (String.length (Js.trim keyword) =? 0) = false.
Proof.
  intros H. apply orb_false_iff. split.
  - destruct keyword; [exfalso; now apply H | reflexivity].
  - destruct (Js.trim keyword); [congruence | reflexivity].
Qed.

(** X15. A cache entry younger than five minutes answers the search: the
    stored products come back, the clock is read once, no request goes out
    and the cache stays as it is.  The entry is looked up under the
    keyword in lower case, trimmed. *)
Theorem searchProducts_fresh_entry_is_served :
  forall (env : Env) (keyword : string) (w : World) (cached : CacheEntry),
    Js.trim keyword <> EmptyString ->
    JsMap.get (Js.trim (Js.toLowerCase keyword)) (searchCache w) = Some cached ->
    (Date_now env (length (log w)) - timestamp cached < CACHE_TTL)%Z ->
    searchProducts env keyword w =
      (Ok (data cached),
       {| searchCache := searchCache w; log := log w ++ [EvDateNow] |}).
Proof.
  intros env keyword w cached Hkw Hget Hfresh.
  unfold searchProducts, searchProducts_start.
  rewrite nonblank_keyword_test by assumption.
  unfold now, bind, getCache, calls, emit, ret. cbv beta iota.
  rewrite Hget. cbv beta iota. cbn [searchCache log].
  apply Z.ltb_lt in Hfresh. rewrite Hfresh. reflexivity.
Qed.

(** X16. A cache entry of five minutes or more is not served: it is
    deleted, and the search sends its request. *)
Theorem searchProducts_stale_entry_is_dropped :
  forall (env : Env) (keyword : string) (w : World) (cached : CacheEntry),
    Js.trim keyword <> EmptyString ->
    JsMap.get (Js.trim (Js.toLowerCase keyword)) (searchCache w) = Some cached ->
    (CACHE_TTL <= Date_now env (length (log w)) - timestamp cached)%Z ->
    let cacheKey := Js.trim (Js.toLowerCase keyword) in
    searchProducts_start env keyword w =
      (Ok (Awaiting cacheKey (catalogEndpoint env (S (length (log w))) cacheKey)),
       {| searchCache := JsMap.delete cacheKey (searchCache w);
          log := log w ++ [EvDateNow; EvCatalogFetch cacheKey] |}).
Proof.
  intros env keyword w cached Hkw Hget Hstale cacheKey. subst cacheKey.
  unfold searchProducts_start.
  rewrite nonblank_keyword_test by assumption.
  unfold now, bind, getCache, calls, emit, ret, putCache. cbv beta iota.
  rewrite Hget. cbv beta iota. cbn [searchCache log].
  apply Z.ltb_ge in Hstale. rewrite Hstale. cbv beta iota.
  cbn [searchCache log]. rewrite length_app, <- app_assoc. simpl.
  rewrite Nat.add_1_r. reflexivity.
Qed.

Lemma get_set_same {V} (k : string) (v : V) (m : JsMap.t V) :
  JsMap.get k (JsMap.set k v m) = Some v.
Proof. rewrite get_set. now rewrite String.eqb_refl. Qed.

(** X17. A successful search is remembered: after a search that found no
    entry and got a success answer with products, a search for any keyword
    with the same lower-case trimmed form, made while the clock is less
    than five minutes past the first answer, returns the same products
    without a request. *)
Theorem searchProducts_answer_is_reused :
  forall (env : Env) (keyword again : string) (w : World)
         (status : N) (found : list Product.t),
    Js.trim keyword <> EmptyString ->
    Js.trim again <> EmptyString ->
    Js.trim (Js.toLowerCase again) = Js.trim (Js.toLowerCase keyword) ->
    JsMap.get (Js.trim (Js.toLowerCase keyword)) (searchCache w) = None ->
    catalogEndpoint env (length (log w)) (Js.trim (Js.toLowerCase keyword))
      = Response true status (Some found) ->
    (Date_now env (length (log w) + 2) - Date_now env (length (log w) + 1)
       < CACHE_TTL)%Z ->
    exists w1,
      searchProducts env keyword w = (Ok found, w1)
      /\ searchProducts env again w1 =
           (Ok found, {| searchCache := searchCache w1; log := log w1 ++ [EvDateNow] |})
      /\ log w1 = log w ++ [EvCatalogFetch (Js.trim (Js.toLowerCase keyword)); EvDateNow].
Proof.
  intros env keyword again w status found Hkw Hagain Hsame Hmiss Hanswer Hclock.
  set (cacheKey := Js.trim (Js.toLowerCase keyword)) in *.
  set (t := Date_now env (length (log w) + 1)) in *.
  exists {| searchCache :=
              JsMap.set cacheKey {| data := found; timestamp := t |} (searchCache w);
            log := log w ++ [EvCatalogFetch cacheKey; EvDateNow] |}.
  assert (Hfirst : searchProducts env keyword w =
            (Ok found,
             {| searchCache :=
                  JsMap.set cacheKey {| data := found; timestamp := t |} (searchCache w);
                log := log w ++ [EvCatalogFetch cacheKey; EvDateNow] |})).
  { unfold searchProducts, searchProducts_start. fold cacheKey.
    rewrite nonblank_keyword_test by assumption.
    unfold now, bind, getCache, calls, emit, ret, putCache. cbv beta iota.
    rewrite Hmiss. cbv beta iota. cbn [searchCache log searchProducts_finish].
    rewrite Hanswer. unfold bind, ret. cbn [negb searchCache log].
    cbv beta iota. cbn [searchCache log].
    unfold now, bind, getCache, putCache, calls, emit, ret. cbv beta iota.
    cbn [searchCache log]. subst t.
    rewrite length_app, <- app_assoc. reflexivity. }
  split; [exact Hfirst|]. split; [|reflexivity].
  apply (searchProducts_fresh_entry_is_served env again _
           {| data := found; timestamp := t |}).
  - assumption.
  - cbn [searchCache]. rewrite Hsame. fold cacheKey. apply get_set_same.
  - cbn [log timestamp]. rewrite length_app. simpl length.
    exact Hclock.
Qed.

(** ** The inference key *)

Lemma callLLM_without_key env msgs temp maxTokens w :
  Js.truthyStr (NVIDIA_NIM_API_KEY env) = false ->
  callLLM env msgs temp maxTokens w = (Throw missingKey, w).
Proof. intros H. unfold callLLM. now rewrite H. Qed.

Lemma callLLMStream_without_key env msgs temp maxTokens w :
  Js.truthyStr (NVIDIA_NIM_API_KEY env) = false ->
  callLLMStream env msgs temp maxTokens w = (Throw missingKey, w).
Proof. intros H. unfold callLLMStream. now rewrite H. Qed.

(** X18. Without a key for the inference service nothing is attempted:
    [processMessage] and [processMessageStream] throw the missing-key error
    and leave the process as it was (no request to the model or the
    catalog, the cache untouched), and so does [compareProducts] when two
    or more of the products are asked for. *)
Theorem turn_without_key_does_nothing :
  forall (env : Env) (userMessage : string) (conversationHistory : list Message)
         (w : World),
    Js.truthyStr (NVIDIA_NIM_API_KEY env) = false ->
    processMessage env userMessage conversationHistory w = (Throw missingKey, w)
    /\ processMessageStream env userMessage conversationHistory w
       = (Throw missingKey, w)
    /\ (forall productIds allProducts,
          2 <= length (filter (fun p => existsb (JsId_eqb (Product.id p)) productIds)
                              allProducts) ->
          compareProducts env productIds allProducts userMessage w
          = (Throw missingKey, w)).
Proof.
  intros env userMessage history w Hkey. repeat split.
  - unfold processMessage, extractIntent, bind.
    now rewrite callLLM_without_key.
  - unfold processMessageStream, extractIntent, bind.
    now rewrite callLLM_without_key.
  - intros productIds allProducts Hlen.
    unfold compareProducts. rewrite length_map.
    apply Nat.ltb_ge in Hlen. rewrite Hlen.
    unfold bind. now rewrite callLLM_without_key.
Qed.

(** ** A turn while the catalog is down *)

Lemma callLLM_result env msgs temp maxTokens w :
  modelAnswers env ->
  exists status body w',
    nimEndpoint env (length (log w))
      {| model := MODEL_ID; messages := msgs; temperature := temp;
         max_tokens := maxTokens; stream := false |}
    = Response true status (Some body)
    /\ callLLM env msgs temp maxTokens w = (Ok (Js.orStr body EmptyString), w')
    /\ searchCache w' = searchCache w.
Proof.
  intros [Hkey Hans]. unfold callLLM. rewrite Hkey. cbn [negb].
  unfold bind, calls, emit. cbv beta iota.
  destruct (Hans (length (log w))
              {| model := MODEL_ID; messages := msgs; temperature := temp;
                 max_tokens := maxTokens; stream := false |})
    as [status [body Hbody]].
  rewrite Hbody. cbn [negb]. unfold ret.
  exists status, body. eexists. repeat split.
Qed.

Lemma searchProducts_start_down env keyword w :
  catalogDown env -> searchCache w = [] ->
  exists p w',
    searchProducts_start env keyword w = (Ok p, w')
    /\ searchCache w' = [] /\ downPending p.
Proof.
  intros Hdown Hcache. unfold searchProducts_start.
  destruct ((String.length keyword =? 0) || (String.length (Js.trim keyword) =? 0)).
  - exists (Settled []), w. repeat split; assumption.
  - unfold bind, getCache, calls, emit, ret. cbv beta iota.
    rewrite Hcache. cbn [JsMap.get]. cbv beta iota.
    eexists. eexists. split; [reflexivity|]. split; [exact Hcache|].
    apply Hdown.
Qed.

Lemma searchProducts_finish_down env p w :
  downPending p -> searchProducts_finish env p w = (Ok [], w).
Proof.
  destruct p as [result|key [|ok status body]]; cbn [downPending SearchSpec.failed].
  - now intros ->.
  - reflexivity.
  - now intros ->.
Qed.

Lemma mapM_start_down env keywords w :
  catalogDown env -> searchCache w = [] ->
  exists ps w',
    mapM (searchProducts_start env) keywords w = (Ok ps, w')
    /\ searchCache w' = [] /\ Forall downPending ps.
Proof.
  intros Hdown. revert w. induction keywords as [|kw kws IH]; intros w Hcache.
  - exists [], w. repeat split; [assumption|constructor].
  - cbn [mapM]. unfold bind.
    destruct (searchProducts_start_down env kw w Hdown Hcache)
      as [p [w1 [-> [Hc1 Hp]]]].
    destruct (IH w1 Hc1) as [ps [w2 [-> [Hc2 Hps]]]].
    exists (p :: ps), w2. repeat split; [assumption|now constructor].
Qed.

Lemma mapM_finish_down env ps w :
  Forall downPending ps ->
  mapM (searchProducts_finish env) ps w = (Ok (map (fun _ => []) ps), w).
Proof.
  induction 1 as [|p ps Hp _ IH]; [reflexivity|].
  cbn [mapM map]. unfold bind.
  now rewrite (searchProducts_finish_down env p w Hp), IH.
Qed.

Lemma mergeResults_nothing {A} (l : list A) :
  mergeResults (map (fun _ => []) l) = [].
Proof.
  unfold mergeResults.
  assert (H : forall st,
             fold_left (fun st resultSet => fold_left mergeStep resultSet st)
                       (map (fun _ : A => @nil Product.t) l) st = st)
    by (induction l as [|a l IH]; intros st; [reflexivity|apply IH]).
  now rewrite H.
Qed.

Lemma multiSearch_down env keywords w :
  catalogDown env -> searchCache w = [] ->
  exists w', multiSearch env keywords w = (Ok [], w') /\ searchCache w' = [].
Proof.
  intros Hdown Hcache. unfold multiSearch.
  destruct keywords as [kws|]; [|now exists w].
  destruct (length kws =? 0); [now exists w|].
  unfold bind, searchAll, bind.
  destruct (mapM_start_down env kws w Hdown Hcache) as [ps [w1 [-> [Hc1 Hps]]]].
  rewrite (mapM_finish_down env ps w1 Hps).
  exists w1. split; [|assumption].
  unfold ret. now rewrite mergeResults_nothing.
Qed.

Lemma reorderProductsByMention_nothing (aiResponse : string) :
  reorderProductsByMention aiResponse [] [] = [].
Proof.
  unfold reorderProductsByMention.
  destruct (length (extractMentionedIds aiResponse) =? 0); [reflexivity|].
  cbn [keyed map JsMap.ofEntries fold_left].
  assert (H : forall ids,
             fold_left (placeMentioned (@nil (string * Display.t))) ids ([], [])
             = ([], []))
    by (induction ids as [|i ids IH]; [reflexivity|exact IH]).
  rewrite H. reflexivity.
Qed.

(** X19. A turn while the catalog is down.  The key is set, the inference
    service answers every request with a success status and a completion
    whose content is a string or is absent, [JSON.parse] throws on its
    answer to the intent request (fences stripped), every request to the
    catalog is refused or answered with a status that is no success, and
    the cache is empty.  Then [processMessage] does not throw: it returns a
    text of the model, no products and the fallback intent of the message,
    and the cache is empty afterwards. *)
Theorem processMessage_survives_an_outage :
  forall (env : Env) (userMessage : string) (conversationHistory : list Message)
         (w : World),
    modelAnswers env ->
    intentAnswerIsProse env userMessage conversationHistory ->
    catalogDown env ->
    searchCache w = [] ->
    exists text w',
      processMessage env userMessage conversationHistory w
      = (Ok {| message := text; products := [];
               intent := fallbackIntent userMessage |}, w')
      /\ searchCache w' = [].
Proof.
  intros env userMessage history w Hmodel Hprose Hdown Hcache.
  unfold processMessage, extractIntent.
  unfold bind at 1 2.
  destruct (callLLM_result env (intentMessages env userMessage history) 0%Q 512%N w
              Hmodel) as [status [body [w1 [Hbody [-> Hc1]]]]].
  apply Hprose in Hbody.
  unfold ret at 1. cbv beta iota.
  unfold parseIntent. rewrite Hbody.
  cbn [fallbackIntent Intent.needs_clarification].
  unfold searchFromIntent.
  cbn [Intent.search_keywords Intent.occasion app].
  unfold bind at 1 2.
  rewrite Hcache in Hc1.
  match goal with
  | |- context [multiSearch env ?ks w1] =>
      destruct (multiSearch_down env ks w1 Hdown Hc1) as [w2 [-> Hc2]]
  end.
  unfold ret at 1. cbv beta iota.
  change (filterAndRank [] ?i) with (@nil Product.t).
  cbn [firstn map].
  unfold bind.
  match goal with
  | |- context [callLLM env ?msgs ?t ?m w2] =>
      destruct (callLLM_result env msgs t m w2 Hmodel)
        as [status' [body' [w3 [_ [-> Hc3]]]]]
  end.
  unfold ret. rewrite reorderProductsByMention_nothing.
  eexists. exists w3. split; [reflexivity|]. now rewrite Hc3.
Qed.

(** The sample model, which answers the intent request of this message with
    prose, with a catalog that cannot be reached: the customer gets the
    text of the model and no products. *)
Lemma processMessage_survives_an_outage_witness :
  exists text w',
    processMessage Sample.offline "what is this thing" [] Sample.start
    = (Ok {| message := text; products := [];
             intent := fallbackIntent "what is this thing" |}, w')
    /\ searchCache w' = [].
Proof.
  apply processMessage_survives_an_outage.
  - split; [reflexivity|]. intros n request. eexists. eexists. reflexivity.
  - intros n status body H. injection H as _ <-. reflexivity.
  - intros n keyword. exact I.
  - reflexivity.
Defined.

(** ** Requests per turn *)

Lemma spends_ret {A} (a : A) : spends (ret a) 0 0.
Proof. intros w. simpl. lia. Qed.

Lemma spends_throw {A} (e : Error) : spends (@throw A e) 0 0.
Proof. intros w. simpl. lia. Qed.

Lemma spends_bind {A B} (comp : M A) (k : A -> M B) c1 m1 c2 m2 :
  spends comp c1 m1 -> (forall a, spends (k a) c2 m2) ->
  spends (bind comp k) (c1 + c2) (m1 + m2).
Proof.
  intros Hc Hk w. unfold bind. specialize (Hc w).
  destruct (comp w) as [[a|e] w1]; cbn [snd] in *.
  - specialize (Hk a w1). lia.
  - lia.
Qed.

Lemma spends_more {A} (comp : M A) c m c' m' :
  spends comp c m -> c <= c' -> m <= m' -> spends comp c' m'.
Proof. intros H Hc Hm w. specialize (H w). lia. Qed.

Lemma spends_mapM {A B} (f : A -> M B) (l : list A) c m :
  (forall a, spends (f a) c m) -> spends (mapM f l) (length l * c) (length l * m).
Proof.
  intros Hf. induction l as [|a l IH]; cbn [mapM length].
  - apply spends_ret.
  - eapply spends_more.
    + apply spends_bind; [apply Hf|]. intros b.
      apply spends_bind; [apply IH|]. intros bs. apply spends_ret.
    + lia.
    + lia.
Qed.

Lemma modelFetches_catalog (l : list Event) (k : string) :
  modelFetches (l ++ [EvCatalogFetch k]) = modelFetches l.
Proof. unfold modelFetches. rewrite filter_app. simpl. apply app_nil_r. Qed.

Lemma fetches_now (l : list Event) :
  catalogFetches (l ++ [EvDateNow]) = catalogFetches l
  /\ modelFetches (l ++ [EvDateNow]) = modelFetches l.
Proof.
  unfold catalogFetches, modelFetches. rewrite !filter_app. simpl.
  now rewrite !app_nil_r.
Qed.

Lemma spends_now env : spends (now env) 0 0.
Proof.
  intros w. unfold now, bind, calls, emit, ret. cbn [snd log].
  destruct (fetches_now (log w)) as [-> ->]. lia.
Qed.

Lemma spends_getCache : spends getCache 0 0.
Proof. intros w. simpl. lia. Qed.

Lemma spends_putCache c : spends (putCache c) 0 0.
Proof. intros w. simpl. lia. Qed.

Lemma spends_catalog_emit k : spends (emit (EvCatalogFetch k)) 1 0.
Proof.
  intros w. unfold emit. cbn [snd log].
  rewrite modelFetches_catalog. unfold catalogFetches.
  rewrite filter_app, length_app. simpl. lia.
Qed.

Lemma spends_model_emit r : spends (emit (EvModelFetch r)) 0 1.
Proof.
  intros w. unfold emit. cbn [snd log].
  rewrite catalogFetches_model. unfold modelFetches.
  rewrite filter_app, length_app. simpl. lia.
Qed.

Lemma spends_calls : spends calls 0 0.
Proof. intros w. simpl. lia. Qed.

Lemma spends_searchProducts_start env keyword :
  spends (searchProducts_start env keyword) 1 0.
Proof.
  unfold searchProducts_start.
  destruct ((String.length keyword =? 0) || (String.length (Js.trim keyword) =? 0));
    [eapply spends_more; [apply spends_ret | lia | lia]|].
  apply (spends_bind _ _ 0 0 1 0); [apply spends_getCache|]. intros cache.
  apply (spends_bind _ _ 0 0 1 0).
  - destruct (JsMap.get _ cache) as [cached|]; [|apply spends_ret].
    apply (spends_bind _ _ 0 0 0 0); [apply spends_now|]. intros t.
    destruct (t - timestamp cached <? CACHE_TTL)%Z; [apply spends_ret|].
    apply (spends_bind _ _ 0 0 0 0); [apply spends_putCache|].
    intros. apply spends_ret.
  - intros [d|].
    + eapply spends_more; [apply spends_ret | lia | lia].
    + apply (spends_bind _ _ 0 0 1 0); [apply spends_calls|]. intros n.
      apply (spends_bind _ _ 1 0 0 0); [apply spends_catalog_emit|].
      intros. apply spends_ret.
Qed.

Lemma spends_searchProducts_finish env p :
  spends (searchProducts_finish env p) 0 0.
Proof.
  unfold searchProducts_finish.
  destruct p as [result|cacheKey [|ok status [d|]]]; try apply spends_ret.
  - destruct (negb ok); [apply spends_ret|].
    apply (spends_bind _ _ 0 0 0 0); [apply spends_now|]. intros t.
    apply (spends_bind _ _ 0 0 0 0); [apply spends_getCache|]. intros cache.
    apply (spends_bind _ _ 0 0 0 0); [apply spends_putCache|].
    intros. apply spends_ret.
  - destruct (negb ok); apply spends_ret.
Qed.

Lemma spends_searchAll env keywords :
  spends (searchAll env keywords) (length keywords) 0.
Proof.
  unfold searchAll.
  eapply spends_more.
  - apply (spends_bind _ _ (length keywords * 1) (length keywords * 0) 0 0).
    + apply spends_mapM. apply spends_searchProducts_start.
    + intros pending.
      eapply spends_more;
        [apply spends_mapM, spends_searchProducts_finish | lia | lia].
  - lia.
  - lia.
Qed.

Lemma spends_searchFromIntent env i : spends (searchFromIntent env i) 3 0.
Proof.
  unfold searchFromIntent.
  match goal with
  | |- spends (bind (multiSearch env (Some (firstn 3 ?ks))) _) _ _ =>
      set (keywords := firstn 3 ks);
      assert (Hlen : length keywords <= 3) by apply firstn_le_length
  end.
  apply (spends_bind _ _ 3 0 0 0); [|intros; apply spends_ret].
  unfold multiSearch. destruct (length keywords =? 0).
  - eapply spends_more; [apply spends_ret | lia | lia].
  - apply (spends_bind _ _ 3 0 0 0); [|intros; apply spends_ret].
    eapply spends_more; [apply spends_searchAll | lia | lia].
Qed.

Lemma spends_callLLM env msgs temp maxTokens :
  spends (callLLM env msgs temp maxTokens) 0 1.
Proof.
  unfold callLLM.
  destruct (negb _); [eapply spends_more; [apply spends_throw | lia | lia]|].
  apply (spends_bind _ _ 0 0 0 1); [apply spends_calls|]. intros n.
  apply (spends_bind _ _ 0 1 0 0); [apply spends_model_emit|]. intros _.
  destruct (nimEndpoint env n _) as [|ok status [c|]]; try destruct (negb ok);
    first [apply spends_ret | apply spends_throw].
Qed.

(** X20. One turn of [processMessage] sends at most 3 requests to the
    catalog and at most 2 to the inference service. *)
Theorem processMessage_request_budget :
  forall (env : Env) (userMessage : string) (conversationHistory : list Message)
         (w : World),
    length (catalogFetches
              (log (snd (processMessage env userMessage conversationHistory w))))
      <= length (catalogFetches (log w)) + 3
    /\ length (modelFetches
                 (log (snd (processMessage env userMessage conversationHistory w))))
       <= length (modelFetches (log w)) + 2.
Proof.
  intros env userMessage history.
  change (spends (processMessage env userMessage history) 3 2).
  unfold processMessage.
  apply (spends_bind _ _ 0 1 3 1).
  - unfold extractIntent.
    apply (spends_bind _ _ 0 1 0 0); [apply spends_callLLM|].
    intros. apply spends_ret.
  - intros i. destruct (Intent.needs_clarification i).
    + eapply spends_more; [|apply Nat.le_0_l | apply Nat.le_refl].
      apply (spends_bind _ _ 0 1 0 0); [apply spends_callLLM|].
      intros. apply spends_ret.
    + apply (spends_bind _ _ 3 0 0 1); [apply spends_searchFromIntent|].
      intros [allProducts i'].
      apply (spends_bind _ _ 0 1 0 0); [apply spends_callLLM|].
      intros. apply spends_ret.
Qed.

(** ** What the merge of [multiSearch] keeps *)

Lemma firstSeen_in (ps earlier : list Product.t) (p : Product.t) :
  In p (SearchSpec.firstSeen earlier ps) -> In p ps.
Proof.
  revert earlier. induction ps as [|q ps IH]; intros earlier; simpl; [auto|].
  destruct (existsb _ earlier); simpl; [eauto|].
  intros [H|H]; eauto.
Qed.

Lemma firstSeen_ids (ps earlier : list Product.t) (i : JsId) :
  In i (map Product.id ps) ->
  In i (map Product.id earlier)
  \/ In i (map Product.id (SearchSpec.firstSeen earlier ps)).
Proof.
  revert earlier. induction ps as [|q ps IH]; intros earlier; simpl; [tauto|].
  intros [<-|H].
  - destruct (existsb _ earlier) eqn:E.
    + left. now apply earlier_iff_In.
    + right. now left.
  - destruct (IH (earlier ++ [q]) H) as [Hin|Hin].
    + rewrite map_app, in_app_iff in Hin. destruct Hin as [Hin|[<-|[]]]; [auto|].
      destruct (existsb _ earlier) eqn:E.
      * left. now apply earlier_iff_In.
      * right. now left.
    + right. destruct (existsb _ earlier); [assumption | now right].
Qed.

(** X21. The merge of [multiSearch] loses no identifier and invents no
    product: every product it returns is in one of the result sets, and
    every identifier of the result sets is the identifier of a product it
    returns. *)
Theorem mergeResults_keeps_every_identifier :
  forall (results : list (list Product.t)),
    (forall p, In p (mergeResults results) -> In p (concat results))
    /\ (forall i, In i (map Product.id (concat results)) <->
                  In i (map Product.id (mergeResults results))).
Proof.
  intros results. rewrite mergeResults_firstSeen. split.
  - intros p. apply firstSeen_in.
  - intros i. split.
    + intros H. destruct (firstSeen_ids _ [] i H) as [[]|Hin]. exact Hin.
    + rewrite !in_map_iff. intros [p [E Hp]]. exists p.
      split; [assumption | eapply firstSeen_in, Hp].
Qed.

(** ** The window of history *)

Lemma lastn_app {A} (older recent : list A) :
  Js.lastn (length recent) (older ++ recent) = recent.
Proof.
  unfold Js.lastn. rewrite length_app.
  replace (length older + length recent - length recent) with (length older) by lia.
  rewrite skipn_app, skipn_all, Nat.sub_diag. reflexivity.
Qed.

Lemma lastn_all {A} (l : list A) : Js.lastn (length l) l = l.
Proof. apply (lastn_app [] l). Qed.

Lemma historyText_last_six (older recent : list Message) :
  length recent = 6 -> historyText (older ++ recent) = historyText recent.
Proof.
  intros H. unfold historyText.
  rewrite <- H. now rewrite lastn_app, lastn_all.
Qed.

(** X22. Only the last six turns of the history count: with six turns or
    more, what came before the last six changes nothing in what
    [processMessage] and [processMessageStream] do and return. *)
Theorem turn_reads_last_six_turns :
  forall (env : Env) (userMessage : string) (older recent : list Message) (w : World),
    length recent = 6 ->
    processMessage env userMessage (older ++ recent) w
    = processMessage env userMessage recent w
    /\ processMessageStream env userMessage (older ++ recent) w
       = processMessageStream env userMessage recent w.
Proof.
  intros env userMessage older recent w H.
  unfold processMessage, processMessageStream, extractIntent, intentMessages.
  rewrite (historyText_last_six older recent H). split; reflexivity.
Qed.

(** ** The description, cleaned *)

Lemma hasChar_stripTags (x : ascii) (s : string) (inTag : bool) :
  hasChar x (stripTagsFrom inTag s) = true -> hasChar x s = true.
Proof.
  revert inTag. induction s as [|c s IH]; intros inTag; simpl; [auto|].
  destruct inTag.
  - intros H. apply IH in H. rewrite H. apply orb_true_r.
  - destruct (Ascii.eqb c "<" && hasChar ">" s).
    + intros H. apply IH in H. rewrite H. apply orb_true_r.
    + simpl. intros H. apply orb_true_iff in H as [H|H].
      * now rewrite H.
      * apply IH in H. rewrite H. apply orb_true_r.
Qed.

Lemma stripTags_no_tag (s : string) (inTag : bool) :
  hasTag (stripTagsFrom inTag s) = false.
Proof.
  revert inTag. induction s as [|c s IH]; intros inTag; simpl; [reflexivity|].
  destruct inTag; [apply IH|].
  destruct (Ascii.eqb c "<" && hasChar ">" s) eqn:E; [apply IH|].
  simpl. rewrite IH, orb_false_r.
  apply andb_false_iff in E as [E|E]; [now rewrite E|].
  destruct (hasChar ">" (stripTagsFrom false s)) eqn:Hh; [|apply andb_false_r].
  apply hasChar_stripTags in Hh. congruence.
Qed.

(** [replaceCRLF], one character at a time. *)
Lemma replaceCRLF_step (c : ascii) (s : string) :
  replaceCRLF (String c s) =
  match s with
  | String d rest =>
      if Ascii.eqb c "013" && Ascii.eqb d "010"
      then String " " (replaceCRLF rest)
      else String c (replaceCRLF s)
  | EmptyString => String c EmptyString
  end.
Proof.
  destruct s as [|d rest].
  - destruct c as [[] [] [] [] [] [] [] []]; reflexivity.
  - destruct c as [[] [] [] [] [] [] [] []]; try reflexivity.
    destruct d as [[] [] [] [] [] [] [] []]; reflexivity.
Qed.

Lemma replaceCRLF_keeps (x : ascii) (s : string) :
  Ascii.eqb x " " = false ->
  hasChar x (replaceCRLF s) = true -> hasChar x s = true.
Proof.
  intros Hx.
  assert (Hboth : forall s, (hasChar x (replaceCRLF s) = true -> hasChar x s = true)
                            /\ forall c, hasChar x (replaceCRLF (String c s)) = true ->
                                         hasChar x (String c s) = true).
  { clear s. induction s as [|d s [IH1 IH2]].
    - split; [auto|]. intros c. rewrite replaceCRLF_step. auto.
    - split; [apply IH2|]. intros c. rewrite replaceCRLF_step.
      destruct (Ascii.eqb c "013" && Ascii.eqb d "010").
      + cbn [hasChar]. rewrite Ascii.eqb_sym, Hx. cbn [orb]. intros H.
        apply IH1 in H. rewrite H. now rewrite !orb_true_r.
      + cbn [hasChar]. intros H. apply orb_true_iff in H as [H|H].
        * now rewrite H.
        * apply IH2 in H. cbn [hasChar] in H. rewrite H. apply orb_true_r. }
  apply Hboth.
Qed.

Lemma replaceCRLF_no_tag (s : string) :
  hasTag s = false -> hasTag (replaceCRLF s) = false.
Proof.
  assert (Hboth : forall s, (hasTag s = false -> hasTag (replaceCRLF s) = false)
                            /\ forall c, hasTag (String c s) = false ->
                                         hasTag (replaceCRLF (String c s)) = false).
  { clear s. induction s as [|d s [IH1 IH2]].
    - split; [auto|]. intros c. rewrite replaceCRLF_step. auto.
    - split; [apply IH2|]. intros c. rewrite replaceCRLF_step.
      destruct (Ascii.eqb c "013" && Ascii.eqb d "010") eqn:E.
      + intros H. cbn [hasTag] in H.
        apply orb_false_iff in H as [_ H]. apply orb_false_iff in H as [_ H].
        cbn [hasTag]. rewrite (IH1 H). reflexivity.
      + intros H. cbn [hasTag] in H. apply orb_false_iff in H as [Hc H].
        change (hasTag (String c (replaceCRLF (String d s))) = false).
        cbn [hasTag]. rewrite (IH2 d H), orb_false_r.
        apply andb_false_iff in Hc as [Hc|Hc]; [now rewrite Hc|].
        destruct (hasChar ">" (replaceCRLF (String d s))) eqn:Hh;
          [|apply andb_false_r].
        apply replaceCRLF_keeps in Hh; [congruence | reflexivity]. }
  apply Hboth.
Qed.

Lemma hasChar_trimStart (x : ascii) (s : string) :
  hasChar x (Js.trimStart s) = true -> hasChar x s = true.
Proof.
  induction s as [|c s IH]; simpl; [auto|].
  destruct (Js.isWhiteSpace c); [|auto].
  intros H. rewrite (IH H). apply orb_true_r.
Qed.

Lemma hasChar_trimEnd (x : ascii) (s : string) :
  hasChar x (Js.trimEnd s) = true -> hasChar x s = true.
Proof.
  induction s as [|c s IH]; [auto|].
  cbn [Js.trimEnd hasChar].
  destruct (Js.trimEnd s) as [|d r] eqn:E.
  - destruct (Js.isWhiteSpace c); simpl; [discriminate|].
    rewrite orb_false_r. intros ->. reflexivity.
  - cbn [hasChar]. intros H. apply orb_true_iff in H as [H|H].
    + now rewrite H.
    + rewrite IH; [apply orb_true_r | exact H].
Qed.

Lemma trimStart_no_tag (s : string) :
  hasTag s = false -> hasTag (Js.trimStart s) = false.
Proof.
  induction s as [|c s IH]; simpl; [auto|].
  destruct (Js.isWhiteSpace c); [|auto].
  intros H. apply orb_false_iff in H as [_ H]. auto.
Qed.

Lemma trimEnd_no_tag (s : string) :
  hasTag s = false -> hasTag (Js.trimEnd s) = false.
Proof.
  induction s as [|c s IH]; [auto|].
  cbn [Js.trimEnd hasTag]. intros H. apply orb_false_iff in H as [Hc H].
  specialize (IH H).
  destruct (Js.trimEnd s) as [|d r] eqn:E.
  - destruct (Js.isWhiteSpace c); simpl; [reflexivity|].
    now rewrite andb_false_r.
  - cbn [hasTag] in *. rewrite IH, orb_false_r.
    apply andb_false_iff in Hc as [Hc|Hc]; [now rewrite Hc|].
    destruct (hasChar ">" (String d r)) eqn:Hh; [|apply andb_false_r].
    rewrite <- E in Hh. apply hasChar_trimEnd in Hh. congruence.
Qed.

(** X23. No markup reaches the grid or the model: the description of
    [formatProductForDisplay] and the one of [cleanProductForLLM] hold no
    [<] with a [>] after it, whatever the catalog sent; and the two are the
    same text. *)
Theorem descriptions_hold_no_tag :
  forall (product : Product.t),
    hasTag (Display.description (formatProductForDisplay product)) = false
    /\ hasTag (LLMProduct.description (cleanProductForLLM product)) = false
    /\ LLMProduct.description (cleanProductForLLM product)
       = Display.description (formatProductForDisplay product).
Proof.
  intros product.
  assert (H : hasTag (cleanDescription (Product.description product)) = false).
  { unfold cleanDescription, Js.trim, stripTags.
    apply trimEnd_no_tag, trimStart_no_tag, replaceCRLF_no_tag, stripTags_no_tag. }
  repeat split; assumption.
Qed.

(** ** Code fences around the answer *)

Lemma fence_patterns_need_backtick (c : ascii) (s : string) :
  Ascii.eqb c "`" = false ->
  matchFenceOpen (String c s) = None /\ matchFence (String c s) = None.
Proof.
  intros H. destruct c as [[] [] [] [] [] [] [] []];
    try (split; reflexivity); discriminate H.
Qed.

Lemma removeMatches_plain (pat : string -> option nat) (body rest : string) :
  (forall c s, Ascii.eqb c "`" = false -> pat (String c s) = None) ->
  hasChar "`" body = false ->
  removeMatches pat (String.append body rest) 0 =
  String.append body (removeMatches pat rest 0).
Proof.
  intros Hpat. induction body as [|c body IH]; [reflexivity|].
  cbn [hasChar String.append removeMatches]. intros H.
  apply orb_false_iff in H as [Hc Hbody].
  rewrite (Hpat c _ Hc), IH by assumption. reflexivity.
Qed.

Lemma trimStart_append_space (b w : string) :
  SearchSpec.whitespaceOnly w = true ->
  Js.trimEnd (Js.trimStart (String.append b w)) = Js.trimEnd (Js.trimStart b).
Proof.
  intros Hw.
  assert (HtrimEnd : forall x, Js.trimEnd (String.append x w) = Js.trimEnd x).
  { induction x as [|c x IH]; cbn [String.append Js.trimEnd].
    - clear - Hw. induction w as [|c w IH]; [reflexivity|].
      cbn [SearchSpec.whitespaceOnly] in Hw. apply andb_true_iff in Hw as [Hc Hw].
      cbn [Js.trimEnd]. rewrite (IH Hw), Hc. reflexivity.
    - now rewrite IH. }
  induction b as [|c b IH]; cbn [String.append Js.trimStart].
  - rewrite trimStart_whitespaceOnly by assumption. reflexivity.
  - destruct (Js.isWhiteSpace c); [exact IH|].
    apply (HtrimEnd (String c b)).
Qed.

Lemma trimEnd_ends_well (a : string) (c : ascii) :
  Js.isWhiteSpace c = false ->
  Js.trimEnd (String.append a (String c EmptyString))
  = String.append a (String c EmptyString).
Proof.
  intros Hc. induction a as [|x a IH]; cbn [String.append Js.trimEnd].
  - now rewrite Hc.
  - rewrite IH. destruct a; reflexivity.
Qed.

Lemma fenced_is_trimmed (withName : bool) (body : string) :
  Js.trim (fenced withName body) = fenced withName body.
Proof.
  unfold Js.trim.
  assert (Hstart : Js.trimStart (fenced withName body) = fenced withName body)
    by (destruct withName; reflexivity).
  rewrite Hstart.
  assert (Hend : fenced withName body =
                 String.append
                   (String.append (if withName then "```json" else "```")
                      (String.append newline (String.append body (String.append newline "``"))))
                   "`").
  { unfold fenced. rewrite !append_assoc. reflexivity. }
  rewrite Hend. now apply trimEnd_ends_well.
Qed.

(** X24. A fenced answer is unwrapped before it is parsed: for a body
    without backticks, between an opening fence (with or without the name
    json) and a closing fence, each on its own line, the text handed to
    [JSON.parse] is the body, trimmed. *)
Theorem stripFences_unwraps :
  forall (withName : bool) (body : string),
    hasChar "`" body = false ->
    stripFences (fenced withName body) = Js.trim body.
Proof.
  intros withName body Hbody.
  unfold stripFences. rewrite fenced_is_trimmed.
  assert (Hstarts : Js.startsWith (fenced withName body) "```" = true)
    by (destruct withName; reflexivity).
  rewrite Hstarts.
  assert (Hopen : removeMatches matchFenceOpen (fenced withName body) 0 =
                  String.append (if withName then EmptyString else String.append "```" newline)
                    (String.append body (String.append newline "```"))).
  { destruct withName; unfold fenced, newline; cbn [String.append removeMatches matchFenceOpen Nat.add];
      rewrite (removeMatches_plain matchFenceOpen body)
        by (assumption || (intros c s Hc; apply fence_patterns_need_backtick, Hc));
      reflexivity. }
  rewrite Hopen.
  assert (Hclose : removeMatches matchFence
                     (String.append
                        (if withName then EmptyString else String.append "```" newline)
                        (String.append body (String.append newline "```"))) 0 =
                   String.append (if withName then EmptyString else newline)
                     (String.append body newline)).
  { destruct withName; unfold newline; cbn [String.append removeMatches matchFence Nat.add];
      rewrite (removeMatches_plain matchFence body)
        by (assumption || (intros c s Hc; apply fence_patterns_need_backtick, Hc));
      reflexivity. }
  rewrite Hclose. unfold Js.trim.
  destruct withName; cbn [String.append newline Js.trimStart];
    apply trimStart_append_space; reflexivity.
Qed.

(** The answer of the sample model to a message about a birthday. *)
Lemma stripFences_unwraps_witness :
  stripFences (fenced true "{birthday}") = Js.trim "{birthday}".
Proof. apply stripFences_unwraps. reflexivity. Defined.

(** ** The further properties at sample inputs *)

(** The sample product priced 5, within a budget from 3 to 8. *)
Lemma filterProducts_within_budget_witness :
  (forall bound, Some 3%Q = Some bound ->
     exists price,
       Product.minPrice (Sample.product 5 "item") = Some price /\ (bound <= price)%Q)
  /\ (forall bound, Some 8%Q = Some bound ->
        exists price,
          Product.minPrice (Sample.product 5 "item") = Some price /\ (price <= bound)%Q).
Proof.
  apply (filterProducts_within_budget Sample.catalog
           (Filters.mk (Some 3%Q) (Some 8%Q) None None false)
           (Sample.product 5 "item")).
  vm_compute. auto 10.
Defined.

(** The sample product 5, with peanuts excluded and urgent delivery not
    asked for. *)
Lemma filterProducts_dietary_and_urgent_witness :
  (forall terms, Some ["Peanut"] = Some terms ->
     FilterSpec.containsExcluded terms (Sample.product 5 "item") = false)
  /\ (false = true -> Product.isOneHourDelivery (Sample.product 5 "item") = true).
Proof.
  apply (filterProducts_dietary_and_urgent Sample.catalog
           (Filters.mk None None None (Some ["Peanut"]) false)
           (Sample.product 5 "item")).
  vm_compute. auto 10.
Defined.

(** A search one second after the answer was stored. *)
Lemma searchProducts_fresh_entry_witness :
  searchProducts Sample.offline " Birthday " (SampleRun.remembering (-1000)) =
    (Ok Sample.catalog,
     {| searchCache := searchCache (SampleRun.remembering (-1000));
        log := [EvDateNow] |}).
Proof.
  apply (searchProducts_fresh_entry_is_served Sample.offline " Birthday "
           (SampleRun.remembering (-1000))
           {| data := Sample.catalog; timestamp := (-1000)%Z |}).
  - vm_compute. discriminate.
  - reflexivity.
  - vm_compute. reflexivity.
Defined.

(** A search five minutes after the answer was stored. *)
Lemma searchProducts_stale_entry_witness :
  searchProducts_start Sample.offline " Birthday " (SampleRun.remembering (-300000)) =
    (Ok (Awaiting "birthday" NetworkError),
     {| searchCache := [];
        log := [EvDateNow; EvCatalogFetch "birthday"] |}).
Proof.
  apply (searchProducts_stale_entry_is_dropped Sample.offline " Birthday "
           (SampleRun.remembering (-300000))
           {| data := Sample.catalog; timestamp := (-300000)%Z |}).
  - vm_compute. discriminate.
  - reflexivity.
  - vm_compute. discriminate.
Defined.

(** "Birthday " and then " birthday", one second apart. *)
Lemma searchProducts_answer_is_reused_witness :
  exists w1,
    searchProducts Sample.online "Birthday " Sample.start = (Ok Sample.catalog, w1)
    /\ searchProducts Sample.online " birthday" w1 =
         (Ok Sample.catalog,
          {| searchCache := searchCache w1; log := log w1 ++ [EvDateNow] |})
    /\ log w1 = log Sample.start ++ [EvCatalogFetch "birthday"; EvDateNow].
Proof.
  apply (searchProducts_answer_is_reused Sample.online "Birthday " " birthday"
           Sample.start 200%N Sample.catalog).
  - vm_compute. discriminate.
  - vm_compute. discriminate.
  - reflexivity.
  - reflexivity.
  - reflexivity.
  - vm_compute. reflexivity.
Defined.

(** A turn and a comparison of two sample products, without the key. *)
Lemma turn_without_key_witness :
  processMessage SampleRun.keyless "birthday gift" [] Sample.start
    = (Throw missingKey, Sample.start)
  /\ compareProducts SampleRun.keyless [IdNum 1; IdNum 2] Sample.catalog
       "birthday gift" Sample.start
     = (Throw missingKey, Sample.start).
Proof.
  destruct (turn_without_key_does_nothing SampleRun.keyless "birthday gift" []
              Sample.start eq_refl) as [Hturn [_ Hcompare]].
  split; [exact Hturn|].
  apply Hcompare. vm_compute. lia.
Defined.

(** Eight turns of history, of which the last six count. *)
Lemma turn_reads_last_six_witness :
  processMessage Sample.online "something sweet"
    (SampleRun.before ++ SampleRun.lastSix) Sample.start
  = processMessage Sample.online "something sweet" SampleRun.lastSix Sample.start.
Proof.
  apply (turn_reads_last_six_turns Sample.online "something sweet"
           SampleRun.before SampleRun.lastSix Sample.start).
  reflexivity.
Defined.
